(** * Poke-translator: the translation application engine

    A shallow embedding of [translations_applicator.py]
    ([process_single_file] and its two closures
    [get_contextual_translation] and [replace_content]) together with
    proofs of the properties the specification states about it.

    Conventions of the embedding:
    - a Python [str] is a [string] whose characters are code points below
      256 (the Latin-1 range); character classes follow Python's on that
      range;
    - a Python [int] is a [Z];
    - registry dictionaries that are only looked up are [gmap string _],
      a Python [set] is a [gset string], and dictionaries whose iteration
      order is observed are insertion-ordered association lists ([pydict]);
    - the [print] calls of the registry loader, of the cascade and of the
      block applicator append a [log_event] to a log carried in the state;
      the progress lines of the dictionary loader are left out;
    - an exception that the source does not catch ends the run
      ([Raise]);
    - [re] and [int] are modelled on the fragment the program can
      reach with text inputs; what lies outside it is the outcome
      [Unmodelled], never a made-up result;
    - [str.format] is modelled in full for what decides the outcome of
      the call (the parsing of the fields, the order of the lookups, the
      [KeyError] of a name that is not defined); what an accessor, a
      conversion or a format specification makes of a string is an
      interface ([FormatLib]), of which [string_fields] is the instance
      for the conversions and format specifications of CPython 3.11. *)

From Stdlib Require Import ZArith NArith Ascii String List.
From Stdlib Require Import DecimalString DecimalZ DecimalPos.
From stdpp Require Import base option list gmap strings sorting.

Open Scope string_scope.
Open Scope list_scope.
Open Scope Z_scope.

(** ** The Python string library on Latin-1 text *)

Module Py.

Definition ord (c : ascii) : N := N_of_ascii c.

Definition in_range (lo hi : N) (c : ascii) : bool :=
  ((lo <=? ord c) && (ord c <=? hi))%N.

(** [str.isspace] on one character: TAB..CR, FS..US, space, NEL, NBSP. *)
Definition isspace (c : ascii) : bool :=
  in_range 9 13 c || in_range 28 32 c || (ord c =? 133)%N || (ord c =? 160)%N.

(** The characters [int()] reads as decimal digits. *)
Definition isdecimal (c : ascii) : bool := in_range 48 57 c.

(** [str.isdigit] on one character: the decimal digits and the
    superscripts two, three and one. *)
Definition isdigit_char (c : ascii) : bool :=
  isdecimal c || (ord c =? 178)%N || (ord c =? 179)%N || (ord c =? 185)%N.

Definition isupper (c : ascii) : bool :=
  in_range 65 90 c || in_range 192 214 c || in_range 216 222 c.

Definition lower_char (c : ascii) : ascii :=
  if isupper c then ascii_of_N (ord c + 32) else c.

(** The characters matched by [\w] in a [str] pattern: alphanumeric
    (letters, digits, numeric signs) or underscore. *)
Definition isword (c : ascii) : bool :=
  in_range 48 57 c || in_range 65 90 c || in_range 97 122 c || (ord c =? 95)%N
  || (ord c =? 170)%N || (ord c =? 178)%N || (ord c =? 179)%N || (ord c =? 181)%N
  || (ord c =? 185)%N || (ord c =? 186)%N || in_range 188 190 c
  || in_range 192 214 c || in_range 216 246 c || in_range 248 255 c.

Fixpoint all_chars (p : ascii -> bool) (s : string) : bool :=
  match s with
  | EmptyString => true
  | String c s' => p c && all_chars p s'
  end.

Fixpoint map_chars (f : ascii -> ascii) (s : string) : string :=
  match s with
  | EmptyString => EmptyString
  | String c s' => String (f c) (map_chars f s')
  end.

(** [s.startswith(p)] *)
Fixpoint startswith (s p : string) {struct p} : bool :=
  match p with
  | EmptyString => true
  | String a p' =>
      match s with
      | String c s' => Ascii.eqb a c && startswith s' p'
      | EmptyString => false
      end
  end.

(** [s.lower()] *)
Definition lower (s : string) : string := map_chars lower_char s.

(** [sub in s] *)
Fixpoint contains (sub s : string) : bool :=
  startswith s sub ||
  match s with
  | EmptyString => false
  | String _ s' => contains sub s'
  end.

(** [s.replace(old, new)] for a one-character [old]. *)
Fixpoint replace_char (old : ascii) (new : string) (s : string) : string :=
  match s with
  | EmptyString => EmptyString
  | String c s' =>
      if Ascii.eqb c old then new +:+ replace_char old new s'
      else String c (replace_char old new s')
  end.

(** [s.split(sep)] for a one-character [sep]. *)
Fixpoint split_char (sep : ascii) (s : string) : list string :=
  match s with
  | EmptyString => [EmptyString]
  | String c s' =>
      if Ascii.eqb c sep then EmptyString :: split_char sep s'
      else match split_char sep s' with
           | w :: ws => String c w :: ws
           | [] => [String c EmptyString]
           end
  end.

(** [s.split()]: the maximal runs of non-whitespace characters. *)
Fixpoint split (s : string) : list string :=
  match s with
  | EmptyString => []
  | String c s' =>
      if isspace c then split s'
      else match s' with
           | EmptyString => [String c EmptyString]
           | String c' _ =>
               if isspace c' then String c EmptyString :: split s'
               else match split s' with
                    | w :: ws => String c w :: ws
                    | [] => [String c EmptyString]
                    end
           end
  end.

Fixpoint lstrip (s : string) : string :=
  match s with
  | EmptyString => EmptyString
  | String c s' => if isspace c then lstrip s' else s
  end.

Fixpoint rstrip (s : string) : string :=
  match s with
  | EmptyString => EmptyString
  | String c s' =>
      match rstrip s' with
      | EmptyString => if isspace c then EmptyString else String c EmptyString
      | r => String c r
      end
  end.

(** [s.strip()] *)
Definition strip (s : string) : string := rstrip (lstrip s).

(** [s.isdigit()] *)
Definition isdigit (s : string) : bool :=
  match s with
  | EmptyString => false
  | _ => all_chars isdigit_char s
  end.

(** Truthiness of a string: [if s:]. *)
Definition truthy (s : string) : bool :=
  match s with
  | EmptyString => false
  | _ => true
  end.

(** [s[:n]] and [s[n:]] for [0 <= n]. *)
Fixpoint slice_to (n : nat) (s : string) : string :=
  match n, s with
  | S n', String c s' => String c (slice_to n' s')
  | _, _ => EmptyString
  end.

Fixpoint slice_from (n : nat) (s : string) : string :=
  match n, s with
  | S n', String _ s' => slice_from n' s'
  | _, _ => s
  end.

(** [s.rfind(sub)]; [None] stands for [-1]. *)
Fixpoint rfind (sub s : string) : option nat :=
  match s with
  | EmptyString => if startswith s sub then Some 0%nat else None
  | String _ s' =>
      match rfind sub s' with
      | Some p => Some (S p)
      | None => if startswith s sub then Some 0%nat else None
      end
  end.

(** [str(n)] for an [int]. *)
Definition str (z : Z) : string := NilZero.string_of_int (Z.to_int z).

(** The digits of an [int()] literal: decimal digits, single underscores
    allowed between two digits. *)
Fixpoint digits_ok (prev_digit : bool) (s : string) : bool :=
  match s with
  | EmptyString => prev_digit
  | String c s' =>
      if isdecimal c then digits_ok true s'
      else if Ascii.eqb c "_" then prev_digit && digits_ok false s'
      else false
  end.

Definition int_unsigned (s : string) : option Z :=
  if digits_ok false s
  then Z.of_uint <$> NilZero.uint_of_string (replace_char "_" EmptyString s)
  else None.

(** [int(s)]: surrounding whitespace, an optional sign, decimal digits.
    [None] stands for [ValueError].  Integers are unbounded: the limit an
    interpreter may put on the number of digits it converts is not part
    of the model. *)
Definition int (s : string) : option Z :=
  match strip s with
  | String c r =>
      if Ascii.eqb c "-" then Z.opp <$> int_unsigned r
      else if Ascii.eqb c "+" then int_unsigned r
      else int_unsigned (String c r)
  | EmptyString => None
  end.

End Py.


(** ** Insertion-ordered dictionaries

    A Python [dict] whose iteration order the program observes: keys are
    unique, a new key is appended, an existing key keeps its place. *)

Definition pydict (V : Type) : Type := list (string * V).

Fixpoint dict_get {V} (d : pydict V) (k : string) : option V :=
  match d with
  | [] => None
  | (k', v) :: d' => if String.eqb k' k then Some v else dict_get d' k
  end.

(** [d[k] = v] *)
Fixpoint dict_set {V} (d : pydict V) (k : string) (v : V) : pydict V :=
  match d with
  | [] => [(k, v)]
  | (k', v') :: d' =>
      if String.eqb k' k then (k', v) :: d' else (k', v') :: dict_set d' k v
  end.

(** [d.update(other)] *)
Definition dict_update {V} (d other : pydict V) : pydict V :=
  foldl (fun acc kv => dict_set acc kv.1 kv.2) d other.

(** [k in d] *)
Definition dict_mem {V} (d : pydict V) (k : string) : bool :=
  match dict_get d k with Some _ => true | None => false end.

(** [d.keys()], in iteration order. *)
Definition dict_keys {V} (d : pydict V) : list string := fst <$> d.

(** ** The special-cases file

    The parsed JSON of [special_cases-<lang>.json], typed after the shapes
    the loader reads.  A field read with [.get(key, default)] holds the
    default when the key is absent; a field read with [.get(key)] is an
    [option]. *)

Record pattern_config := {
  pc_regex : option string;
  pc_template : option string;
  pc_description : string            (* default "Transformation" *)
}.

Record override_entry := {
  oe_id : string;
  oe_translation : string;
  oe_reason : string
}.

Record transform_entry := {
  te_id : string;
  te_patterns : list pattern_config;
  te_reason : string
}.

Record no_translation_entry := {
  ne_id : string;
  ne_comment : string
}.

(** A legacy per-id special case: any other top-level key. *)
Record legacy_case := {
  lc_type : option string;
  lc_reason : option string;
  lc_translations : pydict string    (* default {} *)
}.

Record block_info := {
  bi_content : string;               (* default: the empty string *)
  bi_reason : string                 (* default "Block addition" *)
}.

Record special_cases_json := {
  js_add_translation : option (pydict string);
  js_add_block : option (pydict block_info);
  js_override_translation : option (list override_entry);
  js_transform_translation : option (list transform_entry);
  js_no_translation : option (list no_translation_entry);
  js_rest : pydict legacy_case
}.

(** What the loader stores per id. *)
Record override_data := { od_translation : string; od_reason : string }.
Record transform_data := { td_patterns : list pattern_config; td_reason : string }.

Record registry := {
  special_cases : gmap string legacy_case;
  global_add_translations : pydict string;
  global_no_translation_ids : gset string;
  global_override_translations : gmap string override_data;
  global_transform_translations : gmap string transform_data;
  add_block_data : pydict block_info
}.

Definition empty_registry : registry :=
  {| special_cases := ∅; global_add_translations := [];
     global_no_translation_ids := ∅; global_override_translations := ∅;
     global_transform_translations := ∅; add_block_data := [] |}.

(** ** The log

    One constructor per [print] of the loader, the cascade and the block
    applicator.  The progress prefix of the cascade's lines (file and
    record counters, percentage) is not part of the event. *)

Inductive category := CatOverride | CatTransform | CatNoTranslation | CatLegacy.

Inductive log_event :=
  (* "Expanded <category> range <id> into <count> IDs<info>" *)
  | LogExpandedRange (c : category) (id_item : string) (count : Z) (info : string)
  (* "Error parsing <category> range: <id>" *)
  | LogRangeError (c : category) (id_item : string)
  (* "Added <category> ID: <id><info>" *)
  | LogAddedId (c : category) (id_item : string) (info : string)
  (* "Loaded <n> ..." *)
  | LogLoaded (what : string) (n : nat)
  (* "[GLOBAL_OVERRIDE] ID:<id> - <reason>" and "[EN] <original> = [..] <text>" *)
  | LogGlobalOverride (id reason original translated : string)
  (* "[NO_TRANSLATION] ID:<id> - Global category" *)
  | LogGlobalNoTranslation (id : string)
  (* "[GLOBAL_TRANSFORM] ID:<id> - <description>" and the "[EN]" line *)
  | LogGlobalTransform (id description original result : string)
  (* "Template error for ID <id>: missing variable <name>" *)
  | LogTemplateError (id name : string)
  (* "[SKIP] ID:<id> - <reason>" *)
  | LogSkip (id reason : string)
  (* "[ADD_TRANS] ID:<id> - <reason>" and the "[EN]" line *)
  | LogAddTrans (id reason original translated : string)
  (* "[EN] <original> = [..] <text>" *)
  | LogTranslated (original translated : string)
  (* "[EN] <original> = [NO TRANSLATION]" *)
  | LogNotTranslated (original : string)
  (* "Added block to file <path>: <reason>" and "Content added: <n> characters" *)
  | LogBlockAdded (path reason : string) (n : nat)
  (* "Error: closing tag not found to add block in <path>" *)
  | LogBlockNoClosingTag (path : string)
  (* "No translations found for language ..." *)
  | LogNoTranslations
  (* "Error loading special cases: ..." *)
  | LogSpecialCasesError.

Definition log := list log_event.

(** ** Loading the registry: id ranges *)

(** The guard of a range: the id contains a dash and, once dashes and
    dots are removed, [isdigit()] holds. *)
Definition looks_like_range (id_item : string) : bool :=
  Py.contains "-" id_item &&
  Py.isdigit (Py.replace_char "." EmptyString (Py.replace_char "-" EmptyString id_item)).

(** [ start, end = id_item.split("-"); start_id = int(start); end_id = int(end) ];
    [None] is the [ValueError] of the unpacking or of either [int]. *)
Definition parse_range (id_item : string) : option (Z * Z) :=
  match Py.split_char "-" id_item with
  | [start; end_] =>
      match Py.int start with
      | Some start_id =>
          match Py.int end_ with
          | Some end_id => Some (start_id, end_id)
          | None => None
          end
      | None => None
      end
  | _ => None
  end.

(** [ [str(id_num) for id_num in range(start_id, end_id + 1)] ] *)
Definition range_ids (start_id end_id : Z) : list string :=
  Py.str <$> seqZ start_id (end_id + 1 - start_id).

(** The reason between parentheses after a space, or nothing without one. *)
Definition reason_info (reason : string) : string :=
  if Py.truthy reason then " (" +:+ reason +:+ ")" else EmptyString.

Definition load_override_entry
    (st : gmap string override_data * log) (id_entry : override_entry)
  : gmap string override_data * log :=
  let '(overrides, lg) := st in
  let id_item := oe_id id_entry in
  let data := {| od_translation := oe_translation id_entry;
                 od_reason := oe_reason id_entry |} in
  if looks_like_range id_item then
    match parse_range id_item with
    | Some (start_id, end_id) =>
        (foldl (fun m id => <[id := data]> m) overrides (range_ids start_id end_id),
         lg ++ [LogExpandedRange CatOverride id_item (end_id - start_id + 1)
                  (reason_info (oe_reason id_entry))])
    | None => (overrides, lg ++ [LogRangeError CatOverride id_item])
    end
  else
    (<[id_item := data]> overrides,
     lg ++ [LogAddedId CatOverride id_item (reason_info (oe_reason id_entry))]).

Definition load_transform_entry
    (st : gmap string transform_data * log) (id_entry : transform_entry)
  : gmap string transform_data * log :=
  let '(transforms, lg) := st in
  let id_item := te_id id_entry in
  let data := {| td_patterns := te_patterns id_entry;
                 td_reason := te_reason id_entry |} in
  if looks_like_range id_item then
    match parse_range id_item with
    | Some (start_id, end_id) =>
        (foldl (fun m id => <[id := data]> m) transforms (range_ids start_id end_id),
         lg ++ [LogExpandedRange CatTransform id_item (end_id - start_id + 1)
                  (reason_info (te_reason id_entry))])
    | None => (transforms, lg ++ [LogRangeError CatTransform id_item])
    end
  else
    (<[id_item := data]> transforms,
     lg ++ [LogAddedId CatTransform id_item (reason_info (te_reason id_entry))]).

Definition load_no_translation_entry
    (st : gset string * log) (id_entry : no_translation_entry)
  : gset string * log :=
  let '(ids, lg) := st in
  let id_item := ne_id id_entry in
  if looks_like_range id_item then
    match parse_range id_item with
    | Some (start_id, end_id) =>
        (foldl (fun s id => s ∪ {[id]}) ids (range_ids start_id end_id),
         lg ++ [LogExpandedRange CatNoTranslation id_item (end_id - start_id + 1)
                  (reason_info (ne_comment id_entry))])
    | None => (ids, lg ++ [LogRangeError CatNoTranslation id_item])
    end
  else
    (ids ∪ {[id_item]},
     lg ++ [LogAddedId CatNoTranslation id_item (reason_info (ne_comment id_entry))]).

(** The loop over the remaining top-level keys; a single id prints nothing. *)
Definition load_legacy_entry
    (st : gmap string legacy_case * log) (kv : string * legacy_case)
  : gmap string legacy_case * log :=
  let '(cases, lg) := st in
  let '(key, value) := kv in
  if looks_like_range key then
    match parse_range key with
    | Some (start_id, end_id) =>
        (foldl (fun m id => <[id := value]> m) cases (range_ids start_id end_id),
         lg ++ [LogExpandedRange CatLegacy key (end_id - start_id + 1) EmptyString])
    | None => (cases, lg ++ [LogRangeError CatLegacy key])
    end
  else (<[key := value]> cases, lg).

(** The body of [ if os.path.exists(special_cases_file): ], after
    [json.load] has succeeded. *)
Definition load_special_cases (data : special_cases_json) (lg : log)
  : registry * log :=
  let '(add_tr, lg) :=
    match js_add_translation data with
    | Some tr => (tr, lg ++ [LogLoaded "additional global translations" (length tr)])
    | None => ([], lg)
    end in
  let '(blocks, lg) :=
    match js_add_block data with
    | Some b => (b, lg ++ [LogLoaded "files for add_block" (length b)])
    | None => ([], lg)
    end in
  let '(overrides, lg) :=
    match js_override_translation data with
    | Some ids =>
        let '(m, lg) := foldl load_override_entry (∅, lg) ids in
        (m, lg ++ [LogLoaded "IDs for global override_translation" (size m)])
    | None => (∅, lg)
    end in
  let '(transforms, lg) :=
    match js_transform_translation data with
    | Some ids =>
        let '(m, lg) := foldl load_transform_entry (∅, lg) ids in
        (m, lg ++ [LogLoaded "IDs for global transform_translation" (size m)])
    | None => (∅, lg)
    end in
  let '(no_tr, lg) :=
    match js_no_translation data with
    | Some ids =>
        let '(s, lg) := foldl load_no_translation_entry (∅, lg) ids in
        (s, lg ++ [LogLoaded "IDs for global no_translation" (size s)])
    | None => (∅, lg)
    end in
  let '(cases, lg) := foldl load_legacy_entry (∅, lg) (js_rest data) in
  ({| special_cases := cases; global_add_translations := add_tr;
      global_no_translation_ids := no_tr; global_override_translations := overrides;
      global_transform_translations := transforms; add_block_data := blocks |},
   lg ++ [LogLoaded "special cases" (size cases)]).

(** ** Exceptions the source does not catch *)

Inductive exn :=
  | IndexError
  | ValueError
  | ReError
  | TypeError
  | AttributeError
  (* behaviour of a library call outside the fragment modelled here *)
  | Unmodelled (what : string).

Inductive outcome (A : Type) :=
  | Ok (a : A)
  | Raise (e : exn).
Arguments Ok {A} a.
Arguments Raise {A} e.

(** ** The dictionary store *)

Record dictionaries := {
  translations : pydict string;
  type_translations : pydict string;
  move_translations : pydict string;
  ability_translations : pydict string;
  item_translations : pydict string
}.

Definition empty_dictionaries : dictionaries :=
  {| translations := []; type_translations := []; move_translations := [];
     ability_translations := []; item_translations := [] |}.

(** [s.endswith(suffix)] *)
Fixpoint endswith (s suffix : string) : bool :=
  String.eqb s suffix ||
  match s with
  | EmptyString => false
  | String _ s' => endswith s' suffix
  end.

(** One iteration of the loop over [os.listdir(translations_dir)]: the
    file name and the result of [json.load] ([None] when it fails).  The
    values of a dictionary file are strings. *)
Definition load_translation_file
    (d : dictionaries) (file : string * option (pydict string)) : dictionaries :=
  let '(filename, parsed) := file in
  if endswith filename ".json" then
    match parsed with
    | Some data =>
        if Py.startswith filename "type-" then
          {| translations := translations d;
             type_translations := dict_update (type_translations d) data;
             move_translations := move_translations d;
             ability_translations := ability_translations d;
             item_translations := item_translations d |}
        else if Py.startswith filename "move-" then
          {| translations := translations d;
             type_translations := type_translations d;
             move_translations := dict_update (move_translations d) data;
             ability_translations := ability_translations d;
             item_translations := item_translations d |}
        else if Py.startswith filename "ability-" then
          {| translations := translations d;
             type_translations := type_translations d;
             move_translations := move_translations d;
             ability_translations := dict_update (ability_translations d) data;
             item_translations := item_translations d |}
        else if Py.startswith filename "item-" then
          {| translations := translations d;
             type_translations := type_translations d;
             move_translations := move_translations d;
             ability_translations := ability_translations d;
             item_translations := dict_update (item_translations d) data |}
        else
          {| translations := dict_update (translations d) data;
             type_translations := type_translations d;
             move_translations := move_translations d;
             ability_translations := ability_translations d;
             item_translations := item_translations d |}
    | None => d
    end
  else d.

(** The five dictionaries after all files are loaded and the registry's
    global additional translations are merged into the generic one. *)
Definition load_dictionaries
    (files : list (string * option (pydict string)))
    (global_add : pydict string) : dictionaries :=
  let d := foldl load_translation_file empty_dictionaries files in
  {| translations := dict_update (translations d) global_add;
     type_translations := type_translations d;
     move_translations := move_translations d;
     ability_translations := ability_translations d;
     item_translations := item_translations d |}.

(** [ not any([translations, type_translations, ...]) ] *)
Definition no_dictionaries (d : dictionaries) : bool :=
  match translations d, type_translations d, move_translations d,
        ability_translations d, item_translations d with
  | [], [], [], [], [] => true
  | _, _, _, _, _ => false
  end.

(** ** The pattern [\(([^)]+)\)] *)

(** The longest prefix of [s] free of [c], and what follows it. *)
Fixpoint span_until (c : ascii) (s : string) : string * string :=
  match s with
  | EmptyString => (EmptyString, EmptyString)
  | String a s' =>
      if Ascii.eqb a c then (EmptyString, s)
      else let '(p, r) := span_until c s' in (String a p, r)
  end.

(** A match of the pattern at the head of [s]: group 1. *)
Definition parens_match_at (s : string) : option string :=
  match s with
  | String "(" s' =>
      match span_until ")" s' with
      | (String c g, String _ _) => Some (String c g)
      | _ => None
      end
  | _ => None
  end.

(** [ re.search(r'\(([^)]+)\)', s) ], reduced to [group(1)]. *)
Fixpoint parens_search (s : string) : option string :=
  match parens_match_at s with
  | Some g => Some g
  | None =>
      match s with
      | EmptyString => None
      | String _ s' => parens_search s'
      end
  end.

(** [ re.sub(r'\(([^)]+)\)', f, s) ] where [f] maps group 1 to the
    replacement of the whole match; [skip] counts the characters of the
    current match still to be dropped. *)
Fixpoint parens_sub_from (f : string -> string) (skip : nat) (s : string) : string :=
  match s with
  | EmptyString => EmptyString
  | String c s' =>
      match skip with
      | S k => parens_sub_from f k s'
      | O =>
          match parens_match_at s with
          | Some g => f g +:+ parens_sub_from f (S (String.length g)) s'
          | None => String c (parens_sub_from f O s')
          end
      end
  end.

Definition parens_sub (f : string -> string) (s : string) : string :=
  parens_sub_from f O s.

(** ** The contextual resolver *)

Definition description_phrases : list string :=
  ["hello"; "hi "; "thank you"; "would you like"; "do you want";
   "i am"; "i can"; "it is"; "the user"; "the target"; "this move";
   "you have"; "sorry"; "congratulations"; "welcome"].

Definition type_indicators : list string :=
  ["incense"; "plate"; "berry"; "gem"; "type"; "resistance"; "weakness";
   "power"; "boost"; "stone"; "charm"].

Definition move_indicators : list string :=
  ["learns"; "teach"; "tutor"; "tm"; "level up"; "move"; "attack"; "skill"].

Definition ability_indicators : list string :=
  ["ability"; "abilities"; "hidden"; "effect"; "activates"].

(** [ any(x in text for x in xs) ] *)
Definition any_in (xs : list string) (text : string) : bool :=
  existsb (fun x => Py.contains x text) xs.

Definition is_description (context_text : string) : bool :=
  (50 <? String.length context_text)%nat
  || any_in description_phrases (Py.lower context_text).

(** The parenthesis rule of the resolver: the translation it returns, when
    it returns. *)
Definition parentheses_type (d : dictionaries) (english_term context_text : string)
  : option string :=
  if Py.contains "(" context_text && Py.contains ")" context_text then
    match parens_search context_text with
    | Some g =>
        if String.eqb english_term g then dict_get (type_translations d) english_term
        else None
    | None => None
    end
  else None.

(** [get_contextual_translation]; [None] is Python's [None]. *)
Definition get_contextual_translation
    (d : dictionaries) (english_term context_text : string) : option string :=
  let context_lower := Py.lower context_text in
  if is_description context_text && (length (Py.split english_term) =? 1)%nat
  then None
  else
  match parentheses_type d english_term context_text with
  | Some t => Some t
  | None =>
  if dict_mem (item_translations d) english_term
  then dict_get (item_translations d) english_term
  else if dict_mem (move_translations d) english_term
  then dict_get (move_translations d) english_term
  else if dict_mem (ability_translations d) english_term
  then dict_get (ability_translations d) english_term
  else if any_in type_indicators context_lower
          && dict_mem (type_translations d) english_term
  then dict_get (type_translations d) english_term
  else if negb (is_description context_text)
          && any_in move_indicators context_lower
          && dict_mem (move_translations d) english_term
  then dict_get (move_translations d) english_term
  else if any_in ability_indicators context_lower
          && dict_mem (ability_translations d) english_term
  then dict_get (ability_translations d) english_term
  else if (length (Py.split context_text) <=? 3)%nat
          || String.eqb english_term context_text
  then dict_get (translations d) english_term
  else None
  end.

(** ** The term index and the compiled term patterns *)

(** [all_terms], a Python [set]. *)
Definition all_terms (d : dictionaries) : gset string :=
  list_to_set (dict_keys (translations d))
  ∪ list_to_set (dict_keys (type_translations d))
  ∪ list_to_set (dict_keys (move_translations d))
  ∪ list_to_set (dict_keys (ability_translations d))
  ∪ list_to_set (dict_keys (item_translations d)).

(** Iterating over a [set] of strings visits each element once, in an
    order fixed by the hash table, about which nothing else is known. *)
Class SetOrder := {
  set_iter : gset string -> list string;
  set_iter_perm : forall X, set_iter X ≡ₚ elements X
}.

(** [sorted(_, key=len, reverse=True)] is a stable sort: an element goes
    after the longer ones and before those that are not. *)
Fixpoint insert_by_len (t : string) (l : list string) : list string :=
  match l with
  | [] => [t]
  | u :: l' =>
      if (String.length t <? String.length u)%nat then u :: insert_by_len t l'
      else t :: l
  end.

Definition sort_by_len_desc (l : list string) : list string :=
  foldr insert_by_len [] l.

Definition sorted_terms `{SetOrder} (d : dictionaries) : list string :=
  sort_by_len_desc (set_iter (all_terms d)).

(** A compiled pattern [\b<term>\b]: the literal, which of the two
    boundary assertions it carries, and the [re.IGNORECASE] flag. *)
Record term_pattern := {
  tp_term : string;
  tp_left : bool;
  tp_right : bool;
  tp_ignorecase : bool
}.

Definition head_char (s : string) : option ascii :=
  match s with
  | EmptyString => None
  | String c _ => Some c
  end.

Fixpoint last_char (s : string) : option ascii :=
  match s with
  | EmptyString => None
  | String c EmptyString => Some c
  | String _ s' => last_char s'
  end.

(** [ c in '.!?,:;' ] *)
Definition is_punctuation (c : ascii) : bool :=
  existsb (Ascii.eqb c) ["."; "!"; "?"; ","; ":"; ";"]%char.

(** One iteration of the loop that fills [compiled_patterns];
    [english_term[-1]] raises on the empty string. *)
Definition compile_pattern (english_term : string) : outcome (term_pattern * string) :=
  match last_char english_term, head_char english_term with
  | Some l, Some h =>
      if is_punctuation l then
        Ok ({| tp_term := english_term; tp_left := true; tp_right := false;
               tp_ignorecase := true |}, english_term)
      else if is_punctuation h then
        Ok ({| tp_term := english_term; tp_left := false; tp_right := true;
               tp_ignorecase := true |}, english_term)
      else
        Ok ({| tp_term := english_term; tp_left := true; tp_right := true;
               tp_ignorecase := true |}, english_term)
  | _, _ => Raise IndexError
  end.

Fixpoint compile_patterns (terms : list string)
  : outcome (list (term_pattern * string)) :=
  match terms with
  | [] => Ok []
  | t :: terms' =>
      match compile_pattern t with
      | Ok p =>
          match compile_patterns terms' with
          | Ok ps => Ok (p :: ps)
          | Raise e => Raise e
          end
      | Raise e => Raise e
      end
  end.

(** *** Matching a term pattern *)

Definition char_eqb (ignorecase : bool) (a b : ascii) : bool :=
  if ignorecase then Ascii.eqb (Py.lower_char a) (Py.lower_char b)
  else Ascii.eqb a b.

(** The literal at the head of [s]: what follows it. *)
Fixpoint literal_at (ignorecase : bool) (term s : string) {struct term}
  : option string :=
  match term with
  | EmptyString => Some s
  | String t term' =>
      match s with
      | String c s' =>
          if char_eqb ignorecase t c then literal_at ignorecase term' s' else None
      | EmptyString => None
      end
  end.

Definition is_word (c : option ascii) : bool :=
  match c with
  | Some c => Py.isword c
  | None => false
  end.

(** [\b] between two neighbouring characters ([None] past either end). *)
Definition boundary (before after : option ascii) : bool :=
  xorb (is_word before) (is_word after).

(** The pattern matches at the head of [s], [prev] being the character
    before it.  The term is not empty. *)
Definition pattern_at (p : term_pattern) (prev : option ascii) (s : string) : bool :=
  match literal_at (tp_ignorecase p) (tp_term p) s with
  | Some rest =>
      (negb (tp_left p) || boundary prev (head_char s))
      && (negb (tp_right p)
          || boundary (last_char (Py.slice_to (String.length (tp_term p)) s))
                      (head_char rest))
  | None => false
  end.

(** [pattern.search(s)], as a truth value. *)
Fixpoint pattern_search_from (p : term_pattern) (prev : option ascii) (s : string) : bool :=
  pattern_at p prev s ||
  match s with
  | EmptyString => false
  | String c s' => pattern_search_from p (Some c) s'
  end.

Definition pattern_search (p : term_pattern) (s : string) : bool :=
  pattern_search_from p None s.

(** [pattern.sub(repl, s)] once [repl] is expanded: every match, left to
    right and without overlap, becomes [repl]. *)
Fixpoint pattern_sub_from (p : term_pattern) (repl : string)
    (skip : nat) (prev : option ascii) (s : string) : string :=
  match s with
  | EmptyString => EmptyString
  | String c s' =>
      match skip with
      | S k => pattern_sub_from p repl k (Some c) s'
      | O =>
          if pattern_at p prev s
          then repl +:+ pattern_sub_from p repl (String.length (tp_term p) - 1) (Some c) s'
          else String c (pattern_sub_from p repl O (Some c) s')
      end
  end.

(** A replacement string is a template in which backslash escapes are
    processed; without a backslash it stands for itself. *)
Definition expand_repl (repl : string) : outcome string :=
  if Py.contains "\" repl
  then Raise (Unmodelled "backslash in a replacement template")
  else Ok repl.

Definition pattern_sub (p : term_pattern) (repl : string) (s : string) : outcome string :=
  match expand_repl repl with
  | Ok r => Ok (pattern_sub_from p r O None s)
  | Raise e => Raise e
  end.

(** ** [str.format] with keyword arguments

    [template.format] on the template variables, passed as keyword
    arguments, as the library runs it.  The
    template is read from the left: literal text is copied, a doubled
    brace standing for one, and each replacement field is cut out, the
    object of its first name fetched among the keyword arguments, its
    accessors and its conversion applied, its format specification
    expanded (it may hold replacement fields of its own, one level deep)
    and the object rendered.  The first exception ends the call.  The
    keyword arguments are all strings and there is no positional
    argument. *)

Inductive format_result :=
  | Formatted (s : string)
  (* the [KeyError] the cascade catches, with its key *)
  | FormatKeyError (name : string)
  | FormatRaise (e : exn).

Definition format_cons (piece : string) (r : format_result) : format_result :=
  match r with
  | Formatted s => Formatted (piece +:+ s)
  | other => other
  end.

(** What the library may raise while it works on the object of a field. *)
Inductive raised :=
  | RaisedKeyError (key : string)
  | RaisedOther (e : exn).

Definition raise_result (r : raised) : format_result :=
  match r with
  | RaisedKeyError key => FormatKeyError key
  | RaisedOther e => FormatRaise e
  end.

(** The part of the library that is an interface of the model: what
    attribute and index accessors, conversions and non-empty format
    specifications make of a string, and the largest index of the build.
    A field that is only a name is formatted by the model itself. *)
Class FormatLib := {
  (* [PY_SSIZE_T_MAX] *)
  ssize_t_max : Z;
  (* [getattr] and [getitem] along the accessors of a field, from the
     string that its first name stands for, then the conversion: what
     this raises, if anything *)
  field_access : string -> string -> option ascii -> option raised;
  (* [format(obj, format_spec)] for the object so obtained *)
  field_render : string -> string -> option ascii -> string -> format_result
}.

(** A replacement field as the parser cuts it, from after its opening
    brace. *)
Record field := {
  f_name : string;                 (* up to the [!], the [:] or the closing brace *)
  f_conversion : option ascii;
  f_spec : string;
  f_width : nat                    (* characters up to and with the closing brace *)
}.

Definition prepend_name (c : ascii) (r : option (string * ascii * string))
  : option (string * ascii * string) :=
  match r with
  | Some (name, stop, rest) => Some (String c name, stop, rest)
  | None => None
  end.

(** The field name, the character that ends it and what follows that
    character.  An opening brace is an error; after an opening bracket
    every character up to the closing bracket belongs to the name; the
    end of the template before the name ends is an error. *)
Fixpoint parse_name (in_index : bool) (s : string) : option (string * ascii * string) :=
  match s with
  | EmptyString => None
  | String c s' =>
      if in_index then prepend_name c (parse_name (negb (Ascii.eqb c "]")) s')
      else if Ascii.eqb c "{" then None
      else if Ascii.eqb c "[" then prepend_name c (parse_name true s')
      else if Ascii.eqb c "}" || Ascii.eqb c ":" || Ascii.eqb c "!"
      then Some (EmptyString, c, s')
      else prepend_name c (parse_name false s')
  end.

Definition prepend_spec (c : ascii) (r : option (string * string))
  : option (string * string) :=
  match r with
  | Some (spec, rest) => Some (String c spec, rest)
  | None => None
  end.

(** The format specification, up to the brace that closes the field:
    braces opened inside it are counted and closed first. *)
Fixpoint parse_spec (opened : nat) (s : string) : option (string * string) :=
  match s with
  | EmptyString => None
  | String c s' =>
      if Ascii.eqb c "{" then prepend_spec c (parse_spec (S opened) s')
      else if Ascii.eqb c "}" then
        match opened with
        | O => Some (EmptyString, s')
        | S n => prepend_spec c (parse_spec n s')
        end
      else prepend_spec c (parse_spec opened s')
  end.

(** [parse_field]; [None] is its [ValueError]. *)
Definition parse_field (s : string) : option field :=
  match parse_name false s with
  | None => None
  | Some (name, stop, rest) =>
      if Ascii.eqb stop "}" then
        Some {| f_name := name; f_conversion := None; f_spec := EmptyString;
                f_width := S (String.length name) |}
      else if Ascii.eqb stop ":" then
        match parse_spec O rest with
        | Some (spec, _) =>
            Some {| f_name := name; f_conversion := None; f_spec := spec;
                    f_width := String.length name + 1 + String.length spec + 1 |}
        | None => None
        end
      else
        match rest with
        | EmptyString => None
        | String conversion rest1 =>
            match rest1 with
            | EmptyString => None
            | String c rest2 =>
                if Ascii.eqb c "}" then
                  Some {| f_name := name; f_conversion := Some conversion;
                          f_spec := EmptyString;
                          f_width := String.length name + 3 |}
                else if Ascii.eqb c ":" then
                  match parse_spec O rest2 with
                  | Some (spec, _) =>
                      Some {| f_name := name; f_conversion := Some conversion;
                              f_spec := spec;
                              f_width := String.length name + 3
                                         + String.length spec + 1 |}
                  | None => None
                  end
                else None
            end
        end
  end.

(** The first name of a field, up to its first dot or bracket, and the
    accessors that follow. *)
Fixpoint split_first (name : string) : string * string :=
  match name with
  | EmptyString => (EmptyString, EmptyString)
  | String c name' =>
      if Ascii.eqb c "." || Ascii.eqb c "[" then (EmptyString, name)
      else let '(first, accessors) := split_first name' in (String c first, accessors)
  end.

Inductive first_kind :=
  | Keyword                        (* a key of the keyword arguments *)
  | Positional                     (* an index, written or automatic *)
  | TooManyDigits.                 (* [ValueError] *)

(** [get_integer] on the first name: the digits are added up from the
    left, and the sum going over [max] is an error even when a character
    that is no digit follows. *)
Fixpoint get_integer (max accumulator : Z) (s : string) : first_kind :=
  match s with
  | EmptyString => Positional
  | String c s' =>
      if Py.isdecimal c then
        let digitval := Z.of_N (Py.ord c) - 48 in
        if (max - digitval) / 10 <? accumulator then TooManyDigits
        else get_integer max (accumulator * 10 + digitval) s'
      else Keyword
  end.

(** A field that is only a name: no accessor and no conversion. *)
Definition only_name (accessors : string) (conversion : option ascii) : bool :=
  match accessors, conversion with
  | EmptyString, None => true
  | _, _ => false
  end.

(** [output_markup]: the text of one field.  [expand] formats the
    fields of the format specification. *)
Definition output_markup `{FormatLib} (vars : pydict string)
    (expand : string -> format_result) (fld : field) : format_result :=
  let '(first, accessors) := split_first (f_name fld) in
  match get_integer ssize_t_max 0 first with
  | TooManyDigits => FormatRaise ValueError
  | Positional => FormatRaise IndexError
  | Keyword =>
      match dict_get vars first with
      | None => FormatKeyError first
      | Some value =>
          let plain := only_name accessors (f_conversion fld) in
          match (if plain then None
                 else field_access value accessors (f_conversion fld)) with
          | Some r => raise_result r
          | None =>
              match (if Py.contains "{" (f_spec fld) then expand (f_spec fld)
                     else Formatted (f_spec fld)) with
              | Formatted format_spec =>
                  if plain && negb (Py.truthy format_spec) then Formatted value
                  else field_render value accessors (f_conversion fld) format_spec
              | other => other
              end
          end
      end
  end.

(** The template from the left; [skip] counts the characters of the
    current field still to be dropped. *)
Fixpoint format_from `{FormatLib} (vars : pydict string)
    (expand : string -> format_result) (skip : nat) (s : string) : format_result :=
  match s with
  | EmptyString => Formatted EmptyString
  | String c s' =>
      match skip with
      | S k => format_from vars expand k s'
      | O =>
          if Ascii.eqb c "{" then
            match s' with
            | String "{" _ => format_cons "{" (format_from vars expand 1 s')
            | _ =>
                match parse_field s' with
                | None => FormatRaise ValueError
                | Some fld =>
                    match output_markup vars expand fld with
                    | Formatted v =>
                        format_cons v (format_from vars expand (f_width fld) s')
                    | other => other
                    end
                end
            end
          else if Ascii.eqb c "}" then
            match s' with
            | String "}" _ => format_cons "}" (format_from vars expand 1 s')
            | _ => FormatRaise ValueError
            end
          else format_cons (String c EmptyString) (format_from vars expand O s')
      end
  end.

(** [build_string]: at depth zero the recursion limit is reached. *)
Fixpoint build_string `{FormatLib} (vars : pydict string) (recursion_depth : nat)
    (s : string) : format_result :=
  match recursion_depth with
  | O => FormatRaise ValueError
  | S depth => format_from vars (build_string vars depth) O s
  end.

(** [template.format] applied to the variables as keyword arguments. *)
Definition format `{FormatLib} (template : string) (vars : pydict string)
  : format_result :=
  build_string vars 2 template.

(** ** The regular-expression engine for the registry's own patterns

    The transform step hands patterns written in the special-cases file
    to [re.search]; the engine is an interface of the model. *)

Record re_match := {
  rm_group0 : string;                 (* [group(0)] *)
  rm_groups : list (option string)    (* [groups()]; [None] did not take part *)
}.

Class ReEngine := {
  (* [re.search(pattern, text)]; an invalid pattern raises *)
  re_search : string -> string -> outcome (option re_match)
}.

(** ** Records of the document

    [string_pattern] with [re.DOTALL]: an opening tag [<string], white
    space, the [id] attribute between double quotes, whatever precedes the
    next [>]; then the shortest text that a closing [</string>] follows. *)

Definition dquote : ascii := "034"%char.

Record record_match := {
  opening_tag : string;               (* [group(1)] *)
  string_id : string;                 (* [group(2)] *)
  text : string;                      (* [group(3)] *)
  closing_tag : string                (* [group(4)] *)
}.

(** [match.group(0)] *)
Definition group0 (m : record_match) : string :=
  opening_tag m +:+ text m +:+ closing_tag m.

(** The longest prefix of [s] whose characters satisfy [p], and the rest. *)
Fixpoint span (p : ascii -> bool) (s : string) : string * string :=
  match s with
  | EmptyString => (EmptyString, EmptyString)
  | String c s' =>
      if p c then let '(a, r) := span p s' in (String c a, r)
      else (EmptyString, s)
  end.

(** [s] without the literal prefix [lit]. *)
Fixpoint after_literal (lit s : string) {struct lit} : option string :=
  match lit with
  | EmptyString => Some s
  | String l lit' =>
      match s with
      | String c s' => if Ascii.eqb l c then after_literal lit' s' else None
      | EmptyString => None
      end
  end.

(** What precedes the first occurrence of [sub] in [s]. *)
Fixpoint before_first (sub s : string) : option string :=
  if Py.startswith s sub then Some EmptyString
  else match s with
       | EmptyString => None
       | String c s' => String c <$> before_first sub s'
       end.

(** A match of the record pattern at the head of [s]. *)
Definition record_at (s : string) : option record_match :=
  match after_literal "<string" s with
  | None => None
  | Some s1 =>
      match span Py.isspace s1 with
      | (EmptyString, _) => None
      | (spaces, s2) =>
          match after_literal ("id=" +:+ String dquote EmptyString) s2 with
          | None => None
          | Some s3 =>
              match span (fun c => negb (Ascii.eqb c dquote)) s3 with
              | (EmptyString, _) => None
              | (id, String _ s4) =>
                  match span (fun c => negb (Ascii.eqb c ">")) s4 with
                  | (attrs, String _ s5) =>
                      match before_first "</string>" s5 with
                      | Some body =>
                          Some {| opening_tag :=
                                    "<string" +:+ spaces +:+ "id=" +:+ String dquote id
                                    +:+ String dquote attrs +:+ ">";
                                  string_id := id;
                                  text := body;
                                  closing_tag := "</string>" |}
                      | None => None
                      end
                  | _ => None
                  end
              | _ => None
              end
          end
      end
  end.

(** ** The per-record cascade *)

(** The counters of [process_single_file] that [replace_content] updates,
    and the log. *)
Record run_state := {
  current : Z;
  translated_count : Z;
  not_translated_count : Z;
  special_cases_applied : Z;
  run_log : log
}.

Definition initial_state (lg : log) : run_state :=
  {| current := 0; translated_count := 0; not_translated_count := 0;
     special_cases_applied := 0; run_log := lg |}.

Definition tick_current (st : run_state) : run_state :=
  {| current := current st + 1;
     translated_count := translated_count st;
     not_translated_count := not_translated_count st;
     special_cases_applied := special_cases_applied st;
     run_log := run_log st |}.

Definition tick_translated (st : run_state) : run_state :=
  {| current := current st;
     translated_count := translated_count st + 1;
     not_translated_count := not_translated_count st;
     special_cases_applied := special_cases_applied st;
     run_log := run_log st |}.

Definition tick_not_translated (st : run_state) : run_state :=
  {| current := current st;
     translated_count := translated_count st;
     not_translated_count := not_translated_count st + 1;
     special_cases_applied := special_cases_applied st;
     run_log := run_log st |}.

Definition tick_special (st : run_state) : run_state :=
  {| current := current st;
     translated_count := translated_count st;
     not_translated_count := not_translated_count st;
     special_cases_applied := special_cases_applied st + 1;
     run_log := run_log st |}.

Definition say (ev : log_event) (st : run_state) : run_state :=
  {| current := current st;
     translated_count := translated_count st;
     not_translated_count := not_translated_count st;
     special_cases_applied := special_cases_applied st;
     run_log := run_log st ++ [ev] |}.

(** What the closure [replace_content] captures. *)
Record environment := {
  env_registry : registry;
  env_dicts : dictionaries;
  compiled_patterns : list (term_pattern * string)
}.

(** [ f"{opening_tag}{body}{closing_tag}" ] *)
Definition rebuild (m : record_match) (body : string) : string :=
  opening_tag m +:+ body +:+ closing_tag m.

(** *** Default path *)

(** The loop over [compiled_patterns]. *)
Fixpoint partial_substitution (d : dictionaries) (original_text : string)
    (patterns : list (term_pattern * string)) (working_text : string)
  : outcome string :=
  match patterns with
  | [] => Ok working_text
  | (compiled_pattern, english_term) :: patterns' =>
      if pattern_search compiled_pattern working_text then
        match get_contextual_translation d english_term original_text with
        | Some context_translation =>
            if Py.truthy context_translation then
              match pattern_sub compiled_pattern context_translation working_text with
              | Ok working_text' =>
                  partial_substitution d original_text patterns' working_text'
              | Raise e => Raise e
              end
            else partial_substitution d original_text patterns' working_text
        | None => partial_substitution d original_text patterns' working_text
        end
      else partial_substitution d original_text patterns' working_text
  end.

(** [translate_parentheses_content], on group 1. *)
Definition translate_parentheses_content (d : dictionaries) (content : string) : string :=
  match dict_get (type_translations d) content with
  | Some t => "(" +:+ t +:+ ")"
  | None => "(" +:+ content +:+ ")"
  end.

(** The value of [translated_text] before the parenthesis pass. *)
Definition default_translation (env : environment) (original_text : string)
  : outcome (option string) :=
  match get_contextual_translation (env_dicts env) original_text original_text with
  | Some (String c t) => Ok (Some (String c t))
  | _ =>
      match partial_substitution (env_dicts env) original_text
              (compiled_patterns env) original_text with
      | Ok working_text =>
          if String.eqb working_text original_text then Ok None
          else Ok (Some working_text)
      | Raise e => Raise e
      end
  end.

Definition parentheses_pass (d : dictionaries) (translated_text : option string)
  : option string :=
  match translated_text with
  | Some t =>
      if Py.truthy t && Py.contains "(" t && Py.contains ")" t
      then Some (parens_sub (translate_parentheses_content d) t)
      else Some t
  | None => None
  end.

(** "Normal translation logic": the end of [replace_content]. *)
Definition replace_default (env : environment) (m : record_match)
    (original_text : string) (st : run_state) : outcome (string * run_state) :=
  match default_translation env original_text with
  | Raise e => Raise e
  | Ok translated_text =>
      match parentheses_pass (env_dicts env) translated_text with
      | Some (String c t) =>
          Ok (rebuild m (String c t),
              say (LogTranslated original_text (String c t)) (tick_translated st))
      | _ =>
          Ok (group0 m, say (LogNotTranslated original_text) (tick_not_translated st))
      end
  end.

(** *** Legacy special cases *)

(** The loop over [temp_translations.items()]; the pattern of a term is
    [\b<term>\b], case-sensitive. *)
Fixpoint apply_temp_translations (temp_translations : pydict string)
    (working_text : string) : outcome string :=
  match temp_translations with
  | [] => Ok working_text
  | (english_term, temp_translation) :: rest =>
      match english_term with
      | EmptyString => Raise (Unmodelled "empty term in a record-scoped translation")
      | _ =>
          let pattern_temp :=
            {| tp_term := english_term; tp_left := true; tp_right := true;
               tp_ignorecase := false |} in
          if pattern_search pattern_temp working_text then
            match pattern_sub pattern_temp temp_translation working_text with
            | Ok working_text' => apply_temp_translations rest working_text'
            | Raise e => Raise e
            end
          else apply_temp_translations rest working_text
      end
  end.

Definition default_to (default : string) (o : option string) : string :=
  match o with
  | Some s => s
  | None => default
  end.

(** "Check special cases", then the default path. *)
Definition replace_legacy (env : environment) (m : record_match)
    (original_text : string) (st : run_state) : outcome (string * run_state) :=
  match special_cases (env_registry env) !! string_id m with
  | None => replace_default env m original_text st
  | Some case =>
      if decide (lc_type case = Some "no_translation") then
        Ok (group0 m,
            say (LogSkip (string_id m) (default_to "Special case" (lc_reason case)))
              (tick_special (tick_not_translated st)))
      else if decide (lc_type case = Some "add_translation") then
        match lc_translations case with
        | [] => replace_default env m original_text st
        | temp_translations =>
            let st := tick_special st in
            match apply_temp_translations temp_translations original_text with
            | Raise e => Raise e
            | Ok working_text =>
                if String.eqb working_text original_text
                then replace_default env m original_text st
                else
                  Ok (rebuild m working_text,
                      say (LogAddTrans (string_id m)
                             (default_to "Added translation" (lc_reason case))
                             original_text working_text)
                        (tick_translated st))
            end
        end
      else replace_default env m original_text st
  end.

(** *** Global transform *)

(** The variables [group1], [group2], ... for the groups numbered from
    [i]; a group that is [None] or empty gives the empty string. *)
Fixpoint add_groups (vars : pydict string) (i : Z) (groups : list (option string))
  : pydict string :=
  match groups with
  | [] => vars
  | g :: groups' =>
      add_groups (dict_set vars ("group" +:+ Py.str i) (default_to EmptyString g))
        (i + 1) groups'
  end.

(** [main_term]; a first group that took no part in the match is [None]
    in Python and is not modelled further. *)
Definition main_term_of (rm : re_match) (original_text : string) : outcome string :=
  match rm_groups rm with
  | [] => Ok original_text
  | Some g :: _ => Ok g
  | None :: _ => Raise (Unmodelled "group 1 did not take part in the match")
  end.

Definition translated_term_of (env : environment) (main_term original_text : string)
  : option string :=
  match dict_get (global_add_translations (env_registry env)) main_term with
  | Some t => Some t
  | None => get_contextual_translation (env_dicts env) main_term original_text
  end.

Definition template_vars_of (env : environment) (rm : re_match)
    (main_term original_text : string) : pydict string :=
  let vars := [("original", original_text); ("match", rm_group0 rm)] in
  let vars := add_groups vars 1 (rm_groups rm) in
  match translated_term_of env main_term original_text with
  | Some (String c t) => dict_set vars "translated" (String c t)
  | _ => dict_set vars "translated" main_term
  end.

(** The loop over the patterns of a transform entry.  [Some] is the
    value [replace_content] returns from inside the loop; [None] means the
    loop ended, by exhaustion or by [break]. *)
Fixpoint transform_patterns `{ReEngine} `{FormatLib} (env : environment) (m : record_match)
    (original_text : string) (patterns : list pattern_config) (st : run_state)
  : outcome (option string * run_state) :=
  match patterns with
  | [] => Ok (None, st)
  | pattern_config :: patterns' =>
      match pc_regex pattern_config, pc_template pattern_config with
      | Some (String r0 r), Some (String t0 t) =>
          let regex_pattern := String r0 r in
          let template := String t0 t in
          match re_search regex_pattern original_text with
          | Raise e => Raise e
          | Ok None => transform_patterns env m original_text patterns' st
          | Ok (Some regex_match) =>
              match main_term_of regex_match original_text with
              | Raise e => Raise e
              | Ok main_term =>
                  let template_vars :=
                    template_vars_of env regex_match main_term original_text in
                  match format template template_vars with
                  | Formatted result =>
                      Ok (Some (rebuild m result),
                          say (LogGlobalTransform (string_id m)
                                 (pc_description pattern_config) original_text result)
                            (tick_translated st))
                  | FormatKeyError name =>
                      Ok (None, say (LogTemplateError (string_id m) name) st)
                  | FormatRaise e => Raise e
                  end
              end
          end
      | _, _ => transform_patterns env m original_text patterns' st
      end
  end.

(** "Check global transform_translation", then the rest of the cascade. *)
Definition replace_transform `{ReEngine} `{FormatLib} (env : environment) (m : record_match)
    (original_text : string) (st : run_state) : outcome (string * run_state) :=
  match global_transform_translations (env_registry env) !! string_id m with
  | None => replace_legacy env m original_text st
  | Some transform_data =>
      match td_patterns transform_data with
      | [] => replace_legacy env m original_text st
      | patterns =>
          match transform_patterns env m original_text patterns (tick_special st) with
          | Raise e => Raise e
          | Ok (Some result, st') => Ok (result, st')
          | Ok (None, st') => replace_legacy env m original_text st'
          end
      end
  end.

(** *** The cascade and [replace_content] *)

(** The cascade proper: what [replace_content] does with a record whose
    stripped text is not empty. *)
Definition cascade `{ReEngine} `{FormatLib} (env : environment) (m : record_match)
    (original_text : string) (st : run_state) : outcome (string * run_state) :=
  match global_override_translations (env_registry env) !! string_id m with
  | Some override_data =>
      let translated_text := od_translation override_data in
      Ok (rebuild m translated_text,
          say (LogGlobalOverride (string_id m) (od_reason override_data)
                 original_text translated_text)
            (tick_special (tick_translated st)))
  | None =>
      if decide (string_id m ∈ global_no_translation_ids (env_registry env)) then
        Ok (group0 m,
            say (LogGlobalNoTranslation (string_id m))
              (tick_special (tick_not_translated st)))
      else replace_transform env m original_text st
  end.

Definition replace_content `{ReEngine} `{FormatLib} (env : environment) (m : record_match)
    (st : run_state) : outcome (string * run_state) :=
  let st := tick_current st in
  let original_text := Py.strip (text m) in
  if negb (Py.truthy original_text) then Ok (group0 m, st)
  else cascade env m original_text st.

(** ** The document pass

    [ re.sub(string_pattern, replace_content, xml_content, flags=re.DOTALL) ]:
    the records are found left to right without overlap, each is replaced
    by what [replace_content] returns, the text between them is kept. *)

Fixpoint document_sub_from
    (f : record_match -> run_state -> outcome (string * run_state))
    (skip : nat) (s : string) (st : run_state) : outcome (string * run_state) :=
  match s with
  | EmptyString => Ok (EmptyString, st)
  | String c s' =>
      match skip with
      | S k => document_sub_from f k s' st
      | O =>
          match record_at s with
          | Some m =>
              match f m st with
              | Raise e => Raise e
              | Ok (replacement, st') =>
                  match document_sub_from f (String.length (group0 m) - 1) s' st' with
                  | Raise e => Raise e
                  | Ok (out, st'') => Ok (replacement +:+ out, st'')
                  end
              end
          | None =>
              match document_sub_from f O s' st with
              | Raise e => Raise e
              | Ok (out, st') => Ok (String c out, st')
              end
          end
      end
  end.

Definition document_sub `{ReEngine} `{FormatLib} (env : environment) (xml_content : string)
    (st : run_state) : outcome (string * run_state) :=
  document_sub_from (replace_content env) O xml_content st.

(** ** The deferred block applicator *)

Definition newline : string := String "010"%char EmptyString.

(** One iteration of the loop over [add_block_data.items()]. *)
Definition apply_add_block (input_file : string)
    (acc : string * run_state) (entry : string * block_info) : string * run_state :=
  let '(xml_content, st) := acc in
  let '(file_path, block_info) := entry in
  let normalized_input := Py.replace_char "\" "/" input_file in
  if String.eqb file_path normalized_input then
    let content_to_add := bi_content block_info in
    if Py.truthy content_to_add then
      match Py.rfind "</" xml_content with
      | Some last_close_tag_pos =>
          (Py.slice_to last_close_tag_pos xml_content +:+ content_to_add
             +:+ newline +:+ Py.slice_from last_close_tag_pos xml_content,
           say (LogBlockAdded file_path (bi_reason block_info)
                  (String.length content_to_add)) st)
      | None => (xml_content, say (LogBlockNoClosingTag file_path) st)
      end
    else acc
  else acc.

Definition apply_add_blocks (input_file : string) (blocks : pydict block_info)
    (xml_content : string) (st : run_state) : string * run_state :=
  foldl (apply_add_block input_file) (xml_content, st) blocks.

(** ** [process_single_file]

    The inputs are what the function reads: the text of the input file,
    the special-cases file ([None] when it does not exist, [Some None]
    when [json.load] fails) and the files of the translations directory.
    The result is the text written to the output file, if any, and the
    final counters and log. *)

Definition load_registry (special_cases_file : option (option special_cases_json))
  : registry * log :=
  match special_cases_file with
  | None => (empty_registry, [])
  | Some None => (empty_registry, [LogSpecialCasesError])
  | Some (Some data) => load_special_cases data []
  end.

Definition build_environment `{SetOrder} (reg : registry) (d : dictionaries)
  : outcome environment :=
  match compile_patterns (sorted_terms d) with
  | Ok patterns =>
      Ok {| env_registry := reg; env_dicts := d; compiled_patterns := patterns |}
  | Raise e => Raise e
  end.

Definition process_single_file `{SetOrder} `{ReEngine} `{FormatLib}
    (input_file xml_content : string)
    (special_cases_file : option (option special_cases_json))
    (translation_files : list (string * option (pydict string)))
  : outcome (option string * run_state) :=
  let '(reg, lg) := load_registry special_cases_file in
  let d := load_dictionaries translation_files (global_add_translations reg) in
  if no_dictionaries d then Ok (None, say LogNoTranslations (initial_state lg))
  else
    match build_environment reg d with
    | Raise e => Raise e
    | Ok env =>
        match document_sub env xml_content (initial_state lg) with
        | Raise e => Raise e
        | Ok (translated, st) =>
            let '(final, st') :=
              apply_add_blocks input_file (add_block_data reg) translated st in
            Ok (Some final, st')
        end
    end.

(** ** Instances used to run the model *)

(** The order in which [elements] lists a set. *)
#[export] Instance elements_order : SetOrder :=
  {| set_iter := elements; set_iter_perm := fun X => reflexivity (elements X) |}.

(** [re.search] for a pattern without metacharacters: the pattern occurs
    in the text or it does not, and there are no groups.  Other patterns
    are outside this engine. *)
Definition is_metachar (c : ascii) : bool :=
  existsb (Ascii.eqb c)
    ["."; "^"; "$"; "*"; "+"; "?"; "{"; "}"; "["; "]"; "\"; "|"; "("; ")"]%char.

Definition literal_search (pattern text : string) : outcome (option re_match) :=
  if Py.all_chars (fun c => negb (is_metachar c)) pattern then
    if Py.contains pattern text
    then Ok (Some {| rm_group0 := pattern; rm_groups := [] |})
    else Ok None
  else Raise (Unmodelled "pattern with metacharacters").

Definition literal_engine : ReEngine := {| re_search := literal_search |}.

(** *** Strings as CPython 3.11 formats them, on a 64-bit build

    The conversions and the format specifications of the library for a
    string; attribute and index accessors are outside this library. *)

Definition hexdigit (n : N) : ascii :=
  ascii_of_N (if (n <? 10)%N then 48 + n else 87 + n).

(** [\xhh] *)
Definition hex_escape (c : ascii) : string :=
  String "\" (String "x" (String (hexdigit (Py.ord c / 16))
                            (String (hexdigit (Py.ord c mod 16)) EmptyString))).

(** [str.isprintable] on one character. *)
Definition isprintable (c : ascii) : bool :=
  negb (Py.in_range 0 31 c || Py.in_range 127 160 c || (Py.ord c =? 173)%N).

Definition repr_char (quote : ascii) (ascii_only : bool) (c : ascii) : string :=
  if Ascii.eqb c quote || Ascii.eqb c "\" then String "\" (String c EmptyString)
  else if Ascii.eqb c "009" then "\t"
  else if Ascii.eqb c "010" then "\n"
  else if Ascii.eqb c "013" then "\r"
  else if negb (isprintable c) || (ascii_only && (128 <=? Py.ord c)%N)
  then hex_escape c
  else String c EmptyString.

Fixpoint repr_body (quote : ascii) (ascii_only : bool) (s : string) : string :=
  match s with
  | EmptyString => String quote EmptyString
  | String c s' => repr_char quote ascii_only c +:+ repr_body quote ascii_only s'
  end.

(** [repr(s)], and [ascii(s)] when [ascii_only]: between double quotes
    when the string has a single quote and no double quote. *)
Definition repr (ascii_only : bool) (s : string) : string :=
  let quote :=
    if Py.contains "'" s && negb (Py.contains (String dquote EmptyString) s)
    then dquote else "'"%char in
  String quote (repr_body quote ascii_only s).

(** The string that a conversion makes of a string; [None] is the
    [ValueError] of an unknown conversion. *)
Definition do_conversion (conversion : option ascii) (value : string) : option string :=
  match conversion with
  | None => Some value
  | Some c =>
      if Ascii.eqb c "s" then Some value
      else if Ascii.eqb c "r" then Some (repr false value)
      else if Ascii.eqb c "a" then Some (repr true value)
      else None
  end.

(** The digits at the head of a format specification: their number, how
    many they are and what follows; [None] when the number goes over
    [max]. *)
Fixpoint spec_integer (max accumulator : Z) (numdigits : nat) (s : string)
  : option (Z * nat * string) :=
  match s with
  | EmptyString => Some (accumulator, numdigits, EmptyString)
  | String c s' =>
      if Py.isdecimal c then
        let digitval := Z.of_N (Py.ord c) - 48 in
        if (max - digitval) / 10 <? accumulator then None
        else spec_integer max (accumulator * 10 + digitval) (S numdigits) s'
      else Some (accumulator, numdigits, s)
  end.

Definition is_alignment_token (c : ascii) : bool :=
  existsb (Ascii.eqb c) ["<"; ">"; "="; "^"]%char.

Definition is_sign_element (c : ascii) : bool :=
  existsb (Ascii.eqb c) [" "; "+"; "-"]%char.

(** What a format specification asks of a string. *)
Record string_spec := {
  fill_char : ascii;
  align : ascii;
  width : option Z;
  precision : option Z
}.

(** [s] without its first character when it is [c]. *)
Definition drop_char (c : ascii) (s : string) : bool * string :=
  match s with
  | String c' s' => if Ascii.eqb c' c then (true, s') else (false, s)
  | EmptyString => (false, s)
  end.

(** The format specification
    [[[fill]align][sign][z][#][0][width][grouping][.precision][type]]
    read for a string; [None] is the [ValueError] of a specification
    that is malformed or asks what a string does not have (a sign, [z],
    [#], the alignment [=], a grouping, a type other than [s]). *)
Definition parse_string_spec (max : Z) (format_spec : string) : option string_spec :=
  let '(fill, alignment, fill_specified, s1) :=
    match format_spec with
    | String f (String a r) =>
        if is_alignment_token a then (f, a, true, r)
        else if is_alignment_token f then (" "%char, f, false, String a r)
        else (" "%char, "<"%char, false, format_spec)
    | String a r =>
        if is_alignment_token a then (" "%char, a, false, r)
        else (" "%char, "<"%char, false, format_spec)
    | EmptyString => (" "%char, "<"%char, false, format_spec)
    end in
  let '(sign, s2) :=
    match s1 with
    | String c r => if is_sign_element c then (true, r) else (false, s1)
    | EmptyString => (false, s1)
    end in
  let '(no_neg_0, s3) := drop_char "z" s2 in
  let '(alternate, s4) := drop_char "#" s3 in
  let '(zero, s5) := if fill_specified then (false, s4) else drop_char "0" s4 in
  match spec_integer max 0 O s5 with
  | None => None
  | Some (w, consumed, s6) =>
      let grouping :=
        match s6 with
        | String c _ => Ascii.eqb c "," || Ascii.eqb c "_"
        | EmptyString => false
        end in
      let '(dot, s7) := drop_char "." s6 in
      match (if dot then spec_integer max 0 O s7 else Some (0, 1%nat, s7)) with
      | None => None
      | Some (p, digits, s8) =>
          let type_ok :=
            match s8 with
            | EmptyString => true
            | String c EmptyString => Ascii.eqb c "s"
            | _ => false
            end in
          if sign || no_neg_0 || alternate || grouping || Ascii.eqb alignment "="
             || Nat.eqb digits 0 || negb type_ok
          then None
          else Some {| fill_char := if zero then "0"%char else fill;
                       align := alignment;
                       width := if Nat.eqb consumed 0 then None else Some w;
                       precision := if dot then Some p else None |}
      end
  end.

Fixpoint repeat_char (c : ascii) (n : nat) : string :=
  match n with
  | O => EmptyString
  | S n' => String c (repeat_char c n')
  end.

(** [format_string_internal]: the string cut to the precision and
    padded to the width. *)
Definition pad_string (spec : string_spec) (value : string) : string :=
  let value :=
    match precision spec with
    | Some p => if p <=? Z.of_nat (String.length value)
                then Py.slice_to (Z.to_nat p) value else value
    | None => value
    end in
  let nchars := Z.of_nat (String.length value) in
  let total :=
    match width spec with
    | Some w => Z.max w nchars
    | None => nchars
    end in
  let lpadding :=
    if Ascii.eqb (align spec) ">" then total - nchars
    else if Ascii.eqb (align spec) "^" then (total - nchars) / 2
    else 0 in
  let rpadding := total - nchars - lpadding in
  repeat_char (fill_char spec) (Z.to_nat lpadding) +:+ value
  +:+ repeat_char (fill_char spec) (Z.to_nat rpadding).

(** A width the model does not try to allocate. *)
Definition widest : Z := 100000.

Definition string_access (value accessors : string) (conversion : option ascii)
  : option raised :=
  match accessors with
  | String _ _ => Some (RaisedOther (Unmodelled "accessor of a field"))
  | EmptyString =>
      match do_conversion conversion value with
      | Some _ => None
      | None => Some (RaisedOther ValueError)
      end
  end.

Definition string_render (max : Z) (value accessors : string)
    (conversion : option ascii) (format_spec : string) : format_result :=
  match accessors with
  | String _ _ => FormatRaise (Unmodelled "accessor of a field")
  | EmptyString =>
      match do_conversion conversion value with
      | None => FormatRaise ValueError
      | Some obj =>
          match format_spec with
          | EmptyString => Formatted obj
          | _ =>
              match parse_string_spec max format_spec with
              | None => FormatRaise ValueError
              | Some spec =>
                  if widest <? default 0 (width spec)
                  then FormatRaise (Unmodelled "field wider than a hundred thousand characters")
                  else Formatted (pad_string spec obj)
              end
          end
      end
  end.

Definition string_fields : FormatLib :=
  {| ssize_t_max := 9223372036854775807;
     field_access := string_access;
     field_render := string_render 9223372036854775807 |}.

(** ** Vocabulary of the statements *)

(** Every character but [x]. *)
Definition not_char (x : ascii) : ascii -> bool := fun c => negb (Ascii.eqb c x).

(** Non-empty strings of decimal digits. *)
Definition decimal (s : string) : Prop :=
  s <> EmptyString /\ Py.all_chars Py.isdecimal s = true.

(** The range id written [<a>-<b>]. *)
Definition range_string (a b : Z) : string := Py.str a +:+ "-" +:+ Py.str b.

(** [after] is [before] with every id of [ids] bound to [v]. *)
Definition overlay {V} (ids : list string) (v : V) (before after : gmap string V) : Prop :=
  forall k, after !! k = if decide (k ∈ ids) then Some v else before !! k.

(** The long context of the resolver's example. *)
Definition long_context : string :=
  "Hello! It is super effective because of Psychic energy and much more descriptive text exceeding fifty characters".

(** The keys of the five dictionaries. *)
Definition dictionary_key (d : dictionaries) (t : string) : Prop :=
  t ∈ dict_keys (translations d) \/ t ∈ dict_keys (type_translations d)
  \/ t ∈ dict_keys (move_translations d) \/ t ∈ dict_keys (ability_translations d)
  \/ t ∈ dict_keys (item_translations d).

(** The terms in the order in which loading first meets them: file after
    file, key after key, then the registry's global additions. *)
Definition discovery_order (files : list (string * option (pydict string)))
    (global_add : pydict string) : list string :=
  remove_dups
    (concat ((fun file : string * option (pydict string) =>
                if endswith file.1 ".json" then
                  match file.2 with
                  | Some data => dict_keys data
                  | None => []
                  end
                else []) <$> files)
     ++ dict_keys global_add).

(** [x] comes before [y] in [l]. *)
Definition precedes (x y : string) (l : list string) : Prop :=
  exists l1 l2 l3, l = l1 ++ x :: l2 ++ y :: l3.

(** Not shorter than the terms that follow. *)
Definition longer_first (x y : string) : Prop :=
  (String.length y <= String.length x)%nat.

(** The terms of [l] that have [n] characters, in the order of [l]. *)
Definition of_length (n : nat) (l : list string) : list string :=
  filter (fun t => String.length t = n) l.

(** ** Concrete inputs of the examples *)

(** The opening tag of a record with the given id and no other attribute. *)
Definition tag_of (id : string) : string :=
  "<string id=" +:+ String dquote (id +:+ String dquote ">").

Definition record_of (id body : string) : record_match :=
  {| opening_tag := tag_of id; string_id := id; text := body;
     closing_tag := "</string>" |}.

(** A registry in which id 5 has an override and is also listed as not to
    be translated. *)
Definition greeting_registry : registry :=
  {| special_cases := ∅;
     global_add_translations := [];
     global_no_translation_ids := {["5"]};
     global_override_translations :=
       {["5" := {| od_translation := "Ciao"; od_reason := "greeting" |}]};
     global_transform_translations := ∅;
     add_block_data := [] |}.

Definition greeting_env : environment :=
  {| env_registry := greeting_registry; env_dicts := empty_dictionaries;
     compiled_patterns := [] |}.

(** The scenario of the type dictionary with the single entry Fire. *)
Definition fire_dictionaries : dictionaries :=
  {| translations := []; type_translations := [("Fire", "Fuoco")];
     move_translations := []; ability_translations := [];
     item_translations := [] |}.

Definition fire_text : string := "This move is Fire type.".

Definition fire_record : record_match := record_of "5" fire_text.


(** A transform for id 20 whose template names a variable that is not
    defined, and a generic dictionary that translates the text. *)
Definition broken_template_registry : registry :=
  {| special_cases := ∅;
     global_add_translations := [];
     global_no_translation_ids := ∅;
     global_override_translations := ∅;
     global_transform_translations :=
       {["20" := {| td_patterns :=
                      [{| pc_regex := Some "Fire"; pc_template := Some "{foo}";
                          pc_description := "Transformation" |}];
                    td_reason := EmptyString |}]};
     add_block_data := [] |}.

Definition fire_generic_dictionaries : dictionaries :=
  {| translations := [("Fire", "Fuoco")]; type_translations := [];
     move_translations := []; ability_translations := [];
     item_translations := [] |}.

Definition broken_template_env : environment :=
  {| env_registry := broken_template_registry;
     env_dicts := fire_generic_dictionaries;
     compiled_patterns :=
       [({| tp_term := "Fire"; tp_left := true; tp_right := true;
            tp_ignorecase := true |}, "Fire")] |}.

(** A document with one record, and a block to add to it whose content
    is itself a record that the dictionary could translate. *)
Definition block_document : string :=
  "<resources>" +:+ group0 (record_of "6" "Fire type") +:+ "</resources>".

Definition block_content : string := group0 (record_of "99" "Fire type").

Definition block_special_cases : special_cases_json :=
  {| js_add_translation := None;
     js_add_block :=
       Some [("input/foo.xml",
              {| bi_content := block_content; bi_reason := "Block addition" |})];
     js_override_translation := None;
     js_transform_translation := None;
     js_no_translation := None;
     js_rest := [] |}.

Definition fire_files : list (string * option (pydict string)) :=
  [("type-it.json", Some [("Fire", "Fuoco")])].

Definition block_final : string :=
  "<resources>" +:+ group0 (record_of "6" "Fuoco type") +:+ block_content
  +:+ newline +:+ "</resources>".

(** What the applicator does with the one entry for the document. *)
Definition block_applied (path : string) (info : block_info)
    (translated : string) (st0 : run_state) (final : string) (st' : run_state)
  : Prop :=
  match Py.rfind "</" translated with
  | Some pos =>
      final = Py.slice_to pos translated +:+ bi_content info +:+ newline
              +:+ Py.slice_from pos translated
      /\ Py.startswith (Py.slice_from pos translated) "</" = true
      /\ (forall q, (pos < q)%nat ->
            Py.startswith (Py.slice_from q translated) "</" = false)
      /\ st' = say (LogBlockAdded path (bi_reason info)
                      (String.length (bi_content info))) st0
  | None =>
      final = translated
      /\ (forall q, Py.startswith (Py.slice_from q translated) "</" = false)
      /\ st' = say (LogBlockNoClosingTag path) st0
  end.


(** The text [r] does not begin with a character that [p] accepts. *)
Definition stops (p : ascii -> bool) (r : string) : Prop :=
  match r with
  | EmptyString => True
  | String c _ => p c = false
  end.

(** * Further vocabulary *)

(** The ids an entry of the special-cases file stands for: the ids of its
    range, none when the range does not parse, itself otherwise. *)
Definition entry_ids (id_item : string) : list string :=
  if looks_like_range id_item then
    match parse_range id_item with
    | Some (start_id, end_id) => range_ids start_id end_id
    | None => []
    end
  else [id_item].

Definition override_payload (e : override_entry) : override_data :=
  {| od_translation := oe_translation e; od_reason := oe_reason e |}.

Definition transform_payload (e : transform_entry) : transform_data :=
  {| td_patterns := te_patterns e; td_reason := te_reason e |}.

(** The payload of the last entry of [es] that stands for the id [k]. *)
Definition last_for {E V} (id_of : E -> string) (payload : E -> V)
    (k : string) (es : list E) : option V :=
  foldl (fun acc e => if decide (k ∈ entry_ids (id_of e)) then Some (payload e) else acc)
    None es.

(** A character of a numeric range: a digit, a dash or a dot. *)
Definition range_char (c : ascii) : bool :=
  Py.isdigit_char c || Ascii.eqb c "-" || Ascii.eqb c ".".

(** The parsed contents of the files that [sel] picks among the JSON
    files of the translations directory, in the order of the directory. *)
Definition files_with (sel : string -> bool)
    (files : list (string * option (pydict string))) : list (pydict string) :=
  omap (fun file : string * option (pydict string) =>
          if endswith file.1 ".json" && sel file.1 then file.2 else None) files.

Definition is_type_file (filename : string) : bool := Py.startswith filename "type-".
Definition is_move_file (filename : string) : bool := Py.startswith filename "move-".
Definition is_ability_file (filename : string) : bool := Py.startswith filename "ability-".
Definition is_item_file (filename : string) : bool := Py.startswith filename "item-".
Definition is_generic_file (filename : string) : bool :=
  negb (is_type_file filename || is_move_file filename
        || is_ability_file filename || is_item_file filename).

(** The dictionary a file of that name is merged into. *)
Definition category_dict (filename : string) (d : dictionaries) : pydict string :=
  if is_type_file filename then type_translations d
  else if is_move_file filename then move_translations d
  else if is_ability_file filename then ability_translations d
  else if is_item_file filename then item_translations d
  else translations d.

(** The dictionary [dict] after one file, when [sel] is the test of its
    category. *)
Definition merged (sel : string -> bool) (file : string * option (pydict string))
    (dict : pydict string) : pydict string :=
  match (if endswith file.1 ".json" && sel file.1 then file.2 else None) with
  | Some data => dict_update dict data
  | None => dict
  end.


(** The term is one word: [len(term.split()) == 1]. *)
Definition single_word (term : string) : Prop := length (Py.split term) = 1%nat.

(** The value stored under [t] in one of the five dictionaries. *)
Definition stored_translation (d : dictionaries) (t v : string) : Prop :=
  dict_get (type_translations d) t = Some v
  \/ dict_get (item_translations d) t = Some v
  \/ dict_get (move_translations d) t = Some v
  \/ dict_get (ability_translations d) t = Some v
  \/ dict_get (translations d) t = Some v.

(** Text without braces, and the name of a plain replacement field. *)
Definition brace_free (s : string) : Prop :=
  Py.all_chars (fun c => negb (Ascii.eqb c "{") && negb (Ascii.eqb c "}")) s = true.

Definition plain_name `{FormatLib} (name : string) : Prop :=
  brace_free name
  /\ existsb (fun c => Py.contains (String c EmptyString) name)
       ["!"; ":"; "."; "["]%char = false
  /\ Py.all_chars Py.isdecimal name = false
  (* the digits it may begin with stay within the largest index *)
  /\ get_integer ssize_t_max 0 name = Keyword.

(** The library itself raised the [KeyError] with the key [name], from
    an accessor, a conversion or a format specification applied to the
    value of a variable that is defined. *)
Definition library_key_error `{FormatLib} (vars : pydict string) (name : string)
  : Prop :=
  exists var value accessors conversion,
    dict_get vars var = Some value
    /\ ((only_name accessors conversion = false
         /\ field_access value accessors conversion = Some (RaisedKeyError name))
        \/ exists format_spec,
             only_name accessors conversion && negb (Py.truthy format_spec) = false
             /\ field_render value accessors conversion format_spec
                = FormatKeyError name).

(** The names [template_vars_of] defines for a match with [n] groups. *)
Definition template_variable (n : nat) (name : string) : Prop :=
  name = "original" \/ name = "match" \/ name = "translated"
  \/ exists j : Z, 1 <= j <= Z.of_nat n /\ name = "group" +:+ Py.str j.




(** The event of a template error. *)
Definition is_template_error (ev : log_event) : bool :=
  match ev with
  | LogTemplateError _ _ => true
  | _ => false
  end.

(** What one record with text adds to the log: the event of the step
    that decides for it, after the event of a template error of its own
    when there was one. *)
Definition record_events (m : record_match) (evs : list log_event) : Prop :=
  exists ev,
    is_template_error ev = false
    /\ (evs = [ev] \/ exists name, evs = [LogTemplateError (string_id m) name; ev]).

(** One record returned as [out] with the state going from [st] to
    [st']: the record is counted once, as translated with some text
    between its tags or as not translated and returned as matched; at
    most [ds] special cases are added, and one event, after a template
    error when [template_error] allows for one. *)
Definition accounted (ds : Z) (template_error : bool) (m : record_match)
    (st st' : run_state) (out : string) : Prop :=
  current st' = current st
  /\ ((translated_count st' = translated_count st + 1
       /\ not_translated_count st' = not_translated_count st
       /\ exists body, out = rebuild m body)
      \/ (translated_count st' = translated_count st
          /\ not_translated_count st' = not_translated_count st + 1
          /\ out = group0 m))
  /\ special_cases_applied st <= special_cases_applied st'
     <= special_cases_applied st + ds
  /\ exists ev,
       is_template_error ev = false
       /\ (run_log st' = run_log st ++ [ev]
           \/ (template_error = true
               /\ exists name,
                    run_log st' = run_log st ++ [LogTemplateError (string_id m) name; ev])).

(** The counters kept between records: none is negative, no record is
    counted twice, and a record applies at most two special cases. *)
Definition counters_consistent (st : run_state) : Prop :=
  0 <= translated_count st /\ 0 <= not_translated_count st
  /\ 0 <= special_cases_applied st
  /\ translated_count st + not_translated_count st <= current st
  /\ special_cases_applied st <= 2 * current st.

(** A special-cases file whose only entry lists the ids 3 to 5 as not to
    be translated. *)
Definition protected_range_data : special_cases_json :=
  {| js_add_translation := None;
     js_add_block := None;
     js_override_translation := None;
     js_transform_translation := None;
     js_no_translation := Some [{| ne_id := "3-5"; ne_comment := EmptyString |}];
     js_rest := [] |}.

(** The registry has nothing for the id. *)
Definition unregistered (reg : registry) (id : string) : Prop :=
  global_override_translations reg !! id = None
  /\ (id ∉ global_no_translation_ids reg)
  /\ global_transform_translations reg !! id = None
  /\ special_cases reg !! id = None.

(** The pattern of a record-scoped term: whole words, case-sensitive. *)
Definition scoped_pattern (english_term : string) : term_pattern :=
  {| tp_term := english_term; tp_left := true; tp_right := true;
     tp_ignorecase := false |}.

(** A registry whose only entry is a legacy case of id 8 with one
    record-scoped translation. *)
Definition scoped_registry : registry :=
  {| special_cases :=
       {["8" := {| lc_type := Some "add_translation"; lc_reason := None;
                   lc_translations := [("Ice", "Ghiaccio")] |}]};
     global_add_translations := [];
     global_no_translation_ids := ∅;
     global_override_translations := ∅;
     global_transform_translations := ∅;
     add_block_data := [] |}.

Definition scoped_env : environment :=
  {| env_registry := scoped_registry;
     env_dicts := fire_generic_dictionaries;
     compiled_patterns :=
       [({| tp_term := "Fire"; tp_left := true; tp_right := true;
            tp_ignorecase := true |}, "Fire")] |}.

(** A transform for id 21 whose template names an undefined variable
    inside the format specification of a field. *)
Definition nested_template_registry : registry :=
  {| special_cases := ∅;
     global_add_translations := [];
     global_no_translation_ids := ∅;
     global_override_translations := ∅;
     global_transform_translations :=
       {["21" := {| td_patterns :=
                      [{| pc_regex := Some "Fire";
                          pc_template := Some "{original:{foo}}";
                          pc_description := "Transformation" |}];
                    td_reason := EmptyString |}]};
     add_block_data := [] |}.

Definition nested_template_env : environment :=
  {| env_registry := nested_template_registry;
     env_dicts := fire_generic_dictionaries;
     compiled_patterns :=
       [({| tp_term := "Fire"; tp_left := true; tp_right := true;
            tp_ignorecase := true |}, "Fire")] |}.

(** An override for id 5 whose translation closes the record and opens
    another. *)
Definition closing_override : string :=
  "A</string>" +:+ tag_of "7" +:+ "Fire".

Definition closing_registry : registry :=
  {| special_cases := ∅;
     global_add_translations := [];
     global_no_translation_ids := ∅;
     global_override_translations :=
       {["5" := {| od_translation := closing_override; od_reason := EmptyString |}]};
     global_transform_translations := ∅;
     add_block_data := [] |}.

Definition closing_env : environment :=
  {| env_registry := closing_registry;
     env_dicts := fire_generic_dictionaries;
     compiled_patterns :=
       [({| tp_term := "Fire"; tp_left := true; tp_right := true;
            tp_ignorecase := true |}, "Fire")] |}.

(** A special-cases file with two overlapping ranges of overrides. *)
Definition first_range_entry : override_entry :=
  {| oe_id := "3-5"; oe_translation := "Uno"; oe_reason := EmptyString |}.

Definition second_range_entry : override_entry :=
  {| oe_id := "4-6"; oe_translation := "Due"; oe_reason := EmptyString |}.

Definition overlapping_ranges_data : special_cases_json :=
  {| js_add_translation := None;
     js_add_block := None;
     js_override_translation := Some [first_range_entry; second_range_entry];
     js_transform_translation := None;
     js_no_translation := None;
     js_rest := [] |}.

(** What loading makes of an entry with the range [<a>-<b>] among the
    entries [es] of a category whose map is [loaded]: every id of the
    range is bound to the payload of the entry unless a later entry
    stands for it too, and then to the payload of the last such entry,
    be it a range as well; an id outside the range that no other entry
    stands for is unbound; when the entry is the only one, the map has
    exactly [b - a + 1] bindings. *)
Definition range_loaded {E V} (id_of : E -> string) (payload : E -> V)
    (a b : Z) (es : list E) (loaded : gmap string V) : Prop :=
  forall es1 e es2,
    es = es1 ++ e :: es2 -> id_of e = range_string a b ->
    (forall i, a <= i <= b ->
       (forall e', e' ∈ es2 -> Py.str i ∉ entry_ids (id_of e')) ->
       loaded !! Py.str i = Some (payload e))
    /\ (forall i a' b' es2a e' es2b,
          a <= i <= b -> 0 <= a' -> a' <= i <= b' ->
          es2 = es2a ++ e' :: es2b -> id_of e' = range_string a' b' ->
          (forall e'', e'' ∈ es2b -> Py.str i ∉ entry_ids (id_of e'')) ->
          loaded !! Py.str i = Some (payload e'))
    /\ (forall k, k ∉ range_ids a b ->
          (forall e', e' ∈ es1 ++ es2 -> k ∉ entry_ids (id_of e')) ->
          loaded !! k = None)
    /\ (es1 = [] -> es2 = [] ->
        dom loaded = list_to_set (range_ids a b)
        /\ Z.of_nat (size loaded) = b - a + 1).

(** The same for the set of the ids that are not to be translated. *)
Definition range_in_set {E} (id_of : E -> string) (a b : Z) (es : list E)
    (loaded : gset string) : Prop :=
  forall es1 e es2,
    es = es1 ++ e :: es2 -> id_of e = range_string a b ->
    (forall i, a <= i <= b -> Py.str i ∈ loaded)
    /\ (forall k, k ∉ range_ids a b ->
          (forall e', e' ∈ es1 ++ es2 -> k ∉ entry_ids (id_of e')) ->
          k ∉ loaded)
    /\ (es1 = [] -> es2 = [] ->
        loaded = list_to_set (range_ids a b)
        /\ Z.of_nat (size loaded) = b - a + 1).

(** A character that may stand in the name of a plain field. *)
Definition field_name_char (c : ascii) : bool :=
  negb (existsb (Ascii.eqb c) ["{"; "}"; "!"; ":"; "."; "["]%char).
(** * Properties *)

(** ** Sanity checks of the string library *)

Example py_split_char : Py.split_char "-" "10-12" = ["10"; "12"].
Proof. reflexivity. Qed.
Example py_split_ws : Py.split "  a bc   d " = ["a"; "bc"; "d"].
Proof. reflexivity. Qed.
Example py_strip : Py.strip "  a b  " = "a b".
Proof. reflexivity. Qed.
Example py_int_ex : Py.int " 007 " = Some 7 /\ Py.int "1.5" = None /\ Py.int EmptyString = None /\ Py.int "1_0" = Some 10.
Proof. vm_compute. auto. Qed.
Example py_str_ex : Py.str (-1) = "-1" /\ Py.str 0 = "0" /\ Py.str 120 = "120".
Proof. vm_compute. auto. Qed.
Example py_rfind_ex : Py.rfind "</" "<a></a></b>x" = Some 7%nat /\ Py.rfind "</" "abc" = None.
Proof. vm_compute. auto. Qed.
Example py_lower_ex : Py.lower "This Move" = "this move".
Proof. reflexivity. Qed.

(** ** Sanity checks of the pattern models *)

Example term_pattern_ex :
  pattern_sub {| tp_term := "Fire"; tp_left := true; tp_right := true;
                 tp_ignorecase := true |} "X"
    "fire Fire firefly, FIRE. _fire fire_ a-fire"
  = Ok "X X firefly, X. _fire fire_ a-X".
Proof. vm_compute. reflexivity. Qed.

Example punctuation_pattern_ex :
  (compile_pattern "Go!", compile_pattern "...and")
  = (Ok ({| tp_term := "Go!"; tp_left := true; tp_right := false;
            tp_ignorecase := true |}, "Go!"),
     Ok ({| tp_term := "...and"; tp_left := false; tp_right := true;
            tp_ignorecase := true |}, "...and"))
  /\ pattern_sub {| tp_term := "Go!"; tp_left := true; tp_right := false;
                    tp_ignorecase := true |} "X" "Go! go!x Go!! ago! a go!"
     = Ok "X Xx X! ago! a X".
Proof. vm_compute. split; reflexivity. Qed.

Example parens_sub_ex :
  parens_sub (fun g => "[" +:+ g +:+ "]") "a (Fire) () (x)(Fire (Fire) ("
  = "a [Fire] () [x][Fire (Fire] (".
Proof. vm_compute. reflexivity. Qed.

Example format_ex :
  let vars := [("original", "Fire"); ("group1", "5"); ("none", EmptyString)] in
  @format string_fields "Liv.{group1} {{x}}" vars = Formatted "Liv.5 {x}"
  /\ @format string_fields "Liv.{foo}" vars = FormatKeyError "foo"
  /\ @format string_fields "Liv.{}" vars = FormatRaise IndexError
  /\ @format string_fields "Liv.{" vars = FormatRaise ValueError
  /\ @format string_fields "{original:{foo}}" vars = FormatKeyError "foo"
  /\ @format string_fields "{original:{none}}" vars = Formatted "Fire"
  /\ @format string_fields "{foo.bar}{" vars = FormatKeyError "foo"
  /\ @format string_fields "{foo!x:{group1}}" vars = FormatKeyError "foo"
  /\ @format string_fields "{a[}]}" vars = FormatKeyError "a"
  /\ @format string_fields "{foo[}" vars = FormatRaise ValueError
  /\ @format string_fields "{original:{foo:{group1}}}" vars = FormatKeyError "foo"
  /\ @format string_fields "{original:{group1:{foo}}}" vars = FormatRaise ValueError
  /\ @format string_fields "{1abc}" vars = FormatKeyError "1abc"
  /\ @format string_fields "{9223372036854775807}" vars = FormatRaise IndexError
  /\ @format string_fields "{9223372036854775808x}" vars = FormatRaise ValueError
  /\ @format string_fields "{original!}" vars = FormatRaise ValueError
  /\ @format string_fields "a}}b{{c" vars = Formatted "a}b{c"
  /\ @format string_fields "{original:{group1}}|" vars = Formatted "Fire |"
  /\ @format string_fields "{original:*^{group1}.3}" vars = Formatted "*Fir*"
  /\ @format string_fields "{original!r:>8}{foo}" vars = FormatKeyError "foo"
  /\ @format string_fields "{original!r:>8}" vars = Formatted "  'Fire'"
  /\ @format string_fields "{original!x:{foo}}" vars = FormatRaise ValueError
  /\ @format string_fields "{original:+5}" vars = FormatRaise ValueError.
Proof. vm_compute. repeat split. Qed.

Example record_at_ex :
  record_at (tag_of "5" +:+ "A</string>B</string>") = Some (record_of "5" "A")
  /\ record_at ("<stringid=" +:+ String dquote ("5" +:+ String dquote ">A</string>"))
     = None.
Proof. vm_compute. split; reflexivity. Qed.

(** ** Strings *)

Lemma append_nil (t : string) : EmptyString +:+ t = t.
Proof. reflexivity. Qed.

Lemma append_cons (c : ascii) (s t : string) : String c s +:+ t = String c (s +:+ t).
Proof. reflexivity. Qed.

Ltac string_ind s :=
  induction s as [|? s ?]; rewrite ?append_nil, ?append_cons; simpl.

Lemma append_empty_r (s : string) : s +:+ EmptyString = s.
Proof. string_ind s; congruence. Qed.

Lemma append_assoc (s t u : string) : (s +:+ t) +:+ u = s +:+ (t +:+ u).
Proof. string_ind s; congruence. Qed.

Lemma length_append (s t : string) :
  String.length (s +:+ t) = (String.length s + String.length t)%nat.
Proof. string_ind s; congruence. Qed.

Lemma all_chars_append p (s t : string) :
  Py.all_chars p (s +:+ t) = Py.all_chars p s && Py.all_chars p t.
Proof.
  string_ind s; [reflexivity |]. rewrite <- andb_assoc. congruence.
Qed.

Lemma all_chars_impl (p q : ascii -> bool) (s : string) :
  (forall c, p c = true -> q c = true) ->
  Py.all_chars p s = true -> Py.all_chars q s = true.
Proof.
  intros Hpq. induction s as [|c s IH]; simpl; [reflexivity |].
  intros [Hc Hs]%andb_true_iff. rewrite (Hpq _ Hc). simpl. auto.
Qed.

(** What a decimal digit is not. *)
Lemma isdecimal_facts (c : ascii) :
  Py.isdecimal c = true ->
  Py.isspace c = false /\ Py.isdigit_char c = true
  /\ Ascii.eqb c "-" = false /\ Ascii.eqb c "." = false
  /\ Ascii.eqb c "_" = false /\ Ascii.eqb c "+" = false.
Proof.
  destruct c as [[] [] [] [] [] [] [] []]; vm_compute; intros H;
    try discriminate H; repeat split.
Qed.

Lemma replace_char_absent (x : ascii) (new s : string) :
  Py.all_chars (not_char x) s = true -> Py.replace_char x new s = s.
Proof.
  induction s as [|c s IH]; simpl; [reflexivity |].
  intros [Hc Hs]%andb_true_iff. unfold not_char in Hc.
  apply negb_true_iff in Hc. rewrite Hc, IH; auto.
Qed.

Lemma replace_char_append (x : ascii) (new s t : string) :
  Py.replace_char x new (s +:+ t) = Py.replace_char x new s +:+ Py.replace_char x new t.
Proof.
  string_ind s; [reflexivity |].
  destruct (Ascii.eqb _ x); rewrite IHs; [now rewrite append_assoc | reflexivity].
Qed.

Lemma split_char_absent (x : ascii) (s : string) :
  Py.all_chars (not_char x) s = true -> Py.split_char x s = [s].
Proof.
  induction s as [|c s IH]; simpl; [reflexivity |].
  intros [Hc Hs]%andb_true_iff. unfold not_char in Hc.
  apply negb_true_iff in Hc. rewrite Hc, IH; auto.
Qed.

Lemma split_char_once (x : ascii) (s t : string) :
  Py.all_chars (not_char x) s = true -> Py.all_chars (not_char x) t = true ->
  Py.split_char x (s +:+ String x t) = [s; t].
Proof.
  intros Hs Ht. string_ind s.
  - rewrite Ascii.eqb_refl, split_char_absent; auto.
  - simpl in Hs. apply andb_true_iff in Hs as [Hc Hs]. unfold not_char in Hc.
    apply negb_true_iff in Hc. rewrite Hc, IHs; auto.
Qed.

Lemma contains_middle (x : ascii) (s t : string) :
  Py.contains (String x EmptyString) (s +:+ String x t) = true.
Proof.
  string_ind s.
  - rewrite Ascii.eqb_refl. reflexivity.
  - rewrite IHs. apply orb_true_r.
Qed.

Lemma lstrip_no_space (s : string) :
  Py.all_chars (fun c => negb (Py.isspace c)) s = true -> Py.lstrip s = s.
Proof.
  destruct s as [|c s]; simpl; [reflexivity |].
  intros [Hc _]%andb_true_iff. apply negb_true_iff in Hc. now rewrite Hc.
Qed.

Lemma rstrip_no_space (s : string) :
  Py.all_chars (fun c => negb (Py.isspace c)) s = true -> Py.rstrip s = s.
Proof.
  induction s as [|c s IH]; simpl; [reflexivity |].
  intros [Hc Hs]%andb_true_iff. apply negb_true_iff in Hc.
  rewrite IH by assumption. rewrite Hc. destruct s; reflexivity.
Qed.

Lemma strip_no_space (s : string) :
  Py.all_chars (fun c => negb (Py.isspace c)) s = true -> Py.strip s = s.
Proof.
  intros H. unfold Py.strip. rewrite lstrip_no_space by assumption.
  now apply rstrip_no_space.
Qed.

(** ** Decimal literals *)

Lemma decimal_no (x : ascii) (s : string) :
  Py.isdecimal x = false -> decimal s -> Py.all_chars (not_char x) s = true.
Proof.
  intros Hx [_ Hs]. revert Hs. apply all_chars_impl. intros c Hc.
  unfold not_char. apply negb_true_iff, Ascii.eqb_neq. intros ->. congruence.
Qed.

Lemma decimal_no_space (s : string) :
  decimal s -> Py.all_chars (fun c => negb (Py.isspace c)) s = true.
Proof.
  intros [_ Hs]. revert Hs. apply all_chars_impl. intros c Hc.
  apply negb_true_iff. now apply isdecimal_facts.
Qed.

Lemma digits_ok_decimal (s : string) :
  Py.all_chars Py.isdecimal s = true -> Py.digits_ok true s = true.
Proof.
  induction s as [|c s IH]; simpl; [reflexivity |].
  intros [Hc Hs]%andb_true_iff. rewrite Hc. auto.
Qed.

Lemma int_unsigned_decimal (s : string) :
  decimal s -> Py.int_unsigned s = Z.of_uint <$> NilZero.uint_of_string s.
Proof.
  intros Hs. unfold Py.int_unsigned.
  rewrite (replace_char_absent "_") by (apply decimal_no; [reflexivity | assumption]).
  destruct Hs as [Hne Hs]. destruct s as [|c s]; [congruence |].
  simpl in Hs |- *. apply andb_true_iff in Hs as [Hc Hs].
  rewrite Hc. now rewrite digits_ok_decimal.
Qed.

Lemma int_decimal (s : string) :
  decimal s -> Py.int s = Z.of_uint <$> NilZero.uint_of_string s.
Proof.
  intros Hs. unfold Py.int. rewrite strip_no_space by now apply decimal_no_space.
  rewrite <- int_unsigned_decimal by assumption.
  destruct Hs as [Hne Hs]. destruct s as [|c s]; [congruence |].
  simpl in Hs. apply andb_true_iff in Hs as [Hc Hs].
  destruct (isdecimal_facts c Hc) as (_ & _ & -> & _ & _ & ->). reflexivity.
Qed.

Lemma string_of_uint_decimal (d : Decimal.uint) :
  Py.all_chars Py.isdecimal (NilEmpty.string_of_uint d) = true.
Proof. induction d; simpl; auto. Qed.

Lemma string_of_uint_nonnil (d : Decimal.uint) :
  d <> Decimal.Nil ->
  NilZero.string_of_uint d = NilEmpty.string_of_uint d
  /\ NilEmpty.string_of_uint d <> EmptyString.
Proof. destruct d; [congruence | split; [reflexivity | discriminate] ..]. Qed.

(** [str] of a non-negative integer is a decimal literal that [int] reads
    back. *)
Lemma str_decimal (z : Z) : 0 <= z -> decimal (Py.str z).
Proof.
  intros Hz. unfold Py.str. destruct z as [|p|p]; [| | lia].
  - split; [discriminate | reflexivity].
  - simpl.
    destruct (string_of_uint_nonnil _ (Unsigned.to_uint_nonnil p)) as [-> Hne].
    split; [assumption | apply string_of_uint_decimal].
Qed.

Lemma int_str (z : Z) : 0 <= z -> Py.int (Py.str z) = Some z.
Proof.
  intros Hz. rewrite int_decimal by now apply str_decimal.
  unfold Py.str. destruct z as [|p|p]; [reflexivity | | lia].
  simpl. rewrite NilZero.usu by apply Unsigned.to_uint_nonnil.
  simpl. unfold Z.of_uint. now rewrite DecimalPos.Unsigned.of_to.
Qed.

Lemma str_inj (z1 z2 : Z) : Py.str z1 = Py.str z2 -> z1 = z2.
Proof.
  unfold Py.str. intros H. apply DecimalZ.to_int_inj.
  assert (Hgood : forall z, Z.to_int z <> Decimal.Pos Decimal.Nil
                         /\ Z.to_int z <> Decimal.Neg Decimal.Nil).
  { intros [|p|p]; simpl; split; try discriminate;
      intros [= E]; now apply (Unsigned.to_uint_nonnil p). }
  apply (f_equal NilZero.int_of_string) in H.
  rewrite !NilZero.isi in H by apply Hgood. congruence.
Qed.

(** ** Range ids *)

Lemma looks_like_range_decimal (sa sb : string) :
  decimal sa -> decimal sb -> looks_like_range (sa +:+ "-" +:+ sb) = true.
Proof.
  intros Ha Hb. unfold looks_like_range.
  change ("-" +:+ sb) with (String "-" sb).
  rewrite (contains_middle "-" sa sb). simpl.
  rewrite replace_char_append.
  change (Py.replace_char "-" EmptyString (String "-" sb))
    with (EmptyString +:+ Py.replace_char "-" EmptyString sb).
  rewrite append_nil.
  rewrite !(replace_char_absent "-") by (apply decimal_no; [reflexivity | assumption]).
  rewrite replace_char_append.
  rewrite !(replace_char_absent ".") by (apply decimal_no; [reflexivity | assumption]).
  destruct Ha as [Hne Ha], Hb as [_ Hb]. unfold Py.isdigit.
  destruct sa as [|c sa]; [congruence |]. rewrite append_cons.
  rewrite <- append_cons, all_chars_append.
  apply andb_true_iff; split;
    [revert Ha | revert Hb]; apply all_chars_impl; intros ? ?; now apply isdecimal_facts.
Qed.

Lemma parse_range_decimal (sa sb : string) :
  decimal sa -> decimal sb ->
  parse_range (sa +:+ "-" +:+ sb) =
    match Py.int sa, Py.int sb with
    | Some a, Some b => Some (a, b)
    | _, _ => None
    end.
Proof.
  intros Ha Hb. unfold parse_range. change ("-" +:+ sb) with (String "-" sb).
  rewrite split_char_once by (apply decimal_no; [reflexivity | assumption]).
  destruct (Py.int sa), (Py.int sb); reflexivity.
Qed.

Lemma range_string_parses (a b : Z) :
  0 <= a -> 0 <= b ->
  looks_like_range (range_string a b) = true
  /\ parse_range (range_string a b) = Some (a, b).
Proof.
  intros Ha Hb. unfold range_string. split.
  - apply looks_like_range_decimal; now apply str_decimal.
  - rewrite parse_range_decimal by now apply str_decimal.
    now rewrite !int_str.
Qed.

Lemma length_range_ids (a b : Z) :
  a <= b -> Z.of_nat (length (range_ids a b)) = b - a + 1.
Proof. intros H. unfold range_ids. rewrite length_fmap, length_seqZ. lia. Qed.

Lemma range_ids_reversed (a b : Z) : b < a -> range_ids a b = [].
Proof. intros H. unfold range_ids. rewrite seqZ_nil by lia. reflexivity. Qed.

Lemma NoDup_range_ids (a b : Z) : NoDup (range_ids a b).
Proof.
  unfold range_ids. apply NoDup_fmap_2; [| apply NoDup_seqZ].
  intros x y. apply str_inj.
Qed.

Lemma elem_of_range_ids (a b : Z) (k : string) :
  k ∈ range_ids a b <-> exists i, a <= i <= b /\ k = Py.str i.
Proof.
  unfold range_ids. rewrite list_elem_of_fmap. split.
  - intros (i & -> & Hi%elem_of_seqZ). exists i. split; [lia | reflexivity].
  - intros (i & Hi & ->). exists i. split; [reflexivity |]. apply elem_of_seqZ. lia.
Qed.

(** ** The loops that fill a category map *)

Lemma foldl_insert_overlay {V} (ids : list string) (v : V) (m : gmap string V) :
  overlay ids v m (foldl (fun m id => <[id := v]> m) m ids).
Proof.
  unfold overlay. revert m. induction ids as [|id ids IH]; intros m k; cbn [foldl].
  - case_decide as Hin; [by apply elem_of_nil in Hin | done].
  - rewrite IH.
    destruct (decide (k ∈ ids)) as [Hin|Hnin].
    + rewrite decide_True by (apply elem_of_cons; tauto). reflexivity.
    + destruct (decide (k = id)) as [->|Hne].
      * rewrite decide_True by (apply elem_of_cons; tauto). apply lookup_insert_eq.
      * rewrite decide_False by (rewrite elem_of_cons; tauto).
        now apply lookup_insert_ne.
Qed.

Lemma foldl_insert_dom {V} (ids : list string) (v : V) (m : gmap string V) :
  dom (foldl (fun m id => <[id := v]> m) m ids) = list_to_set ids ∪ dom m.
Proof.
  revert m. induction ids as [|id ids IH]; intros m; simpl.
  - now rewrite union_empty_l_L.
  - rewrite IH, dom_insert_L.
    rewrite (union_comm_L {[id]} (list_to_set ids)), <- union_assoc_L.
    reflexivity.
Qed.

Lemma foldl_add_elem (ids : list string) (s : gset string) :
  foldl (fun s id => s ∪ {[id]}) s ids = s ∪ list_to_set ids.
Proof.
  revert s. induction ids as [|id ids IH]; intros s; simpl.
  - now rewrite union_empty_r_L.
  - rewrite IH. now rewrite union_assoc_L.
Qed.

Lemma size_foldl_insert_empty {V} (ids : list string) (v : V) :
  NoDup ids ->
  size (foldl (fun m id => <[id := v]> m) (∅ : gmap string V) ids) = length ids.
Proof.
  intros Hnd. rewrite <- size_dom, foldl_insert_dom, dom_empty_L, union_empty_r_L.
  now apply size_list_to_set.
Qed.

(** ** The loaders on an id that parses as a range *)

Section ParsedRange.
Variables (id_item : string) (a b : Z).
Hypothesis Hlooks : looks_like_range id_item = true.
Hypothesis Hparse : parse_range id_item = Some (a, b).

Lemma load_override_entry_range m lg translation reason :
  load_override_entry (m, lg)
    {| oe_id := id_item; oe_translation := translation; oe_reason := reason |} =
  (foldl (fun m id => <[id := {| od_translation := translation;
                                 od_reason := reason |}]> m) m (range_ids a b),
   lg ++ [LogExpandedRange CatOverride id_item (b - a + 1) (reason_info reason)]).
Proof. unfold load_override_entry; cbn [oe_id]. now rewrite Hlooks, Hparse. Qed.

Lemma load_transform_entry_range m lg patterns reason :
  load_transform_entry (m, lg)
    {| te_id := id_item; te_patterns := patterns; te_reason := reason |} =
  (foldl (fun m id => <[id := {| td_patterns := patterns;
                                 td_reason := reason |}]> m) m (range_ids a b),
   lg ++ [LogExpandedRange CatTransform id_item (b - a + 1) (reason_info reason)]).
Proof. unfold load_transform_entry; cbn [te_id]. now rewrite Hlooks, Hparse. Qed.

Lemma load_no_translation_entry_range s lg comment :
  load_no_translation_entry (s, lg) {| ne_id := id_item; ne_comment := comment |} =
  (foldl (fun s id => s ∪ {[id]}) s (range_ids a b),
   lg ++ [LogExpandedRange CatNoTranslation id_item (b - a + 1) (reason_info comment)]).
Proof. unfold load_no_translation_entry; cbn [ne_id]. now rewrite Hlooks, Hparse. Qed.

Lemma load_legacy_entry_range m lg value :
  load_legacy_entry (m, lg) (id_item, value) =
  (foldl (fun m id => <[id := value]> m) m (range_ids a b),
   lg ++ [LogExpandedRange CatLegacy id_item (b - a + 1) EmptyString]).
Proof. unfold load_legacy_entry. now rewrite Hlooks, Hparse. Qed.
End ParsedRange.

(** ** Range expansion (C5, C10) *)

(** C10. A reversed range [<a>-<b>], both parts integers and [a > b], goes
    through every loader without a parse error: the category map or set
    is left as it was and the only line printed is the one of an
    expansion, with the count [b - a + 1]. *)
Theorem reversed_range_dropped (a b : Z) :
  0 <= b -> b < a ->
  let id_item := range_string a b in
  (forall s lg comment,
     load_no_translation_entry (s, lg) {| ne_id := id_item; ne_comment := comment |}
     = (s, lg ++ [LogExpandedRange CatNoTranslation id_item (b - a + 1)
                    (reason_info comment)]))
  /\ (forall m lg translation reason,
     load_override_entry (m, lg)
       {| oe_id := id_item; oe_translation := translation; oe_reason := reason |}
     = (m, lg ++ [LogExpandedRange CatOverride id_item (b - a + 1)
                    (reason_info reason)]))
  /\ (forall m lg patterns reason,
     load_transform_entry (m, lg)
       {| te_id := id_item; te_patterns := patterns; te_reason := reason |}
     = (m, lg ++ [LogExpandedRange CatTransform id_item (b - a + 1)
                    (reason_info reason)]))
  /\ (forall m lg value,
     load_legacy_entry (m, lg) (id_item, value)
     = (m, lg ++ [LogExpandedRange CatLegacy id_item (b - a + 1) EmptyString])).
Proof.
  intros Hb Hba id_item.
  destruct (range_string_parses a b) as [Hlooks Hparse]; [lia | lia |].
  pose proof (range_ids_reversed a b Hba) as Hnil.
  repeat split; intros.
  - rewrite (load_no_translation_entry_range _ a b) by assumption. now rewrite Hnil.
  - rewrite (load_override_entry_range _ a b) by assumption. now rewrite Hnil.
  - rewrite (load_transform_entry_range _ a b) by assumption. now rewrite Hnil.
  - rewrite (load_legacy_entry_range _ a b) by assumption. now rewrite Hnil.
Qed.

Lemma reversed_range_dropped_witness :
  0 <= 3 /\ 3 < 5
  /\ load_no_translation_entry ({["7"]}, [])
       {| ne_id := "5-3"; ne_comment := "proper noun" |}
     = ({["7"]}, [LogExpandedRange CatNoTranslation "5-3" (-1) " (proper noun)"]).
Proof.
  split; [lia | split; [lia |]].
  exact (proj1 (reversed_range_dropped 5 3 ltac:(lia) ltac:(lia)) {["7"]} [] "proper noun").
Defined.

(** ** The contextual resolver (C4) *)

(** The one-word context [Psychic] is not a description, has no
    parentheses and carries no indicator of any category. *)
Lemma psychic_context_facts :
  is_description "Psychic" = false
  /\ (length (Py.split "Psychic") =? 1)%nat = true
  /\ Py.contains "(" "Psychic" = false
  /\ any_in type_indicators (Py.lower "Psychic") = false
  /\ any_in move_indicators (Py.lower "Psychic") = false
  /\ any_in ability_indicators (Py.lower "Psychic") = false.
Proof. vm_compute. repeat split. Qed.

(** C4, as the code has it.  In the context [Psychic] the resolver
    answers from the item, the move or the ability dictionary, the first
    of them that holds the term, and otherwise from the generic
    dictionary; the type dictionary is not read.  In the long context it
    answers [None]. *)
Theorem resolve_psychic (d : dictionaries) :
  get_contextual_translation d "Psychic" "Psychic" =
    (if dict_mem (item_translations d) "Psychic"
     then dict_get (item_translations d) "Psychic"
     else if dict_mem (move_translations d) "Psychic"
     then dict_get (move_translations d) "Psychic"
     else if dict_mem (ability_translations d) "Psychic"
     then dict_get (ability_translations d) "Psychic"
     else dict_get (translations d) "Psychic")
  /\ get_contextual_translation d "Psychic" long_context = None.
Proof.
  destruct psychic_context_facts as (Hdesc & Hone & Hpar & Hty & Hmv & Hab).
  split.
  - unfold get_contextual_translation, parentheses_type.
    rewrite Hdesc, Hpar, Hty, Hmv, Hab. cbn [andb negb].
    replace ((length (Py.split "Psychic") <=? 3)%nat) with true by reflexivity.
    cbn [orb].
    repeat match goal with |- context [dict_mem ?x ?y] => destruct (dict_mem x y) end;
      reflexivity.
  - unfold get_contextual_translation.
    replace (is_description long_context) with true by (vm_compute; reflexivity).
    rewrite Hone. reflexivity.
Qed.

(** C4 as stated fails: with [Psychic] in the type dictionary only, the
    resolver does not return the type dictionary's entry. *)
Lemma resolve_psychic_type_counterexample :
  let d := {| translations := []; type_translations := [("Psychic", "Psico")];
              move_translations := []; ability_translations := [];
              item_translations := [] |} in
  dict_get (type_translations d) "Psychic" = Some "Psico"
  /\ get_contextual_translation d "Psychic" "Psychic" = None
  /\ get_contextual_translation d "Psychic" "Psychic"
     <> dict_get (type_translations d) "Psychic".
Proof. vm_compute. repeat split. discriminate. Qed.

(** ** The term index (C7) *)

Lemma insert_by_len_perm (t : string) (l : list string) :
  insert_by_len t l ≡ₚ t :: l.
Proof.
  induction l as [|u l IH]; simpl; [reflexivity |].
  destruct (String.length t <? String.length u)%nat; [| reflexivity].
  rewrite IH. apply Permutation_swap.
Qed.

Lemma sort_by_len_desc_perm (l : list string) : sort_by_len_desc l ≡ₚ l.
Proof.
  induction l as [|t l IH]; simpl; [reflexivity |].
  rewrite insert_by_len_perm. now constructor.
Qed.

Lemma insert_by_len_sorted (t : string) (l : list string) :
  StronglySorted longer_first l -> StronglySorted longer_first (insert_by_len t l).
Proof.
  induction 1 as [|u l Hl IH Hu]; simpl; [repeat constructor |].
  destruct (String.length t <? String.length u)%nat eqn:E.
  - apply Nat.ltb_lt in E. constructor; [assumption |].
    rewrite insert_by_len_perm. constructor; [unfold longer_first; lia | assumption].
  - apply Nat.ltb_ge in E. constructor; [now constructor |].
    constructor; [exact E |].
    eapply Forall_impl; [exact Hu |]. unfold longer_first. intros; simpl in *; lia.
Qed.

Lemma sort_by_len_desc_sorted (l : list string) :
  StronglySorted longer_first (sort_by_len_desc l).
Proof.
  induction l as [|t l IH]; simpl; [constructor | now apply insert_by_len_sorted].
Qed.

(** The sort is stable: terms of one length keep their relative order. *)
Lemma insert_by_len_of_length (n : nat) (t : string) (l : list string) :
  of_length n (insert_by_len t l) = of_length n (t :: l).
Proof.
  unfold of_length. induction l as [|u l IH]; simpl; [reflexivity |].
  destruct (String.length t <? String.length u)%nat eqn:E; [| reflexivity].
  apply Nat.ltb_lt in E. rewrite !filter_cons in *.
  repeat case_decide; try lia; rewrite IH; try reflexivity.
Qed.

Lemma sort_by_len_desc_of_length (n : nat) (l : list string) :
  of_length n (sort_by_len_desc l) = of_length n l.
Proof.
  induction l as [|t l IH]; simpl; [reflexivity |].
  rewrite insert_by_len_of_length. unfold of_length in *.
  rewrite !filter_cons, IH. reflexivity.
Qed.

Lemma elem_of_all_terms (d : dictionaries) (t : string) :
  t ∈ all_terms d <-> dictionary_key d t.
Proof.
  unfold all_terms, dictionary_key.
  rewrite !elem_of_union, !elem_of_list_to_set. tauto.
Qed.

(** C7, as the code has it.  The term index holds every key of the five
    dictionaries, each once, longer terms before shorter ones; terms of
    the same length stand in the order in which the set [all_terms]
    happens to be iterated. *)
Theorem term_index_sorted `{SetOrder} (d : dictionaries) :
  (forall t, t ∈ sorted_terms d <-> dictionary_key d t)
  /\ NoDup (sorted_terms d)
  /\ StronglySorted longer_first (sorted_terms d)
  /\ forall n, of_length n (sorted_terms d) = of_length n (set_iter (all_terms d)).
Proof.
  unfold sorted_terms.
  pose proof (sort_by_len_desc_perm (set_iter (all_terms d))) as Hperm.
  pose proof (set_iter_perm (all_terms d)) as Hiter.
  split; [| split; [| split]].
  - intros t. rewrite Hperm, Hiter, elem_of_elements. apply elem_of_all_terms.
  - rewrite Hperm, Hiter. apply NoDup_elements.
  - apply sort_by_len_desc_sorted.
  - intros n. apply sort_by_len_desc_of_length.
Qed.

(** C7 as stated fails on ties: two terms of the same length need not
    stand in the order of their discovery.  The set order here is the one
    of [elements]. *)
Lemma term_index_ties_counterexample :
  let files := [("it.json", Some [("ab", "x"); ("cd", "y")])] in
  let d := load_dictionaries files [] in
  String.length "ab" = String.length "cd"
  /\ discovery_order files [] = ["ab"; "cd"]
  /\ @sorted_terms elements_order d = ["cd"; "ab"]
  /\ precedes "ab" "cd" (discovery_order files [])
  /\ ~ precedes "ab" "cd" (@sorted_terms elements_order d).
Proof.
  intros files d.
  assert (Hdisc : discovery_order files [] = ["ab"; "cd"]) by (vm_compute; reflexivity).
  assert (Hidx : @sorted_terms elements_order d = ["cd"; "ab"]) by (vm_compute; reflexivity).
  rewrite Hdisc, Hidx. repeat split.
  - exists [], [], []. reflexivity.
  - intros (l1 & l2 & l3 & E).
    destruct l1 as [|x1 l1]; cbn [app] in E.
    + apply (f_equal (fun l => match l with
                               | x :: _ => String.eqb x "cd"
                               | [] => false
                               end)) in E.
      vm_compute in E. discriminate E.
    + apply (f_equal (@length string)) in E. cbn [length] in E.
      rewrite length_app in E. cbn [length] in E.
      rewrite length_app in E. cbn [length] in E. lia.
Qed.

(** ** Records and their text *)

Lemma append_inj_r (x y c : string) : x +:+ c = y +:+ c -> x = y.
Proof.
  revert y. induction x as [|a x IH]; intros [|b y] E; try reflexivity.
  - apply (f_equal String.length) in E. rewrite append_cons, append_nil in E.
    simpl in E. rewrite length_append in E. lia.
  - apply (f_equal String.length) in E. rewrite append_cons, append_nil in E.
    simpl in E. rewrite length_append in E. lia.
  - rewrite !append_cons in E. injection E as -> E. f_equal. now apply IH.
Qed.

(** The text in a rebuilt record determines it. *)
Lemma rebuild_inj (m : record_match) (x y : string) :
  rebuild m x = rebuild m y -> x = y.
Proof.
  unfold rebuild. intros E. apply String.app_inj in E. now apply append_inj_r in E.
Qed.

Lemma group0_rebuild (m : record_match) : group0 m = rebuild m (text m).
Proof. reflexivity. Qed.

Lemma lstrip_blank (s : string) :
  Py.all_chars Py.isspace s = true -> Py.lstrip s = EmptyString.
Proof.
  induction s as [|c s IH]; simpl; [reflexivity |].
  intros [Hc Hs]%andb_true_iff. rewrite Hc. auto.
Qed.

Lemma strip_blank (s : string) :
  Py.all_chars Py.isspace s = true -> Py.strip s = EmptyString.
Proof. intros H. unfold Py.strip. now rewrite lstrip_blank. Qed.

(** *** A match of the record pattern is the head of the text it was
    found in *)

Lemma after_literal_Some (lit s r : string) :
  after_literal lit s = Some r -> s = lit +:+ r.
Proof.
  revert s. induction lit as [|l lit IH]; intros s; simpl.
  - now intros [= ->].
  - destruct s as [|c s]; [discriminate |].
    destruct (Ascii.eqb l c) eqn:E; [| discriminate].
    apply Ascii.eqb_eq in E as ->. intros H%IH. now rewrite H.
Qed.

Lemma span_append (p : ascii -> bool) (s : string) :
  s = (span p s).1 +:+ (span p s).2.
Proof.
  induction s as [|c s IH]; simpl; [reflexivity |].
  destruct (p c); [| reflexivity].
  destruct (span p s) as [a r]. simpl in *. now rewrite append_cons, <- IH.
Qed.

Lemma span_stop (p : ascii -> bool) (s a r : string) (c : ascii) :
  span p s = (a, String c r) -> p c = false.
Proof.
  revert a. induction s as [|x s IH]; intros a; simpl; [discriminate |].
  destruct (p x) eqn:E.
  - destruct (span p s) as [a' r']. intros [= _ ->]. now apply (IH a').
  - now intros [= _ -> _].
Qed.

Ltac normalize_append :=
  repeat rewrite ?append_assoc, ?append_cons, ?append_nil.

Lemma startswith_append (s sub : string) :
  Py.startswith s sub = true -> exists r, s = sub +:+ r.
Proof.
  revert s. induction sub as [|a sub IH]; intros s; simpl.
  - exists s. reflexivity.
  - destruct s as [|c s]; [discriminate |].
    intros [Hc Hs]%andb_true_iff. apply Ascii.eqb_eq in Hc as ->.
    destruct (IH _ Hs) as [r ->]. exists r. reflexivity.
Qed.

Lemma before_first_Some (sub s b : string) :
  before_first sub s = Some b -> exists r, s = b +:+ sub +:+ r.
Proof.
  revert b. induction s as [|c s IH]; intros b; simpl.
  - destruct (Py.startswith EmptyString sub) eqn:E; [| discriminate].
    intros [= <-]. now apply startswith_append.
  - destruct (Py.startswith (String c s) sub) eqn:E.
    + intros [= <-]. now apply startswith_append.
    + destruct (before_first sub s) as [b'|]; [| discriminate].
      intros [= <-]. destruct (IH _ eq_refl) as [r ->]. exists r. reflexivity.
Qed.

Lemma record_at_head (s : string) (m : record_match) :
  record_at s = Some m -> exists rest, s = group0 m +:+ rest.
Proof.
  unfold record_at.
  destruct (after_literal "<string" s) as [s1|] eqn:E1; [| discriminate].
  apply after_literal_Some in E1.
  pose proof (span_append Py.isspace s1) as E2.
  destruct (span Py.isspace s1) as [[|sp0 sp] s2]; [discriminate |].
  destruct (after_literal _ s2) as [s3|] eqn:E3; [| discriminate].
  apply after_literal_Some in E3.
  pose proof (span_append (fun c => negb (Ascii.eqb c dquote)) s3) as E4.
  destruct (span _ s3) as [[|i0 id] [|q s4]] eqn:S4; try discriminate.
  apply span_stop, negb_false_iff, Ascii.eqb_eq in S4 as ->.
  pose proof (span_append (fun c => negb (Ascii.eqb c ">")) s4) as E5.
  destruct (span _ s4) as [attrs [|g s5]] eqn:S5; try discriminate.
  apply span_stop, negb_false_iff, Ascii.eqb_eq in S5 as ->.
  destruct (before_first "</string>" s5) as [body|] eqn:E6; [| discriminate].
  apply before_first_Some in E6 as [rest E6].
  intros [= <-]. exists rest. unfold group0. cbn [opening_tag text closing_tag].
  cbn [fst snd] in *. subst s s1 s2 s3 s4 s5.
  normalize_append. reflexivity.
Qed.

(** *** A rebuilt record is found again where the record was *)

Lemma span_all (p : ascii -> bool) (s : string) :
  Py.all_chars p (span p s).1 = true.
Proof.
  induction s as [|c s IH]; simpl; [reflexivity |].
  destruct (p c) eqn:E; [| reflexivity].
  destruct (span p s) as [a r]. simpl in *. now rewrite E.
Qed.

Lemma span_exact (p : ascii -> bool) (a r : string) :
  Py.all_chars p a = true -> stops p r -> span p (a +:+ r) = (a, r).
Proof.
  intros Ha Hr. induction a as [|c a IH]; rewrite ?append_nil, ?append_cons.
  - destruct r as [|c r]; simpl in *; [reflexivity | now rewrite Hr].
  - simpl in Ha |- *. apply andb_true_iff in Ha as [Hc Ha].
    rewrite Hc, IH by assumption. reflexivity.
Qed.

Lemma after_literal_append (lit r : string) : after_literal lit (lit +:+ r) = Some r.
Proof.
  induction lit as [|l lit IH]; rewrite ?append_nil, ?append_cons; simpl;
    [reflexivity |].
  now rewrite Ascii.eqb_refl.
Qed.

Lemma record_at_rebuild (s : string) (m : record_match) (body rest : string) :
  record_at s = Some m ->
  before_first "</string>" (body +:+ "</string>" +:+ rest) = Some body ->
  record_at (rebuild m body +:+ rest)
  = Some {| opening_tag := opening_tag m; string_id := string_id m;
            text := body; closing_tag := closing_tag m |}.
Proof.
  unfold record_at at 1.
  destruct (after_literal "<string" s) as [s1|]; [| discriminate].
  pose proof (span_all Py.isspace s1) as A2.
  destruct (span Py.isspace s1) as [[|sp0 sp] s2]; [discriminate |].
  destruct (after_literal _ s2) as [s3|]; [| discriminate].
  pose proof (span_all (fun c => negb (Ascii.eqb c dquote)) s3) as A4.
  destruct (span _ s3) as [[|i0 id] [|q s4]]; try discriminate.
  pose proof (span_all (fun c => negb (Ascii.eqb c ">")) s4) as A5.
  destruct (span _ s4) as [attrs [|g s5]]; try discriminate.
  destruct (before_first "</string>" s5) as [body0|]; [| discriminate].
  intros [= <-] Hbody. cbn [fst] in *.
  unfold rebuild. cbn [opening_tag string_id text closing_tag].
  unfold record_at. normalize_append.
  cbn [after_literal Ascii.eqb Bool.eqb].
  change (String sp0 (sp +:+ ?x)) with (String sp0 sp +:+ x).
  rewrite span_exact by (assumption || reflexivity).
  rewrite Ascii.eqb_refl.
  change (String i0 (id +:+ ?x)) with (String i0 id +:+ x).
  rewrite span_exact; [| assumption | reflexivity].
  rewrite span_exact; [| assumption | reflexivity].
  change (String "<" (String "/" (String "s" (String "t" (String "r" (String "i"
           (String "n" (String "g" (String ">" rest)))))))))
    with ("</string>" +:+ rest).
  rewrite Hbody. normalize_append. reflexivity.
Qed.

(** ** The cascade: blank records, overrides, no-translation (C8, C1, C6) *)

Section Cascade.
Context `{ReEngine} `{FormatLib}.
Variable env : environment.

(** C8. A record whose text is empty or white space only is returned as
    matched, whatever the registries hold for its id: the value returned
    is [group(0)], the very characters of the input the pattern matched,
    and of the counters only [current] moves; nothing is printed. *)
Theorem blank_record_untouched (s : string) (m : record_match) (st : run_state) :
  record_at s = Some m ->
  Py.all_chars Py.isspace (text m) = true ->
  exists st',
    replace_content env m st = Ok (group0 m, st')
    /\ (exists rest, s = group0 m +:+ rest)
    /\ translated_count st' = translated_count st
    /\ not_translated_count st' = not_translated_count st
    /\ special_cases_applied st' = special_cases_applied st
    /\ run_log st' = run_log st.
Proof.
  intros Hm Hblank. exists (tick_current st).
  unfold replace_content. rewrite strip_blank by assumption. cbn [Py.truthy negb].
  repeat split. now apply record_at_head.
Qed.

(** C1. When the id of a record is in the override map and in the
    no-translation set, the cascade returns the opening tag, the
    override's translation and the closing tag, counts the record as
    translated and prints the override line: the override is looked up
    first.  What is returned differs from the record as it was unless the
    translation is the very text of the record.  [replace_content] enters
    the cascade for every record whose stripped text is not empty. *)
Theorem override_before_no_translation
    (m : record_match) (original_text : string) (st : run_state)
    (override_data : override_data) :
  global_override_translations (env_registry env) !! string_id m = Some override_data ->
  string_id m ∈ global_no_translation_ids (env_registry env) ->
  cascade env m original_text st =
    Ok (opening_tag m +:+ od_translation override_data +:+ closing_tag m,
        say (LogGlobalOverride (string_id m) (od_reason override_data)
               original_text (od_translation override_data))
          (tick_special (tick_translated st)))
  /\ (od_translation override_data <> text m ->
      opening_tag m +:+ od_translation override_data +:+ closing_tag m <> group0 m)
  /\ (Py.strip (text m) <> EmptyString ->
      replace_content env m st = cascade env m (Py.strip (text m)) (tick_current st)).
Proof.
  intros Hov Hno. split; [| split].
  - unfold cascade. rewrite Hov. reflexivity.
  - intros Hne E. apply Hne. now apply (rebuild_inj m).
  - intros Hne. unfold replace_content.
    destruct (Py.strip (text m)); [congruence | reflexivity].
Qed.

Lemma cascade_rerun (m m' : record_match) (out original_text : string)
    (st st' : run_state) :
  is_Some (global_override_translations (env_registry env) !! string_id m)
  \/ string_id m ∈ global_no_translation_ids (env_registry env) ->
  opening_tag m' = opening_tag m -> string_id m' = string_id m ->
  closing_tag m' = closing_tag m -> group0 m' = out ->
  cascade env m original_text st = Ok (out, st') ->
  forall original_text' st2, exists st2',
    cascade env m' original_text' st2 = Ok (out, st2').
Proof.
  intros Hreg Hopen Hid Hclose Hout Hrun original_text' st2.
  unfold cascade in *. rewrite Hid.
  destruct (global_override_translations (env_registry env) !! string_id m)
    as [od|] eqn:Hov.
  - injection Hrun as <- _. eexists. f_equal. f_equal.
    unfold rebuild. now rewrite Hopen, Hclose.
  - destruct Hreg as [[? [=]] | Hno].
    rewrite decide_True in Hrun |- * by assumption.
    injection Hrun as <- _. eexists. f_equal. f_equal. exact Hout.
Qed.

Lemma replace_content_rerun (m m' : record_match) (out : string)
    (st st' : run_state) :
  is_Some (global_override_translations (env_registry env) !! string_id m)
  \/ string_id m ∈ global_no_translation_ids (env_registry env) ->
  opening_tag m' = opening_tag m -> string_id m' = string_id m ->
  closing_tag m' = closing_tag m -> group0 m' = out ->
  replace_content env m st = Ok (out, st') ->
  forall st2, exists st2', replace_content env m' st2 = Ok (out, st2').
Proof.
  intros Hreg Hopen Hid Hclose Hout Hrun st2. unfold replace_content in *.
  destruct (Py.truthy (Py.strip (text m'))) eqn:Hblank'; cbn [negb];
    [| eexists; f_equal; f_equal; exact Hout].
  destruct (Py.truthy (Py.strip (text m))) eqn:Hblank; cbn [negb] in Hrun.
  - eapply cascade_rerun; eassumption.
  - injection Hrun as <- _.
    assert (text m' = text m) as Htext.
    { apply (rebuild_inj m). rewrite <- group0_rebuild, <- Hout.
      unfold group0, rebuild. now rewrite Hopen, Hclose. }
    rewrite Htext in Hblank'. congruence.
Qed.

(** What is returned for such a record is the record with some text
    between its tags. *)
Lemma registry_output_shape (m : record_match) (out : string) (st st' : run_state) :
  is_Some (global_override_translations (env_registry env) !! string_id m)
  \/ string_id m ∈ global_no_translation_ids (env_registry env) ->
  replace_content env m st = Ok (out, st') ->
  exists body, out = rebuild m body.
Proof.
  intros Hreg Hrun. unfold replace_content, cascade in Hrun.
  destruct (negb (Py.truthy (Py.strip (text m)))).
  - injection Hrun as <- _. exists (text m). reflexivity.
  - destruct (global_override_translations (env_registry env) !! string_id m)
      as [od|] eqn:Hov.
    + injection Hrun as <- _. eauto.
    + destruct Hreg as [[? [=]] | Hno].
      rewrite decide_True in Hrun by assumption.
      injection Hrun as <- _. exists (text m). reflexivity.
Qed.

(** C6, as the code has it.  For a record whose id is in the override
    map or in the no-translation set, a second run on the record that the
    first run returned gives it again: the second record has the tags and
    the id of the first and, as its text, the text the first run put
    between the tags; this holds for the cascade and for
    [replace_content] as a whole.  That record is the one the pattern
    finds in the output, in the place of the first, only as long as the
    text returned does not itself contain a closing tag; when it does,
    the record found is shorter and a second run changes the document. *)
Theorem override_no_translation_idempotent (m : record_match) :
  is_Some (global_override_translations (env_registry env) !! string_id m)
  \/ string_id m ∈ global_no_translation_ids (env_registry env) ->
  (forall m' out,
     opening_tag m' = opening_tag m -> string_id m' = string_id m ->
     closing_tag m' = closing_tag m -> group0 m' = out ->
     (forall original_text st st',
        cascade env m original_text st = Ok (out, st') ->
        forall original_text' st2, exists st2',
          cascade env m' original_text' st2 = Ok (out, st2'))
     /\ (forall st st',
        replace_content env m st = Ok (out, st') ->
        forall st2, exists st2', replace_content env m' st2 = Ok (out, st2')))
  /\ (forall s out st st',
       record_at s = Some m ->
       replace_content env m st = Ok (out, st') ->
       exists body,
         out = rebuild m body
         /\ forall rest,
              before_first "</string>" (body +:+ "</string>" +:+ rest) = Some body ->
              exists m',
                record_at (out +:+ rest) = Some m'
                /\ forall st2, exists st2',
                     replace_content env m' st2 = Ok (out, st2')).
Proof.
  intros Hreg. split.
  - intros m' out Hopen Hid Hclose Hout. split.
    + intros original_text st st' Hrun. eapply cascade_rerun; eassumption.
    + intros st st' Hrun. eapply replace_content_rerun; eassumption.
  - intros s out st st' Hm Hrun.
    destruct (registry_output_shape m out st st' Hreg Hrun) as [body ->].
    exists body. split; [reflexivity |]. intros rest Hbody.
    eexists. split; [exact (record_at_rebuild s m body rest Hm Hbody) |].
    eapply replace_content_rerun; try eassumption; reflexivity.
Qed.
End Cascade.

Lemma blank_record_untouched_witness :
  let s := group0 (record_of "5" "   ") +:+ "</resources>" in
  record_at s = Some (record_of "5" "   ")
  /\ Py.all_chars Py.isspace (text (record_of "5" "   ")) = true
  /\ exists st',
       @replace_content literal_engine string_fields greeting_env (record_of "5" "   ")
         (initial_state []) = Ok (group0 (record_of "5" "   "), st')
       /\ translated_count st' = 0 /\ not_translated_count st' = 0.
Proof.
  intros s.
  assert (Hm : record_at s = Some (record_of "5" "   ")) by (vm_compute; reflexivity).
  assert (Hb : Py.all_chars Py.isspace (text (record_of "5" "   ")) = true)
    by (vm_compute; reflexivity).
  split; [exact Hm | split; [exact Hb |]].
  destruct (@blank_record_untouched literal_engine string_fields greeting_env s _ (initial_state [])
              Hm Hb) as (st' & Hrun & _ & Ht & Hn & _).
  exists st'. split; [exact Hrun | split; assumption].
Defined.

Lemma override_before_no_translation_witness :
  global_override_translations (env_registry greeting_env) !! "5"
    = Some {| od_translation := "Ciao"; od_reason := "greeting" |}
  /\ "5" ∈ global_no_translation_ids (env_registry greeting_env)
  /\ @cascade literal_engine string_fields greeting_env (record_of "5" "Hello") "Hello"
       (initial_state [])
     = Ok (tag_of "5" +:+ "Ciao" +:+ "</string>",
           say (LogGlobalOverride "5" "greeting" "Hello" "Ciao")
             (tick_special (tick_translated (initial_state [])))).
Proof.
  assert (Hov : global_override_translations (env_registry greeting_env)
                  !! string_id (record_of "5" "Hello")
                = Some {| od_translation := "Ciao"; od_reason := "greeting" |})
    by (vm_compute; reflexivity).
  assert (Hno : string_id (record_of "5" "Hello")
                ∈ global_no_translation_ids (env_registry greeting_env))
    by (vm_compute; reflexivity).
  split; [exact Hov | split; [exact Hno |]].
  exact (proj1 (@override_before_no_translation literal_engine string_fields greeting_env
                  (record_of "5" "Hello") "Hello" (initial_state []) _ Hov Hno)).
Defined.

Lemma override_no_translation_idempotent_witness :
  let out := tag_of "5" +:+ "Ciao" +:+ "</string>" in
  (exists st', @replace_content literal_engine string_fields greeting_env (record_of "5" "Hello")
                 (initial_state []) = Ok (out, st'))
  /\ exists st2', @replace_content literal_engine string_fields greeting_env (record_of "5" "Ciao")
                    (initial_state []) = Ok (out, st2').
Proof.
  intros out.
  assert (Hrun : exists st', @replace_content literal_engine string_fields greeting_env
                   (record_of "5" "Hello") (initial_state []) = Ok (out, st'))
    by (eexists; vm_compute; reflexivity).
  split; [exact Hrun |]. destruct Hrun as [st' Hrun].
  refine (proj2 (proj1 (@override_no_translation_idempotent literal_engine string_fields
                          greeting_env (record_of "5" "Hello") _)
                   (record_of "5" "Ciao") out eq_refl eq_refl eq_refl eq_refl)
            _ _ Hrun (initial_state [])).
  left. vm_compute. eauto.
Defined.

(** C6 as stated fails for an override whose translation holds a
    closing tag.  The record that the pattern finds in the output of the
    first run ends at that tag: it is not the output, and a second run
    over the output gives a longer document, in which the rest of the
    first output is itself translated as a record. *)
Lemma override_rerun_counterexample :
  let m := record_of "5" "Hello" in
  let out := rebuild m closing_override in
  is_Some (global_override_translations (env_registry closing_env) !! string_id m)
  /\ (exists st',
        @replace_content literal_engine string_fields closing_env m (initial_state [])
        = Ok (out, st'))
  /\ record_at out = Some (record_of "5" "A")
  /\ group0 (record_of "5" "A") <> out
  /\ (exists st2,
        @document_sub literal_engine string_fields closing_env out (initial_state [])
        = Ok (out +:+ group0 (record_of "7" "Fuoco"), st2))
  /\ out +:+ group0 (record_of "7" "Fuoco") <> out.
Proof.
  intros m out.
  split; [vm_compute; eauto |].
  split; [eexists; vm_compute; reflexivity |].
  split; [vm_compute; reflexivity |].
  split; [vm_compute; discriminate |].
  split; [eexists; vm_compute; reflexivity |].
  vm_compute. discriminate.
Qed.

(** ** The scenario of the Fire type (C2) *)

Lemma all_terms_fire : all_terms fire_dictionaries = {["Fire"]}.
Proof. vm_compute. reflexivity. Qed.

Lemma sorted_terms_fire `{SetOrder} : sorted_terms fire_dictionaries = ["Fire"].
Proof.
  unfold sorted_terms. rewrite all_terms_fire.
  pose proof (set_iter_perm {["Fire"]}) as Hperm.
  rewrite elements_singleton in Hperm.
  apply Permutation_singleton_r in Hperm. rewrite Hperm. reflexivity.
Qed.

(** C2, as the code has it.  With the type dictionary holding only Fire,
    the record 5 is returned as it was and counted as not translated: its
    text contains the phrase [this move], so the resolver takes it for a
    description and gives no translation for the single word Fire. *)
Theorem fire_scenario_untranslated `{SetOrder} `{ReEngine} `{FormatLib} (st : run_state) :
  is_description fire_text = true
  /\ get_contextual_translation fire_dictionaries "Fire" fire_text = None
  /\ exists env,
       build_environment empty_registry fire_dictionaries = Ok env
       /\ replace_content env fire_record st =
            Ok (tag_of "5" +:+ fire_text +:+ "</string>",
                say (LogNotTranslated fire_text)
                  (tick_not_translated (tick_current st)))
       /\ process_single_file "input/strings.xml" (group0 fire_record) None
            [("type-it.json", Some [("Fire", "Fuoco")])]
          = Ok (Some (group0 fire_record),
                say (LogNotTranslated fire_text)
                  (tick_not_translated (tick_current (initial_state [])))).
Proof.
  split; [vm_compute; reflexivity | split; [vm_compute; reflexivity |]].
  assert (Hd : load_dictionaries [("type-it.json", Some [("Fire", "Fuoco")])]
                 (global_add_translations empty_registry) = fire_dictionaries)
    by (vm_compute; reflexivity).
  unfold process_single_file. cbn [load_registry]. rewrite Hd.
  replace (no_dictionaries fire_dictionaries) with false by reflexivity.
  unfold build_environment. rewrite sorted_terms_fire.
  eexists. split; [vm_compute; reflexivity |].
  split; vm_compute; reflexivity.
Qed.

(** C2 as stated fails: the text returned for the record is not the one
    with Fuoco. *)
Lemma fire_scenario_counterexample :
  exists env out st',
    @build_environment elements_order empty_registry fire_dictionaries = Ok env
    /\ @replace_content literal_engine string_fields env fire_record (initial_state [])
       = Ok (out, st')
    /\ out = tag_of "5" +:+ "This move is Fire type." +:+ "</string>"
    /\ out <> tag_of "5" +:+ "This move is Fuoco type." +:+ "</string>".
Proof.
  do 3 eexists. split; [vm_compute; reflexivity |].
  split; [vm_compute; reflexivity |].
  split; [vm_compute; reflexivity |].
  vm_compute. discriminate.
Qed.

(** ** A template that names an undefined variable (C3) *)

Section TemplateError.
Context `{ReEngine} `{FormatLib}.
Variables (env : environment) (m : record_match).



End TemplateError.



(** ** The deferred block applicator (C9) *)

Lemma slice_to_from (n : nat) (s : string) :
  Py.slice_to n s +:+ Py.slice_from n s = s.
Proof.
  revert s. induction n as [|n IH]; intros [|c s]; simpl; try reflexivity.
  rewrite append_cons. now rewrite IH.
Qed.

Lemma slice_from_empty (q : nat) : Py.slice_from q EmptyString = EmptyString.
Proof. destruct q; reflexivity. Qed.

(** [rfind] finds nothing only where [sub] starts nowhere. *)
Lemma rfind_None (a : ascii) (sub s : string) :
  Py.rfind (String a sub) s = None ->
  forall q, Py.startswith (Py.slice_from q s) (String a sub) = false.
Proof.
  induction s as [|c s IH]; simpl.
  - intros _ q. now rewrite slice_from_empty.
  - destruct (Py.rfind (String a sub) s); [discriminate |].
    destruct (Ascii.eqb a c && Py.startswith s sub) eqn:E; [discriminate |].
    intros _ [|q]; simpl; [exact E | now apply IH].
Qed.

(** [rfind] returns the last position at which [sub] starts. *)
Lemma rfind_Some (a : ascii) (sub s : string) (pos : nat) :
  Py.rfind (String a sub) s = Some pos ->
  Py.startswith (Py.slice_from pos s) (String a sub) = true
  /\ forall q, (pos < q)%nat ->
       Py.startswith (Py.slice_from q s) (String a sub) = false.
Proof.
  revert pos. induction s as [|c s IH]; intros pos; simpl; [discriminate |].
  destruct (Py.rfind (String a sub) s) as [p|] eqn:Hr.
  - intros [= <-]. destruct (IH p eq_refl) as [Hat Hlast]. split; [exact Hat |].
    intros [|q] Hq; [lia |]. simpl. apply Hlast. lia.
  - destruct (Ascii.eqb a c && Py.startswith s sub) eqn:E; [| discriminate].
    intros [= <-]. split; [exact E |].
    intros [|q] Hq; [lia |]. simpl. now apply rfind_None.
Qed.

(** An entry for another path leaves the text and the state as they
    are. *)
Lemma apply_add_block_other (input_file : string) (acc : string * run_state)
    (entry : string * block_info) :
  entry.1 <> Py.replace_char "\" "/" input_file ->
  apply_add_block input_file acc entry = acc.
Proof.
  destruct acc as [xml st], entry as [path info]. simpl. intros Hne.
  apply String.eqb_neq in Hne. now rewrite Hne.
Qed.

Lemma apply_add_blocks_other (input_file : string) (blocks : pydict block_info)
    (acc : string * run_state) :
  Py.replace_char "\" "/" input_file ∉ dict_keys blocks ->
  foldl (apply_add_block input_file) acc blocks = acc.
Proof.
  revert acc. induction blocks as [|entry blocks IH]; intros acc Hnin; [reflexivity |].
  cbn [foldl]. unfold dict_keys in Hnin. rewrite fmap_cons, not_elem_of_cons in Hnin.
  destruct Hnin as [Hne Hnin].
  rewrite apply_add_block_other by congruence. now apply IH.
Qed.

(** With unique keys, the one entry for the document is the only one
    that acts. *)
Lemma apply_add_blocks_one (input_file : string) (blocks : pydict block_info)
    (info : block_info) (xml_content : string) (st : run_state) :
  NoDup (dict_keys blocks) ->
  (Py.replace_char "\" "/" input_file, info) ∈ blocks ->
  apply_add_blocks input_file blocks xml_content st
  = apply_add_block input_file (xml_content, st)
      (Py.replace_char "\" "/" input_file, info).
Proof.
  intros Hnd Hin. unfold apply_add_blocks.
  apply list_elem_of_split in Hin as (l1 & l2 & ->).
  unfold dict_keys in Hnd. rewrite fmap_app, fmap_cons in Hnd.
  apply NoDup_app in Hnd as (_ & Hl1 & Hl2). apply NoDup_cons in Hl2 as [Hl2 _].
  rewrite foldl_app. cbn [foldl].
  rewrite (apply_add_blocks_other _ l1).
  - now apply apply_add_blocks_other.
  - intros Hk. apply (Hl1 _ Hk). left.
Qed.

(** C9. The entry of [add_block] whose path is that of the document, the
    content not being empty, is applied to the text that the pass over
    the records returned: the content and a newline are put before the
    last [</] of that text, as they are.  Without any [</] the text stays
    as it is and the failure is printed.  The first part is the block
    applicator on any text; the second places it in [process_single_file],
    after [document_sub] has returned. *)
Theorem add_block_after_translation `{SetOrder} `{ReEngine} `{FormatLib}
    (input_file xml_content : string)
    (special_cases_file : option (option special_cases_json))
    (translation_files : list (string * option (pydict string)))
    (info : block_info) :
  let reg := (load_registry special_cases_file).1 in
  let lg := (load_registry special_cases_file).2 in
  let path := Py.replace_char "\" "/" input_file in
  NoDup (dict_keys (add_block_data reg)) ->
  (path, info) ∈ add_block_data reg ->
  bi_content info <> EmptyString ->
  (forall translated st0,
     block_applied path info translated st0
       (apply_add_blocks input_file (add_block_data reg) translated st0).1
       (apply_add_blocks input_file (add_block_data reg) translated st0).2)
  /\ (forall final st',
       process_single_file input_file xml_content special_cases_file
         translation_files = Ok (Some final, st') ->
       exists env translated st0,
         build_environment reg
           (load_dictionaries translation_files (global_add_translations reg))
           = Ok env
         /\ document_sub env xml_content (initial_state lg) = Ok (translated, st0)
         /\ block_applied path info translated st0 final st').
Proof.
  intros reg lg path Hnd Hin Hcontent.
  assert (Happ : forall translated st0,
             block_applied path info translated st0
               (apply_add_blocks input_file (add_block_data reg) translated st0).1
               (apply_add_blocks input_file (add_block_data reg) translated st0).2).
  { intros translated st0.
    rewrite (apply_add_blocks_one _ _ info) by assumption.
    unfold apply_add_block, block_applied. fold path. rewrite String.eqb_refl.
    destruct (bi_content info) as [|c0 content] eqn:Hc; [congruence |].
    cbn [Py.truthy].
    destruct (Py.rfind "</" translated) as [pos|] eqn:Hfind; cbn [fst snd].
    - destruct (rfind_Some _ _ _ _ Hfind) as [Hat Hlast]. repeat split; assumption.
    - repeat split. now apply rfind_None. }
  split; [exact Happ |].
  intros final st' Hrun. unfold process_single_file in Hrun.
  subst reg lg. destruct (load_registry special_cases_file) as [reg0 lg0].
  cbn [fst snd] in *.
  destruct (no_dictionaries _); [discriminate |].
  destruct (build_environment reg0 _) as [env|e]; [| discriminate].
  destruct (document_sub env xml_content (initial_state lg0))
    as [[translated st0]|e] eqn:Hsub; [| discriminate].
  exists env, translated, st0. split; [reflexivity | split; [exact Hsub |]].
  specialize (Happ translated st0).
  destruct (apply_add_blocks input_file (add_block_data reg0) translated st0)
    as [final0 st0'].
  injection Hrun as <- <-. exact Happ.
Qed.

Lemma add_block_after_translation_witness :
  let reg := (load_registry (Some (Some block_special_cases))).1 in
  NoDup (dict_keys (add_block_data reg))
  /\ (Py.replace_char "\" "/" "input\foo.xml",
      {| bi_content := block_content; bi_reason := "Block addition" |})
     ∈ add_block_data reg
  /\ @process_single_file elements_order literal_engine string_fields "input\foo.xml"
       block_document (Some (Some block_special_cases)) fire_files
     = Ok (Some block_final,
           say (LogBlockAdded "input/foo.xml" "Block addition"
                  (String.length block_content))
             (say (LogTranslated "Fire type" "Fuoco type")
                (tick_translated (tick_current
                   (initial_state [LogLoaded "files for add_block" 1;
                                   LogLoaded "special cases" 0])))))
  /\ exists env translated st0,
       @document_sub literal_engine string_fields env block_document
         (initial_state (load_registry (Some (Some block_special_cases))).2)
       = Ok (translated, st0)
       /\ translated = "<resources>" +:+ group0 (record_of "6" "Fuoco type")
                       +:+ "</resources>"
       /\ Py.rfind "</" translated = Some 45%nat
       /\ block_final = Py.slice_to 45 translated +:+ block_content +:+ newline
                        +:+ Py.slice_from 45 translated.
Proof.
  intros reg.
  assert (Hnd : NoDup (dict_keys (add_block_data reg))).
  { vm_compute. apply NoDup_singleton. }
  assert (Hin : (Py.replace_char "\" "/" "input\foo.xml",
                 {| bi_content := block_content; bi_reason := "Block addition" |})
                ∈ add_block_data reg).
  { vm_compute. left. }
  assert (Hrun : @process_single_file elements_order literal_engine string_fields "input\foo.xml"
                   block_document (Some (Some block_special_cases)) fire_files
                 = Ok (Some block_final,
                       say (LogBlockAdded "input/foo.xml" "Block addition"
                              (String.length block_content))
                         (say (LogTranslated "Fire type" "Fuoco type")
                            (tick_translated (tick_current
                               (initial_state [LogLoaded "files for add_block" 1;
                                               LogLoaded "special cases" 0])))))).
  { vm_compute. reflexivity. }
  split; [exact Hnd | split; [exact Hin | split; [exact Hrun |]]].
  destruct (proj2 (@add_block_after_translation elements_order literal_engine string_fields
                     "input\foo.xml" block_document
                     (Some (Some block_special_cases))
                     fire_files _ Hnd Hin ltac:(discriminate)) _ _ Hrun)
    as (env & translated & st0 & Henv & Hsub & Hspec).
  exists env, translated, st0. split; [exact Hsub |].
  assert (Henv' : env = {| env_registry := reg; env_dicts := fire_dictionaries;
                           compiled_patterns :=
                             [({| tp_term := "Fire"; tp_left := true;
                                  tp_right := true; tp_ignorecase := true |},
                               "Fire")] |}).
  { vm_compute in Henv. now injection Henv as <-. }
  subst env. vm_compute in Hsub. injection Hsub as <- <-.
  split; [vm_compute; reflexivity |].
  split; [vm_compute; reflexivity |].
  vm_compute. reflexivity.
Defined.

(** * Further properties of the code *)

(** ** The registry loader on ids that are not ranges *)

Lemma load_override_entry_ids m lg e :
  (load_override_entry (m, lg) e).1
  = foldl (fun m id => <[id := override_payload e]> m) m (entry_ids (oe_id e)).
Proof.
  unfold load_override_entry, entry_ids, override_payload.
  destruct (looks_like_range (oe_id e)); [| reflexivity].
  destruct (parse_range (oe_id e)) as [[a b]|]; reflexivity.
Qed.

Lemma load_transform_entry_ids m lg e :
  (load_transform_entry (m, lg) e).1
  = foldl (fun m id => <[id := transform_payload e]> m) m (entry_ids (te_id e)).
Proof.
  unfold load_transform_entry, entry_ids, transform_payload.
  destruct (looks_like_range (te_id e)); [| reflexivity].
  destruct (parse_range (te_id e)) as [[a b]|]; reflexivity.
Qed.

Lemma load_legacy_entry_ids m lg kv :
  (load_legacy_entry (m, lg) kv).1
  = foldl (fun m id => <[id := kv.2]> m) m (entry_ids kv.1).
Proof.
  destruct kv as [key value]. unfold load_legacy_entry, entry_ids. cbn [fst snd].
  destruct (looks_like_range key); [| reflexivity].
  destruct (parse_range key) as [[a b]|]; reflexivity.
Qed.

Lemma load_no_translation_entry_ids s lg e :
  (load_no_translation_entry (s, lg) e).1 = s ∪ list_to_set (entry_ids (ne_id e)).
Proof.
  unfold load_no_translation_entry, entry_ids.
  destruct (looks_like_range (ne_id e)).
  - destruct (parse_range (ne_id e)) as [[a b]|]; cbn [fst].
    + apply foldl_add_elem.
    + simpl. now rewrite union_empty_r_L.
  - cbn [fst]. simpl. now rewrite union_empty_r_L.
Qed.

Section UnparsedRange.
Variable id_item : string.
Hypothesis Hlooks : looks_like_range id_item = true.
Hypothesis Hparse : parse_range id_item = None.

Lemma load_override_entry_error m lg translation reason :
  load_override_entry (m, lg)
    {| oe_id := id_item; oe_translation := translation; oe_reason := reason |}
  = (m, lg ++ [LogRangeError CatOverride id_item]).
Proof. unfold load_override_entry; cbn [oe_id]. now rewrite Hlooks, Hparse. Qed.

Lemma load_transform_entry_error m lg patterns reason :
  load_transform_entry (m, lg)
    {| te_id := id_item; te_patterns := patterns; te_reason := reason |}
  = (m, lg ++ [LogRangeError CatTransform id_item]).
Proof. unfold load_transform_entry; cbn [te_id]. now rewrite Hlooks, Hparse. Qed.

Lemma load_no_translation_entry_error s lg comment :
  load_no_translation_entry (s, lg) {| ne_id := id_item; ne_comment := comment |}
  = (s, lg ++ [LogRangeError CatNoTranslation id_item]).
Proof. unfold load_no_translation_entry; cbn [ne_id]. now rewrite Hlooks, Hparse. Qed.

Lemma load_legacy_entry_error m lg value :
  load_legacy_entry (m, lg) (id_item, value)
  = (m, lg ++ [LogRangeError CatLegacy id_item]).
Proof. unfold load_legacy_entry. now rewrite Hlooks, Hparse. Qed.
End UnparsedRange.

Lemma split_char_cons (x : ascii) (s t : string) :
  Py.all_chars (not_char x) s = true ->
  Py.split_char x (s +:+ String x t) = s :: Py.split_char x t.
Proof.
  intros Hs. string_ind s.
  - now rewrite Ascii.eqb_refl.
  - simpl in Hs. apply andb_true_iff in Hs as [Hc Hs]. unfold not_char in Hc.
    apply negb_true_iff in Hc. rewrite Hc, IHs; auto.
Qed.

Lemma decimal_append (s t : string) : decimal s -> decimal t -> decimal (s +:+ t).
Proof.
  intros [Hne Hs] [_ Ht]. split.
  - destruct s; [congruence | discriminate].
  - rewrite all_chars_append, Hs, Ht. reflexivity.
Qed.

Lemma isdigit_decimal (s : string) : decimal s -> Py.isdigit s = true.
Proof.
  intros [Hne Hs]. unfold Py.isdigit. destruct s as [|c s]; [congruence |].
  revert Hs. apply all_chars_impl. intros ? ?. now apply isdecimal_facts.
Qed.

Lemma replace_dash_dot_decimal (s : string) :
  decimal s ->
  Py.replace_char "." EmptyString (Py.replace_char "-" EmptyString s) = s.
Proof.
  intros Hs.
  rewrite (replace_char_absent "-") by (apply decimal_no; [reflexivity | assumption]).
  apply replace_char_absent, decimal_no; [reflexivity | assumption].
Qed.

(** An id written as a negative number, and an id with two dashes, look
    like ranges and do not parse. *)
Lemma dash_prefixed_unparsed (sa : string) :
  decimal sa ->
  looks_like_range ("-" +:+ sa) = true /\ parse_range ("-" +:+ sa) = None.
Proof.
  intros Ha. change ("-" +:+ sa) with (EmptyString +:+ String "-" sa). split.
  - unfold looks_like_range. rewrite contains_middle. cbn [andb].
    rewrite ?append_nil.
    change (Py.replace_char "-" EmptyString (String "-" sa))
      with (EmptyString +:+ Py.replace_char "-" EmptyString sa).
    rewrite ?append_nil. rewrite (replace_dash_dot_decimal sa Ha).
    now apply isdigit_decimal.
  - unfold parse_range.
    rewrite split_char_once by (reflexivity || (apply decimal_no; [reflexivity | assumption])).
    reflexivity.
Qed.

Lemma replace_char_drop (x : ascii) (s t : string) :
  Py.all_chars (not_char x) s = true ->
  Py.replace_char x EmptyString (s +:+ String x t)
  = s +:+ Py.replace_char x EmptyString t.
Proof.
  intros Hs. rewrite (replace_char_append x), (replace_char_absent x) by assumption.
  simpl. now rewrite Ascii.eqb_refl.
Qed.

Lemma two_dashes_unparsed (sa sb sc : string) :
  decimal sa -> decimal sb -> decimal sc ->
  looks_like_range (sa +:+ "-" +:+ sb +:+ "-" +:+ sc) = true
  /\ parse_range (sa +:+ "-" +:+ sb +:+ "-" +:+ sc) = None.
Proof.
  intros Ha Hb Hc.
  change (sa +:+ "-" +:+ sb +:+ "-" +:+ sc)
    with (sa +:+ String "-" (sb +:+ String "-" sc)).
  assert (HD : decimal (sa +:+ sb +:+ sc))
    by (apply decimal_append; [| apply decimal_append]; assumption).
  split.
  - unfold looks_like_range. rewrite contains_middle. cbn [andb].
    rewrite !replace_char_drop by (apply decimal_no; [reflexivity | assumption]).
    rewrite (replace_char_absent "-" _ sc)
      by (apply decimal_no; [reflexivity | assumption]).
    rewrite (replace_char_absent ".") by (apply decimal_no; [reflexivity | exact HD]).
    now apply isdigit_decimal.
  - unfold parse_range.
    rewrite split_char_cons by (apply decimal_no; [reflexivity | assumption]).
    rewrite split_char_once by (apply decimal_no; [reflexivity | assumption]).
    reflexivity.
Qed.

(** X1. An id written as a negative number [-n], or with two dashes
    [a-b-c], takes the range branch of every loader and fails to parse
    there: nothing is stored under it, not even the id itself, and the
    parse error is printed. *)
Theorem malformed_range_skipped (a b c : Z) (id_item : string) :
  0 <= a -> 0 <= b -> 0 <= c ->
  id_item = "-" +:+ Py.str a
  \/ id_item = Py.str a +:+ "-" +:+ Py.str b +:+ "-" +:+ Py.str c ->
  entry_ids id_item = []
  /\ (forall m lg translation reason,
        load_override_entry (m, lg)
          {| oe_id := id_item; oe_translation := translation; oe_reason := reason |}
        = (m, lg ++ [LogRangeError CatOverride id_item]))
  /\ (forall m lg patterns reason,
        load_transform_entry (m, lg)
          {| te_id := id_item; te_patterns := patterns; te_reason := reason |}
        = (m, lg ++ [LogRangeError CatTransform id_item]))
  /\ (forall s lg comment,
        load_no_translation_entry (s, lg) {| ne_id := id_item; ne_comment := comment |}
        = (s, lg ++ [LogRangeError CatNoTranslation id_item]))
  /\ (forall m lg value,
        load_legacy_entry (m, lg) (id_item, value)
        = (m, lg ++ [LogRangeError CatLegacy id_item])).
Proof.
  intros Ha Hb Hc Hid.
  assert (Hun : looks_like_range id_item = true /\ parse_range id_item = None).
  { destruct Hid as [-> | ->].
    - apply dash_prefixed_unparsed. now apply str_decimal.
    - apply two_dashes_unparsed; now apply str_decimal. }
  destruct Hun as [Hlooks Hparse]. split; [| repeat split; intros].
  - unfold entry_ids. now rewrite Hlooks, Hparse.
  - now apply load_override_entry_error.
  - now apply load_transform_entry_error.
  - now apply load_no_translation_entry_error.
  - now apply load_legacy_entry_error.
Qed.

Lemma malformed_range_skipped_witness :
  0 <= 5 /\ entry_ids "-5" = []
  /\ load_no_translation_entry ({["7"]}, [])
       {| ne_id := "-5"; ne_comment := EmptyString |}
     = ({["7"]}, [LogRangeError CatNoTranslation "-5"]).
Proof.
  destruct (malformed_range_skipped 5 0 0 "-5") as (Hids & _ & _ & Hno & _);
    [lia | lia | lia | left; reflexivity |].
  split; [lia | split; [exact Hids | apply Hno]].
Defined.

(** ** Ids stored as they are *)

Lemma all_chars_replace_char (p : ascii -> bool) (x : ascii) (s : string) :
  Py.all_chars p (Py.replace_char x EmptyString s) = true ->
  Py.all_chars (fun c => p c || Ascii.eqb c x) s = true.
Proof.
  induction s as [|c s IH]; simpl; [reflexivity |].
  destruct (Ascii.eqb c x) eqn:E.
  - rewrite append_nil. intros H. rewrite orb_true_r. auto.
  - simpl. intros [Hc Hs]%andb_true_iff. rewrite Hc. simpl. auto.
Qed.

Lemma looks_like_range_chars (id_item : string) :
  looks_like_range id_item = true ->
  Py.contains "-" id_item = true /\ Py.all_chars range_char id_item = true.
Proof.
  unfold looks_like_range. intros [Hdash Hdigit]%andb_true_iff.
  split; [exact Hdash |].
  unfold Py.isdigit in Hdigit.
  assert (Hall : Py.all_chars Py.isdigit_char
                   (Py.replace_char "." EmptyString
                      (Py.replace_char "-" EmptyString id_item)) = true).
  { destruct (Py.replace_char "." EmptyString _); [discriminate | exact Hdigit]. }
  apply all_chars_replace_char, all_chars_replace_char in Hall.
  revert Hall. apply all_chars_impl. intros c Hc. unfold range_char.
  destruct (Py.isdigit_char c), (Ascii.eqb c "."), (Ascii.eqb c "-"); auto.
Qed.

(** X2. An id without a dash, or with a character that is neither a
    digit, a dash nor a dot, is stored as it is in every category: the
    entry is bound to the id itself and all other ids are left alone. *)
Theorem plain_id_stored_verbatim (id_item : string) :
  Py.contains "-" id_item = false \/ Py.all_chars range_char id_item = false ->
  entry_ids id_item = [id_item]
  /\ (forall m lg translation reason,
        load_override_entry (m, lg)
          {| oe_id := id_item; oe_translation := translation; oe_reason := reason |}
        = (<[id_item := {| od_translation := translation; od_reason := reason |}]> m,
           lg ++ [LogAddedId CatOverride id_item (reason_info reason)]))
  /\ (forall m lg patterns reason,
        load_transform_entry (m, lg)
          {| te_id := id_item; te_patterns := patterns; te_reason := reason |}
        = (<[id_item := {| td_patterns := patterns; td_reason := reason |}]> m,
           lg ++ [LogAddedId CatTransform id_item (reason_info reason)]))
  /\ (forall s lg comment,
        load_no_translation_entry (s, lg) {| ne_id := id_item; ne_comment := comment |}
        = (s ∪ {[id_item]},
           lg ++ [LogAddedId CatNoTranslation id_item (reason_info comment)]))
  /\ (forall m lg value,
        load_legacy_entry (m, lg) (id_item, value) = (<[id_item := value]> m, lg)).
Proof.
  intros Hplain.
  assert (Hlooks : looks_like_range id_item = false).
  { destruct (looks_like_range id_item) eqn:E; [| reflexivity].
    apply looks_like_range_chars in E as [Hd Hc].
    destruct Hplain; congruence. }
  split; [| repeat split; intros].
  - unfold entry_ids. now rewrite Hlooks.
  - unfold load_override_entry; cbn [oe_id oe_translation oe_reason].
    now rewrite Hlooks.
  - unfold load_transform_entry; cbn [te_id te_patterns te_reason].
    now rewrite Hlooks.
  - unfold load_no_translation_entry; cbn [ne_id ne_comment]. now rewrite Hlooks.
  - unfold load_legacy_entry. now rewrite Hlooks.
Qed.

Lemma plain_id_stored_verbatim_witness :
  Py.all_chars range_char "menu-title" = false
  /\ (load_override_entry (∅, [])
        {| oe_id := "menu-title"; oe_translation := "Titolo";
           oe_reason := EmptyString |}).1 !! "menu-title"
     = Some {| od_translation := "Titolo"; od_reason := EmptyString |}.
Proof.
  assert (H : Py.all_chars range_char "menu-title" = false) by reflexivity.
  split; [exact H |].
  destruct (plain_id_stored_verbatim "menu-title" (or_intror H)) as (_ & Hov & _).
  rewrite Hov. cbn [fst]. apply lookup_insert_eq.
Defined.

(** ** The category maps after a whole list of entries *)

Lemma foldl_load_override_lookup (es : list override_entry) m lg (k : string) :
  (foldl load_override_entry (m, lg) es).1 !! k
  = foldl (fun acc e => if decide (k ∈ entry_ids (oe_id e))
                        then Some (override_payload e) else acc) (m !! k) es.
Proof.
  revert m lg. induction es as [|e es IH]; intros m lg; [reflexivity |].
  cbn [foldl]. destruct (load_override_entry (m, lg) e) as [m' lg'] eqn:E.
  rewrite IH. f_equal.
  replace m' with (load_override_entry (m, lg) e).1 by now rewrite E.
  rewrite load_override_entry_ids. apply foldl_insert_overlay.
Qed.

Lemma foldl_load_transform_lookup (es : list transform_entry) m lg (k : string) :
  (foldl load_transform_entry (m, lg) es).1 !! k
  = foldl (fun acc e => if decide (k ∈ entry_ids (te_id e))
                        then Some (transform_payload e) else acc) (m !! k) es.
Proof.
  revert m lg. induction es as [|e es IH]; intros m lg; [reflexivity |].
  cbn [foldl]. destruct (load_transform_entry (m, lg) e) as [m' lg'] eqn:E.
  rewrite IH. f_equal.
  replace m' with (load_transform_entry (m, lg) e).1 by now rewrite E.
  rewrite load_transform_entry_ids. apply foldl_insert_overlay.
Qed.

Lemma foldl_load_legacy_lookup (es : pydict legacy_case) m lg (k : string) :
  (foldl load_legacy_entry (m, lg) es).1 !! k
  = foldl (fun acc kv => if decide (k ∈ entry_ids kv.1) then Some kv.2 else acc)
      (m !! k) es.
Proof.
  revert m lg. induction es as [|e es IH]; intros m lg; [reflexivity |].
  cbn [foldl]. destruct (load_legacy_entry (m, lg) e) as [m' lg'] eqn:E.
  rewrite IH. f_equal.
  replace m' with (load_legacy_entry (m, lg) e).1 by now rewrite E.
  rewrite load_legacy_entry_ids. apply foldl_insert_overlay.
Qed.

Lemma foldl_load_no_translation_set (es : list no_translation_entry) s lg :
  (foldl load_no_translation_entry (s, lg) es).1
  = s ∪ list_to_set (concat ((fun e => entry_ids (ne_id e)) <$> es)).
Proof.
  revert s lg. induction es as [|e es IH]; intros s lg.
  - simpl. now rewrite union_empty_r_L.
  - cbn [foldl]. destruct (load_no_translation_entry (s, lg) e) as [s' lg'] eqn:E.
    rewrite IH.
    replace s' with (load_no_translation_entry (s, lg) e).1 by now rewrite E.
    rewrite load_no_translation_entry_ids, fmap_cons. cbn [concat].
    rewrite list_to_set_app_L. now rewrite union_assoc_L.
Qed.

Lemma last_for_nil {E V} (id_of : E -> string) (payload : E -> V) (k : string) :
  last_for id_of payload k [] = None.
Proof. reflexivity. Qed.

(** The lines printed while loading have no bearing on what is stored. *)
Lemma foldl_load_override_log es m lg lg' :
  (foldl load_override_entry (m, lg) es).1 = (foldl load_override_entry (m, lg') es).1.
Proof. apply map_eq. intros k. now rewrite !foldl_load_override_lookup. Qed.

Lemma foldl_load_transform_log es m lg lg' :
  (foldl load_transform_entry (m, lg) es).1 = (foldl load_transform_entry (m, lg') es).1.
Proof. apply map_eq. intros k. now rewrite !foldl_load_transform_lookup. Qed.

Lemma foldl_load_legacy_log es m lg lg' :
  (foldl load_legacy_entry (m, lg) es).1 = (foldl load_legacy_entry (m, lg') es).1.
Proof. apply map_eq. intros k. now rewrite !foldl_load_legacy_lookup. Qed.

Lemma foldl_load_no_translation_log es s lg lg' :
  (foldl load_no_translation_entry (s, lg) es).1
  = (foldl load_no_translation_entry (s, lg') es).1.
Proof. now rewrite !foldl_load_no_translation_set. Qed.

Ltac name_pair :=
  match goal with
  | |- context [match ?x with (_, _) => _ end] =>
      let E := fresh "E" in
      destruct x as [? ?] eqn:E;
      apply (f_equal fst) in E; cbn [fst] in E; subst
  end.

Lemma registry_fields (data : special_cases_json) (lg : log) :
  (load_special_cases data lg).1
  = {| special_cases := (foldl load_legacy_entry (∅, []) (js_rest data)).1;
       global_add_translations := default [] (js_add_translation data);
       global_no_translation_ids :=
         (foldl load_no_translation_entry (∅, [])
            (default [] (js_no_translation data))).1;
       global_override_translations :=
         (foldl load_override_entry (∅, [])
            (default [] (js_override_translation data))).1;
       global_transform_translations :=
         (foldl load_transform_entry (∅, [])
            (default [] (js_transform_translation data))).1;
       add_block_data := default [] (js_add_block data) |}.
Proof.
  unfold load_special_cases.
  destruct (js_add_translation data) as [tr|], (js_add_block data) as [bl|],
    (js_override_translation data) as [ov|],
    (js_transform_translation data) as [tf|],
    (js_no_translation data) as [nt|];
    cbn [default]; cbn beta iota zeta;
    repeat (name_pair; cbn beta iota zeta);
    cbn [fst]; f_equal;
    first [ apply foldl_load_legacy_log | apply foldl_load_no_translation_log
          | apply foldl_load_override_log | apply foldl_load_transform_log
          | reflexivity ].
Qed.

Lemma last_for_app {E V} (id_of : E -> string) (payload : E -> V) (k : string)
    (es1 es2 : list E) :
  last_for id_of payload k (es1 ++ es2)
  = match last_for id_of payload k es2 with
    | Some v => Some v
    | None => last_for id_of payload k es1
    end.
Proof.
  unfold last_for. rewrite foldl_app.
  generalize (foldl (fun acc e => if decide (k ∈ entry_ids (id_of e))
                                  then Some (payload e) else acc) None es1).
  induction es2 as [|e es2 IH] using rev_ind; intros acc.
  - simpl. reflexivity.
  - rewrite !foldl_app. cbn [foldl]. case_decide; [reflexivity | apply IH].
Qed.

Lemma last_for_none {E V} (id_of : E -> string) (payload : E -> V) (k : string)
    (es : list E) :
  last_for id_of payload k es = None <-> forall e, e ∈ es -> k ∉ entry_ids (id_of e).
Proof.
  induction es as [|e es IH] using rev_ind.
  - split; [intros _ e He; now apply elem_of_nil in He | reflexivity].
  - rewrite last_for_app. unfold last_for at 1. cbn [foldl]. split.
    + case_decide as Hk; [discriminate |]. intros Hes e' He'.
      apply elem_of_app in He' as [He' | He'].
      * now apply IH.
      * apply list_elem_of_singleton in He' as ->. exact Hk.
    + intros Hall. rewrite decide_False.
      * apply IH. intros e' He'. apply Hall, elem_of_app. now left.
      * apply Hall, elem_of_app. right. now apply list_elem_of_singleton.
Qed.

Lemma elem_of_concat_iff {A} (x : A) (ls : list (list A)) :
  x ∈ concat ls <-> exists l, x ∈ l /\ l ∈ ls.
Proof.
  induction ls as [|l ls IH]; cbn [concat].
  - split; [intros H; now apply elem_of_nil in H |].
    intros (l & _ & H). now apply elem_of_nil in H.
  - rewrite elem_of_app, IH. split.
    + intros [H | (l' & Hx & Hl')].
      * exists l. split; [exact H | left].
      * exists l'. split; [exact Hx | now right].
    + intros (l' & Hx & Hl'). apply elem_of_cons in Hl' as [-> | Hl'];
        [now left | right; eauto].
Qed.

(** ** Ranges in the loaded registry (C5) *)

Lemma range_string_entry_ids (a b : Z) :
  0 <= a -> 0 <= b -> entry_ids (range_string a b) = range_ids a b.
Proof.
  intros Ha Hb. unfold entry_ids.
  destruct (range_string_parses a b) as [-> ->]; [lia | lia |]. reflexivity.
Qed.

Lemma range_string_ids (a b k : Z) :
  0 <= a -> a <= k <= b -> Py.str k ∈ entry_ids (range_string a b).
Proof.
  intros Ha Hk. rewrite range_string_entry_ids by lia.
  apply elem_of_range_ids. eauto.
Qed.

Lemma last_for_decides {E V} (id_of : E -> string) (payload : E -> V) (k : string)
    (es1 : list E) (e : E) (es2 : list E) :
  k ∈ entry_ids (id_of e) ->
  (forall e', e' ∈ es2 -> k ∉ entry_ids (id_of e')) ->
  last_for id_of payload k (es1 ++ e :: es2) = Some (payload e).
Proof.
  intros Hk Hlater.
  change (es1 ++ e :: es2) with (es1 ++ [e] ++ es2).
  rewrite app_assoc, last_for_app.
  rewrite (proj2 (last_for_none id_of payload k es2)) by assumption.
  rewrite last_for_app. unfold last_for at 1. cbn [foldl].
  now rewrite decide_True.
Qed.

(** A map that answers as [last_for] does has every range loaded. *)
Lemma range_loaded_last_for {E V} (id_of : E -> string) (payload : E -> V)
    (a b : Z) (es : list E) (loaded : gmap string V) :
  0 <= a -> a <= b ->
  (forall k, loaded !! k = last_for id_of payload k es) ->
  range_loaded id_of payload a b es loaded.
Proof.
  intros Ha Hab Hloaded es1 e es2 -> Hid.
  assert (Hids : entry_ids (id_of e) = range_ids a b).
  { rewrite Hid. apply range_string_entry_ids; lia. }
  split; [| split; [| split]].
  - intros i Hi Hlater. rewrite Hloaded. apply last_for_decides; [| exact Hlater].
    rewrite Hid. apply range_string_ids; lia.
  - intros i a' b' es2a e' es2b Hi Ha' Hi' -> Hid' Hlater. rewrite Hloaded.
    replace (es1 ++ e :: es2a ++ e' :: es2b) with ((es1 ++ e :: es2a) ++ e' :: es2b)
      by (now rewrite <- app_assoc).
    apply last_for_decides; [| exact Hlater].
    rewrite Hid'. apply range_string_ids; lia.
  - intros k Hk Hothers. rewrite Hloaded. apply last_for_none.
    intros e0 He0. apply elem_of_app in He0 as [He0 | He0].
    + apply Hothers, elem_of_app. now left.
    + apply elem_of_cons in He0 as [-> | He0].
      * now rewrite Hids.
      * apply Hothers, elem_of_app. now right.
  - intros -> ->.
    assert (Hdom : dom loaded = list_to_set (range_ids a b)).
    { apply set_eq. intros k.
      rewrite elem_of_dom, Hloaded, elem_of_list_to_set, <- Hids.
      unfold last_for. cbn [app foldl].
      case_decide as Hk; split; intros H'; try assumption.
      - eauto.
      - now destruct H'.
      - contradiction. }
    split; [exact Hdom |].
    rewrite <- size_dom, Hdom, size_list_to_set by apply NoDup_range_ids.
    now apply length_range_ids.
Qed.

Lemma range_in_set_concat {E} (id_of : E -> string) (a b : Z) (es : list E)
    (loaded : gset string) :
  0 <= a -> a <= b ->
  loaded = list_to_set (concat ((fun e => entry_ids (id_of e)) <$> es)) ->
  range_in_set id_of a b es loaded.
Proof.
  intros Ha Hab -> es1 e es2 -> Hid.
  assert (Hids : entry_ids (id_of e) = range_ids a b).
  { rewrite Hid. apply range_string_entry_ids; lia. }
  split; [| split].
  - intros i Hi. apply elem_of_list_to_set, elem_of_concat_iff.
    exists (entry_ids (id_of e)). split.
    + rewrite Hid. apply range_string_ids; lia.
    + apply list_elem_of_fmap. exists e. split; [reflexivity |].
      apply elem_of_app. right. left.
  - intros k Hk Hothers Hin.
    apply elem_of_list_to_set, elem_of_concat_iff in Hin as (ids & Hkin & Hin).
    apply list_elem_of_fmap in Hin as (e0 & -> & He0).
    apply elem_of_app in He0 as [He0 | He0].
    + apply (Hothers e0); [apply elem_of_app; now left | exact Hkin].
    + apply elem_of_cons in He0 as [-> | He0].
      * now rewrite Hids in Hkin.
      * apply (Hothers e0); [apply elem_of_app; now right | exact Hkin].
  - intros -> ->. cbn [app fmap list_fmap concat]. rewrite app_nil_r, Hids.
    split; [reflexivity |].
    rewrite size_list_to_set by apply NoDup_range_ids. now apply length_range_ids.
Qed.

(** C5. In the registry loaded from a special-cases file, a range id
    [<a>-<b>] with [0 <= a <= b] stands for exactly [b - a + 1] distinct
    ids, one per integer of the inclusive range.  In each category
    (overrides, transforms, legacy cases, ids not to be translated) an
    entry with that id binds every id of the range to the entry's own
    payload, unless a later entry of the category stands for the id too:
    then the payload stored is that of the last such entry, for two
    ranges as for any other two entries.  An id outside the range is
    bound only if another entry stands for it, and a category whose only
    entry is the range holds exactly [b - a + 1] bindings. *)
Theorem range_expansion_exact (data : special_cases_json) (lg : log) (a b : Z) :
  0 <= a -> a <= b ->
  let reg := (load_special_cases data lg).1 in
  (entry_ids (range_string a b) = range_ids a b
   /\ Z.of_nat (length (range_ids a b)) = b - a + 1
   /\ NoDup (range_ids a b)
   /\ forall k, k ∈ range_ids a b <-> exists i, a <= i <= b /\ k = Py.str i)
  /\ range_loaded oe_id override_payload a b
       (default [] (js_override_translation data)) (global_override_translations reg)
  /\ range_loaded te_id transform_payload a b
       (default [] (js_transform_translation data)) (global_transform_translations reg)
  /\ range_loaded fst snd a b (js_rest data) (special_cases reg)
  /\ range_in_set ne_id a b
       (default [] (js_no_translation data)) (global_no_translation_ids reg).
Proof.
  intros Ha Hab reg. subst reg. rewrite registry_fields.
  cbn [global_override_translations global_transform_translations special_cases
       global_no_translation_ids].
  split; [| split; [| split; [| split]]].
  - split; [apply range_string_entry_ids; lia |].
    split; [now apply length_range_ids |].
    split; [apply NoDup_range_ids | apply elem_of_range_ids].
  - apply range_loaded_last_for; [assumption | assumption |]. intros k.
    now rewrite foldl_load_override_lookup, lookup_empty.
  - apply range_loaded_last_for; [assumption | assumption |]. intros k.
    now rewrite foldl_load_transform_lookup, lookup_empty.
  - apply range_loaded_last_for; [assumption | assumption |]. intros k.
    now rewrite foldl_load_legacy_lookup, lookup_empty.
  - apply range_in_set_concat; [assumption | assumption |].
    now rewrite foldl_load_no_translation_set, union_empty_l_L.
Qed.

Lemma range_expansion_exact_witness :
  let reg := (load_special_cases overlapping_ranges_data []).1 in
  0 <= 3 /\ 3 <= 5
  /\ Z.of_nat (length (range_ids 3 5)) = 5 - 3 + 1
  /\ global_override_translations reg !! "3" = Some (override_payload first_range_entry)
  /\ global_override_translations reg !! "4" = Some (override_payload second_range_entry)
  /\ global_override_translations reg !! "7" = None.
Proof.
  intros reg.
  destruct (range_expansion_exact overlapping_ranges_data [] 3 5)
    as ((_ & Hlen & _) & Hov & _); [lia | lia |].
  destruct (Hov [] first_range_entry [second_range_entry] eq_refl eq_refl)
    as (Hfirst & Hlater & Hout & _).
  split; [lia | split; [lia | split; [exact Hlen |]]].
  split; [| split].
  - apply (Hfirst 3); [lia |]. intros e' He'.
    apply list_elem_of_singleton in He' as ->. intros Hin. vm_compute in Hin.
    repeat (apply elem_of_cons in Hin as [Hin | Hin]; [discriminate Hin |]).
    now apply elem_of_nil in Hin.
  - apply (Hlater 4 4 6 [] second_range_entry []); try lia; try reflexivity.
    intros e'' He''. now apply elem_of_nil in He''.
  - apply (Hout "7").
    + intros Hin. vm_compute in Hin.
      repeat (apply elem_of_cons in Hin as [Hin | Hin]; [discriminate Hin |]).
      now apply elem_of_nil in Hin.
    + intros e' He'. cbn [app] in He'.
      apply list_elem_of_singleton in He' as ->. intros Hin. vm_compute in Hin.
      repeat (apply elem_of_cons in Hin as [Hin | Hin]; [discriminate Hin |]).
      now apply elem_of_nil in Hin.
Defined.

(** X3. In each category map of the loaded registry an id is bound to
    the payload of the last entry of the file that stands for it, as a
    single id or through a range, and is unbound when no entry does:
    later entries overwrite earlier ones, whatever their form. *)
Theorem registry_last_entry_wins (data : special_cases_json) (lg : log) (k : string) :
  let reg := (load_special_cases data lg).1 in
  global_override_translations reg !! k
    = last_for oe_id override_payload k (default [] (js_override_translation data))
  /\ global_transform_translations reg !! k
    = last_for te_id transform_payload k (default [] (js_transform_translation data))
  /\ special_cases reg !! k = last_for fst snd k (js_rest data)
  /\ (forall (E V : Type) (id_of : E -> string) (payload : E -> V) es1 e es2,
        k ∈ entry_ids (id_of e) ->
        (forall e', e' ∈ es2 -> k ∉ entry_ids (id_of e')) ->
        last_for id_of payload k (es1 ++ e :: es2) = Some (payload e))
  /\ (forall (E V : Type) (id_of : E -> string) (payload : E -> V) es,
        (forall e, e ∈ es -> k ∉ entry_ids (id_of e)) ->
        last_for id_of payload k es = None).
Proof.
  intros reg. subst reg. rewrite registry_fields.
  cbn [global_override_translations global_transform_translations special_cases].
  rewrite foldl_load_override_lookup, foldl_load_transform_lookup,
    foldl_load_legacy_lookup, !lookup_empty.
  repeat split.
  - intros E V id_of payload es1 e es2 Hk Hlater.
    change (es1 ++ e :: es2) with (es1 ++ [e] ++ es2).
    rewrite app_assoc, last_for_app.
    rewrite (proj2 (last_for_none id_of payload k es2)) by assumption.
    rewrite last_for_app. unfold last_for at 1. cbn [foldl].
    now rewrite decide_True.
  - intros E V id_of payload es Hall. now apply last_for_none.
Qed.

(** X4. The no-translation set of the loaded registry holds exactly the
    ids the entries of the file stand for. *)
Theorem no_translation_ids_loaded (data : special_cases_json) (lg : log) (k : string) :
  k ∈ global_no_translation_ids (load_special_cases data lg).1
  <-> exists e, e ∈ default [] (js_no_translation data) /\ k ∈ entry_ids (ne_id e).
Proof.
  rewrite registry_fields. cbn [global_no_translation_ids].
  rewrite foldl_load_no_translation_set, union_empty_l_L, elem_of_list_to_set.
  rewrite elem_of_concat_iff. split.
  - intros (ids & Hk & Hids). apply list_elem_of_fmap in Hids as (e & -> & He). eauto.
  - intros (e & He & Hk). exists (entry_ids (ne_id e)). split; [exact Hk |].
    apply list_elem_of_fmap. eauto.
Qed.

(** ** The dictionary store *)

Lemma dict_get_set {V} (d : pydict V) (k k' : string) (v : V) :
  dict_get (dict_set d k v) k' = if String.eqb k k' then Some v else dict_get d k'.
Proof.
  induction d as [|[k0 v0] d IH]; simpl.
  - destruct (String.eqb k k'); reflexivity.
  - destruct (String.eqb k0 k) eqn:E0; simpl.
    + apply String.eqb_eq in E0 as ->. destruct (String.eqb k k'); reflexivity.
    + rewrite IH. destruct (String.eqb k0 k') eqn:E1; [| reflexivity].
      apply String.eqb_eq in E1 as ->. now rewrite String.eqb_sym, E0.
Qed.

Lemma dict_get_absent {V} (d : pydict V) (k : string) :
  k ∉ dict_keys d -> dict_get d k = None.
Proof.
  induction d as [|[k0 v0] d IH]; [reflexivity |].
  change (dict_keys ((k0, v0) :: d)) with (k0 :: dict_keys d).
  rewrite not_elem_of_cons. intros [Hne Hnin]. simpl.
  destruct (String.eqb k0 k) eqn:E; [| now apply IH].
  apply String.eqb_eq in E. congruence.
Qed.

(** Merging a dictionary with unique keys: its entries win. *)
Lemma dict_get_update {V} (d other : pydict V) (k : string) :
  NoDup (dict_keys other) ->
  dict_get (dict_update d other) k
  = match dict_get other k with
    | Some v => Some v
    | None => dict_get d k
    end.
Proof.
  unfold dict_update. revert d.
  induction other as [|[k0 v0] other IH]; intros d Hnd; [reflexivity |].
  change (dict_keys ((k0, v0) :: other)) with (k0 :: dict_keys other) in Hnd.
  apply NoDup_cons in Hnd as [Hnin Hnd]. cbn [foldl fst snd].
  rewrite IH by assumption. simpl. rewrite dict_get_set.
  destruct (String.eqb k0 k) eqn:E; [| reflexivity].
  apply String.eqb_eq in E as <-. now rewrite dict_get_absent.
Qed.

Lemma files_with_cons sel file files :
  files_with sel (file :: files)
  = match (if endswith file.1 ".json" && sel file.1 then file.2 else None) with
    | Some data => data :: files_with sel files
    | None => files_with sel files
    end.
Proof. reflexivity. Qed.

Lemma prefix_exclusive (filename : string) :
  match is_type_file filename, is_move_file filename,
        is_ability_file filename, is_item_file filename with
  | true, false, false, false | false, true, false, false
  | false, false, true, false | false, false, false, true
  | false, false, false, false => True
  | _, _, _, _ => False
  end.
Proof.
  unfold is_type_file, is_move_file, is_ability_file, is_item_file.
  destruct filename as [|c s]; [exact I |].
  change (Py.startswith (String c s) "type-")
    with (Ascii.eqb "t" c && Py.startswith s "ype-").
  change (Py.startswith (String c s) "move-")
    with (Ascii.eqb "m" c && Py.startswith s "ove-").
  change (Py.startswith (String c s) "ability-")
    with (Ascii.eqb "a" c && Py.startswith s "bility-").
  change (Py.startswith (String c s) "item-")
    with (Ascii.eqb "i" c && Py.startswith s "tem-").
  destruct (Ascii.eqb "t" c) eqn:Et, (Ascii.eqb "m" c) eqn:Em,
    (Ascii.eqb "a" c) eqn:Ea, (Ascii.eqb "i" c) eqn:Ei;
    repeat match goal with H : Ascii.eqb _ c = true |- _ =>
             apply Ascii.eqb_eq in H end;
    try congruence; cbn [andb];
    repeat match goal with |- context [Py.startswith s ?p] =>
             destruct (Py.startswith s p) end; exact I.
Qed.

Lemma load_translation_file_fields d file :
  type_translations (load_translation_file d file)
    = merged is_type_file file (type_translations d)
  /\ move_translations (load_translation_file d file)
    = merged is_move_file file (move_translations d)
  /\ ability_translations (load_translation_file d file)
    = merged is_ability_file file (ability_translations d)
  /\ item_translations (load_translation_file d file)
    = merged is_item_file file (item_translations d)
  /\ translations (load_translation_file d file)
    = merged is_generic_file file (translations d).
Proof.
  destruct file as [filename parsed]. unfold load_translation_file, merged.
  cbn [fst snd]. pose proof (prefix_exclusive filename) as Hex.
  unfold is_generic_file.
  fold (is_type_file filename) (is_move_file filename)
    (is_ability_file filename) (is_item_file filename).
  destruct (endswith filename ".json"); [| repeat split; reflexivity].
  destruct parsed as [data|];
    destruct (is_type_file filename), (is_move_file filename),
      (is_ability_file filename), (is_item_file filename);
    try contradiction; repeat split; reflexivity.
Qed.

Lemma foldl_files_with (sel : string -> bool)
    (proj : dictionaries -> pydict string) :
  (forall d file, proj (load_translation_file d file) = merged sel file (proj d)) ->
  forall files d,
    proj (foldl load_translation_file d files)
    = foldl dict_update (proj d) (files_with sel files).
Proof.
  intros Hstep files. induction files as [|file files IH]; intros d; [reflexivity |].
  cbn [foldl]. rewrite IH, Hstep, files_with_cons. unfold merged.
  destruct (if endswith file.1 ".json" && sel file.1 then file.2 else None);
    reflexivity.
Qed.

(** X5. Each dictionary is built from the files of its own prefix only:
    the JSON files named [type-], [move-], [ability-] or [item-] that
    parse, merged in the order of the directory; every other JSON file
    that parses goes to the generic dictionary.  Files of another
    extension and files that do not parse leave all five as they are. *)
Theorem dictionary_files_by_prefix (d : dictionaries)
    (files : list (string * option (pydict string))) :
  let d' := foldl load_translation_file d files in
  type_translations d'
    = foldl dict_update (type_translations d) (files_with is_type_file files)
  /\ move_translations d'
    = foldl dict_update (move_translations d) (files_with is_move_file files)
  /\ ability_translations d'
    = foldl dict_update (ability_translations d) (files_with is_ability_file files)
  /\ item_translations d'
    = foldl dict_update (item_translations d) (files_with is_item_file files)
  /\ translations d'
    = foldl dict_update (translations d) (files_with is_generic_file files).
Proof.
  intros d'. subst d'.
  repeat split; apply foldl_files_with; intros d0 file;
    apply (load_translation_file_fields d0 file).
Qed.

(** X6. Merging is last-write-wins.  A JSON file that parses, its keys
    being unique, overrides the entries of the dictionary of its prefix
    and keeps the others; the global additional translations of the
    registry do the same to the generic dictionary, after all files, and
    touch no other dictionary. *)
Theorem dictionary_merge_last_wins :
  (forall d filename data k,
     endswith filename ".json" = true -> NoDup (dict_keys data) ->
     dict_get (category_dict filename (load_translation_file d (filename, Some data))) k
     = match dict_get data k with
       | Some v => Some v
       | None => dict_get (category_dict filename d) k
       end)
  /\ (forall files global_add k,
       NoDup (dict_keys global_add) ->
       let loaded := foldl load_translation_file empty_dictionaries files in
       let d := load_dictionaries files global_add in
       dict_get (translations d) k
       = match dict_get global_add k with
         | Some v => Some v
         | None => dict_get (translations loaded) k
         end
       /\ type_translations d = type_translations loaded
       /\ move_translations d = move_translations loaded
       /\ ability_translations d = ability_translations loaded
       /\ item_translations d = item_translations loaded).
Proof.
  split.
  - intros d filename data k Hjson Hnd.
    destruct (load_translation_file_fields d (filename, Some data))
      as (Ht & Hm & Ha & Hi & Hg).
    unfold merged in *. cbn [fst snd] in *. rewrite Hjson in *. cbn [andb] in *.
    unfold category_dict. pose proof (prefix_exclusive filename) as Hex.
    unfold is_generic_file in Hg.
    destruct (is_type_file filename), (is_move_file filename),
      (is_ability_file filename), (is_item_file filename);
      try contradiction; cbn [orb negb] in Hg;
      first [rewrite Ht | rewrite Hm | rewrite Ha | rewrite Hi | rewrite Hg];
      now apply dict_get_update.
  - intros files global_add k Hnd loaded d. subst loaded d.
    unfold load_dictionaries.
    cbn [translations type_translations move_translations ability_translations
         item_translations].
    split; [now apply dict_get_update | repeat split].
Qed.

Lemma dictionary_merge_last_wins_witness :
  endswith "type-it.json" ".json" = true
  /\ NoDup (dict_keys [("Fire", "Fuoco")])
  /\ dict_get (type_translations
                 (load_translation_file
                    {| translations := []; type_translations := [("Fire", "Fire")];
                       move_translations := []; ability_translations := [];
                       item_translations := [] |}
                    ("type-it.json", Some [("Fire", "Fuoco")]))) "Fire"
     = Some "Fuoco".
Proof.
  assert (Hj : endswith "type-it.json" ".json" = true) by reflexivity.
  assert (Hnd : NoDup (dict_keys [("Fire", "Fuoco")])) by apply NoDup_singleton.
  split; [exact Hj | split; [exact Hnd |]].
  exact (proj1 dictionary_merge_last_wins
           {| translations := []; type_translations := [("Fire", "Fire")];
              move_translations := []; ability_translations := [];
              item_translations := [] |}
           "type-it.json" [("Fire", "Fuoco")] "Fire" Hj Hnd).
Defined.

(** ** The resolver *)

Lemma dict_get_key {V} (d : pydict V) (k : string) (v : V) :
  dict_get d k = Some v -> k ∈ dict_keys d.
Proof.
  induction d as [|[k0 v0] d IH]; simpl; [discriminate |].
  destruct (String.eqb k0 k) eqn:E.
  - apply String.eqb_eq in E as ->. intros _. left.
  - intros H. right. now apply IH.
Qed.

Lemma stored_translation_key (d : dictionaries) (t v : string) :
  stored_translation d t v -> dictionary_key d t.
Proof.
  unfold stored_translation, dictionary_key.
  intros [H | [H | [H | [H | H]]]]; apply dict_get_key in H; tauto.
Qed.

Lemma resolver_sound (d : dictionaries) (t c v : string) :
  get_contextual_translation d t c = Some v -> stored_translation d t v.
Proof.
  unfold get_contextual_translation, parentheses_type, stored_translation.
  destruct (is_description c && _); [discriminate |].
  destruct (Py.contains "(" c && Py.contains ")" c);
    [destruct (parens_search c) as [g|]; [destruct (String.eqb t g) |] |];
    try (destruct (dict_get (type_translations d) t) eqn:Ht; [intros [= <-]; tauto |]);
    repeat match goal with
           | |- context [if ?b then _ else _] => destruct b
           end;
    intros H; try discriminate; tauto.
Qed.

(** X7. The resolver never makes a translation up: what it returns for a
    term is the value stored under that very term in one of the five
    dictionaries, and for a term that is a key of none of them it returns
    nothing, whatever the context. *)
Theorem resolver_answers_from_dictionaries (d : dictionaries) (t c : string) :
  (forall v, get_contextual_translation d t c = Some v -> stored_translation d t v)
  /\ (~ dictionary_key d t -> get_contextual_translation d t c = None).
Proof.
  split; [intros v; apply resolver_sound |].
  intros Hkey. destruct (get_contextual_translation d t c) as [v|] eqn:E;
    [| reflexivity].
  exfalso. apply Hkey. eapply stored_translation_key, resolver_sound, E.
Qed.

Lemma resolver_answers_from_dictionaries_witness :
  ~ dictionary_key fire_dictionaries "Water"
  /\ get_contextual_translation fire_dictionaries "Water" "Water type" = None.
Proof.
  assert (H : ~ dictionary_key fire_dictionaries "Water").
  { unfold dictionary_key, fire_dictionaries, dict_keys.
    intros [H | [H | [H | [H | H]]]]; simpl in H;
      try (now apply elem_of_nil in H);
      apply list_elem_of_singleton in H; discriminate H. }
  split; [exact H |].
  exact (proj2 (resolver_answers_from_dictionaries fire_dictionaries "Water"
                  "Water type") H).
Defined.

(** ** Descriptions *)

Lemma description_single_word (d : dictionaries) (t c : string) :
  is_description c = true -> single_word t ->
  get_contextual_translation d t c = None.
Proof.
  intros Hc Ht. unfold get_contextual_translation, single_word in *.
  rewrite Hc, Ht. reflexivity.
Qed.

Lemma partial_substitution_description (d : dictionaries) (original_text : string)
    (patterns : list (term_pattern * string)) (working_text : string) :
  is_description original_text = true ->
  Forall (fun p => single_word p.2) patterns ->
  partial_substitution d original_text patterns working_text = Ok working_text.
Proof.
  intros Hdesc Hall. induction Hall as [|[p term] patterns Hterm _ IH];
    [reflexivity |].
  cbn [partial_substitution].
  rewrite (description_single_word d term original_text Hdesc Hterm).
  destruct (pattern_search p working_text); exact IH.
Qed.

(** X8. In a description, that is a text of more than fifty characters
    or with one of the conversational phrases, no one-word term is ever
    substituted: when all the terms of the index are single words and the
    whole text is not itself a key of a dictionary, the default path
    returns the record as it was and counts it as not translated. *)
Theorem description_left_untranslated (env : environment) (m : record_match)
    (original_text : string) (st : run_state) :
  is_description original_text = true ->
  Forall (fun p => single_word p.2) (compiled_patterns env) ->
  ~ dictionary_key (env_dicts env) original_text ->
  partial_substitution (env_dicts env) original_text (compiled_patterns env)
    original_text = Ok original_text
  /\ replace_default env m original_text st
     = Ok (group0 m, say (LogNotTranslated original_text) (tick_not_translated st)).
Proof.
  intros Hdesc Hall Hkey.
  pose proof (partial_substitution_description (env_dicts env) original_text
                (compiled_patterns env) original_text Hdesc Hall) as Hpartial.
  split; [exact Hpartial |].
  unfold replace_default, default_translation.
  destruct (get_contextual_translation (env_dicts env) original_text original_text)
    as [v|] eqn:E.
  - exfalso. apply Hkey. eapply stored_translation_key, resolver_sound, E.
  - rewrite Hpartial, String.eqb_refl. reflexivity.
Qed.

Lemma description_left_untranslated_witness :
  let env := {| env_registry := empty_registry; env_dicts := fire_dictionaries;
                compiled_patterns :=
                  [({| tp_term := "Fire"; tp_left := true; tp_right := true;
                       tp_ignorecase := true |}, "Fire")] |} in
  is_description "Would you like a Fire stone?" = true
  /\ replace_default env (record_of "8" "Would you like a Fire stone?")
       "Would you like a Fire stone?" (initial_state [])
     = Ok (group0 (record_of "8" "Would you like a Fire stone?"),
           say (LogNotTranslated "Would you like a Fire stone?")
             (tick_not_translated (initial_state []))).
Proof.
  intros env.
  assert (Hd : is_description "Would you like a Fire stone?" = true) by reflexivity.
  split; [exact Hd |].
  refine (proj2 (description_left_untranslated env _ _ _ Hd _ _)).
  - repeat constructor.
  - unfold dictionary_key, env, fire_dictionaries, dict_keys.
    intros [H | [H | [H | [H | H]]]]; simpl in H;
      try (now apply elem_of_nil in H);
      apply list_elem_of_singleton in H; discriminate H.
Defined.

(** ** Compiling the term patterns *)

Lemma last_char_nonempty (c : ascii) (s : string) :
  exists l, last_char (String c s) = Some l.
Proof.
  revert c. induction s as [|c' s IH]; intros c; [now exists c |].
  destruct (IH c') as [l Hl]. exists l.
  change (last_char (String c (String c' s))) with (last_char (String c' s)).
  exact Hl.
Qed.

Lemma compile_pattern_nonempty (t : string) :
  t <> EmptyString ->
  exists p, compile_pattern t = Ok (p, t)
    /\ tp_term p = t /\ tp_ignorecase p = true.
Proof.
  intros Hne. destruct t as [|c s]; [congruence |].
  unfold compile_pattern. destruct (last_char_nonempty c s) as [l ->].
  cbn [head_char].
  destruct (is_punctuation l); [| destruct (is_punctuation c)];
    eexists; repeat split.
Qed.

Lemma compile_patterns_empty_term (terms : list string) :
  EmptyString ∈ terms -> compile_patterns terms = Raise IndexError.
Proof.
  induction terms as [|t terms IH]; intros Hin; [now apply elem_of_nil in Hin |].
  cbn [compile_patterns].
  destruct (decide (t = EmptyString)) as [-> | Hne]; [reflexivity |].
  destruct (compile_pattern_nonempty t Hne) as (p & -> & _).
  apply elem_of_cons in Hin as [Heq | Hin]; [congruence |].
  now rewrite IH.
Qed.

Lemma compile_patterns_terms (terms : list string) :
  EmptyString ∉ terms ->
  exists ps, compile_patterns terms = Ok ps /\ snd <$> ps = terms
    /\ Forall (fun p => tp_term p.1 = p.2 /\ tp_ignorecase p.1 = true) ps.
Proof.
  induction terms as [|t terms IH]; intros Hnin.
  - exists []. repeat split; constructor.
  - apply not_elem_of_cons in Hnin as [Hne Hnin].
    destruct (IH Hnin) as (ps & Hps & Hsnd & Hall).
    destruct (compile_pattern_nonempty t) as (p & Hp & Hterm & Hic); [congruence |].
    exists ((p, t) :: ps). cbn [compile_patterns]. rewrite Hp, Hps.
    split; [reflexivity |]. split; [cbn; now rewrite Hsnd |].
    constructor; [split; assumption | assumption].
Qed.

Lemma term_index_membership `{SetOrder} (d : dictionaries) (t : string) :
  t ∈ sorted_terms d <-> dictionary_key d t.
Proof.
  unfold sorted_terms.
  rewrite sort_by_len_desc_perm, set_iter_perm, elem_of_elements.
  apply elem_of_all_terms.
Qed.

Lemma no_dictionaries_key (d : dictionaries) (t : string) :
  dictionary_key d t -> no_dictionaries d = false.
Proof.
  unfold dictionary_key, no_dictionaries, dict_keys.
  destruct (translations d), (type_translations d), (move_translations d),
    (ability_translations d), (item_translations d); try reflexivity.
  intros [H | [H | [H | [H | H]]]]; now apply elem_of_nil in H.
Qed.

(** X9. An empty key in any dictionary ends the run with [IndexError]
    while the patterns are compiled, before any record is read and
    without any output; without such a key the compilation succeeds with
    one case-insensitive pattern per term of the index, in its order. *)
Theorem empty_key_aborts `{SetOrder} `{ReEngine} `{FormatLib} :
  (forall input_file xml_content special_cases_file translation_files,
     dictionary_key
       (load_dictionaries translation_files
          (global_add_translations (load_registry special_cases_file).1))
       EmptyString ->
     process_single_file input_file xml_content special_cases_file translation_files
     = Raise IndexError)
  /\ (forall reg d,
       ~ dictionary_key d EmptyString ->
       exists env,
         build_environment reg d = Ok env
         /\ env_registry env = reg /\ env_dicts env = d
         /\ snd <$> compiled_patterns env = sorted_terms d
         /\ Forall (fun p => tp_term p.1 = p.2 /\ tp_ignorecase p.1 = true)
              (compiled_patterns env)).
Proof.
  split.
  - intros input_file xml_content special_cases_file translation_files Hkey.
    unfold process_single_file.
    destruct (load_registry special_cases_file) as [reg lg]. cbn [fst] in Hkey.
    rewrite (no_dictionaries_key _ _ Hkey). unfold build_environment.
    rewrite compile_patterns_empty_term; [reflexivity |].
    now apply term_index_membership.
  - intros reg d Hkey. unfold build_environment.
    destruct (compile_patterns_terms (sorted_terms d)) as (ps & -> & Hsnd & Hall).
    + intros Hin. now apply Hkey, term_index_membership.
    + eexists. repeat split; assumption.
Qed.

Lemma empty_key_aborts_witness :
  let files := [("it.json", Some [(EmptyString, "x"); ("Fire", "Fuoco")])] in
  dictionary_key (load_dictionaries files []) EmptyString
  /\ @process_single_file elements_order literal_engine string_fields "input/foo.xml"
       block_document None files = Raise IndexError.
Proof.
  intros files.
  assert (Hkey : dictionary_key
                   (load_dictionaries files
                      (global_add_translations (load_registry None).1))
                   EmptyString) by (left; left).
  split; [exact Hkey |].
  exact (proj1 (@empty_key_aborts elements_order literal_engine string_fields)
           "input/foo.xml" block_document None files Hkey).
Defined.

(** ** Templates *)

Lemma contains_cons (sub : string) (c : ascii) (s : string) :
  Py.contains sub (String c s) = Py.startswith (String c s) sub || Py.contains sub s.
Proof. reflexivity. Qed.

Lemma format_cons_key_error (piece : string) (r : format_result) (name : string) :
  format_cons piece r = FormatKeyError name -> r = FormatKeyError name.
Proof. destruct r; simpl; congruence. Qed.

Lemma format_cons_cons (c : ascii) (piece : string) (r : format_result) :
  format_cons (String c EmptyString) (format_cons piece r) = format_cons (String c piece) r.
Proof. destruct r; reflexivity. Qed.

Lemma format_cons_empty (r : format_result) : format_cons EmptyString r = r.
Proof. destruct r; reflexivity. Qed.

Section Fields.
Context `{FormatLib}.
Variables (vars : pydict string) (expand : string -> format_result).

Lemma format_from_skip (c : ascii) (s : string) (k : nat) :
  format_from vars expand (S k) (String c s) = format_from vars expand k s.
Proof. reflexivity. Qed.

Lemma format_from_head (c : ascii) (s : string) :
  format_from vars expand O (String c s) =
    if Ascii.eqb c "{" then
      if Py.startswith s "{" then format_cons "{" (format_from vars expand 1 s)
      else match parse_field s with
           | None => FormatRaise ValueError
           | Some fld =>
               match output_markup vars expand fld with
               | Formatted v =>
                   format_cons v (format_from vars expand (f_width fld) s)
               | other => other
               end
           end
    else if Ascii.eqb c "}" then
      if Py.startswith s "}" then format_cons "}" (format_from vars expand 1 s)
      else FormatRaise ValueError
    else format_cons (String c EmptyString) (format_from vars expand O s).
Proof.
  destruct s as [|c' s']; [reflexivity |].
  destruct c' as [[] [] [] [] [] [] [] []]; reflexivity.
Qed.

(** Where a [KeyError] of a field comes from. *)
Lemma output_markup_key_error (fld : field) (name : string) :
  (forall s name',
     expand s = FormatKeyError name' ->
     dict_get vars name' = None \/ library_key_error vars name') ->
  output_markup vars expand fld = FormatKeyError name ->
  dict_get vars name = None \/ library_key_error vars name.
Proof.
  intros Hexpand. unfold output_markup.
  destruct (split_first (f_name fld)) as [first accessors].
  destruct (get_integer ssize_t_max 0 first); try discriminate.
  destruct (dict_get vars first) as [value|] eqn:Hvalue;
    [| intros [= <-]; now left].
  set (plain := only_name accessors (f_conversion fld)).
  assert (Hrender : forall format_spec,
            (if plain && negb (Py.truthy format_spec) then Formatted value
             else field_render value accessors (f_conversion fld) format_spec)
            = FormatKeyError name ->
            library_key_error vars name).
  { intros format_spec.
    destruct (plain && negb (Py.truthy format_spec)) eqn:E; [discriminate |].
    intros Hr. exists first, value, accessors, (f_conversion fld).
    split; [exact Hvalue |]. right. exists format_spec. split; assumption. }
  assert (Hspec : match (if Py.contains "{" (f_spec fld) then expand (f_spec fld)
                         else Formatted (f_spec fld)) with
                  | Formatted format_spec =>
                      if plain && negb (Py.truthy format_spec) then Formatted value
                      else field_render value accessors (f_conversion fld) format_spec
                  | other => other
                  end = FormatKeyError name ->
                  dict_get vars name = None \/ library_key_error vars name).
  { destruct (Py.contains "{" (f_spec fld)).
    - destruct (expand (f_spec fld)) as [format_spec|name'|e] eqn:He.
      + intros Hr. right. eapply Hrender, Hr.
      + intros [= <-]. eapply Hexpand, He.
      + discriminate.
    - intros Hr. right. eapply Hrender, Hr. }
  destruct plain eqn:Hplain; [exact Hspec |].
  destruct (field_access value accessors (f_conversion fld)) as [[key|e]|] eqn:Ha;
    [| discriminate | exact Hspec].
  cbn [raise_result]. intros [= <-]. right.
  exists first, value, accessors, (f_conversion fld).
  split; [exact Hvalue |]. left. split; assumption.
Qed.

Lemma format_from_key_error :
  (forall s name',
     expand s = FormatKeyError name' ->
     dict_get vars name' = None \/ library_key_error vars name') ->
  forall (s : string) skip name,
    format_from vars expand skip s = FormatKeyError name ->
    dict_get vars name = None \/ library_key_error vars name.
Proof.
  intros Hexpand. induction s as [|c s IH]; intros skip name; [discriminate |].
  destruct skip as [|k]; [| rewrite format_from_skip; apply IH].
  rewrite format_from_head.
  destruct (Ascii.eqb c "{").
  - destruct (Py.startswith s "{").
    + intros Hr%format_cons_key_error. eapply IH, Hr.
    + destruct (parse_field s) as [fld|]; [| discriminate].
      destruct (output_markup vars expand fld) eqn:Ef.
      * intros Hr%format_cons_key_error. eapply IH, Hr.
      * intros [= <-]. eapply output_markup_key_error; eassumption.
      * discriminate.
  - destruct (Ascii.eqb c "}").
    + destruct (Py.startswith s "}"); [| discriminate].
      intros Hr%format_cons_key_error. eapply IH, Hr.
    + intros Hr%format_cons_key_error. eapply IH, Hr.
Qed.

Lemma format_from_literal (lit rest : string) :
  brace_free lit ->
  format_from vars expand O (lit +:+ rest)
  = format_cons lit (format_from vars expand O rest).
Proof.
  unfold brace_free. induction lit as [|c lit IH]; intros Hlit.
  - rewrite append_nil, format_cons_empty. reflexivity.
  - simpl in Hlit. apply andb_prop in Hlit as [Hc Hlit].
    apply andb_prop in Hc as [Ho Hcl].
    rewrite append_cons, format_from_head.
    destruct (Ascii.eqb c "{"); [discriminate |].
    destruct (Ascii.eqb c "}"); [discriminate |].
    rewrite IH by exact Hlit. apply format_cons_cons.
Qed.

Lemma format_from_brace_free (lit : string) :
  brace_free lit -> format_from vars expand O lit = Formatted lit.
Proof.
  unfold brace_free. induction lit as [|c lit IH]; intros Hlit; [reflexivity |].
  simpl in Hlit. apply andb_prop in Hlit as [Hc Hlit].
  apply andb_prop in Hc as [Ho Hcl].
  rewrite format_from_head.
  destruct (Ascii.eqb c "{"); [discriminate |].
  destruct (Ascii.eqb c "}"); [discriminate |].
  rewrite IH by exact Hlit. reflexivity.
Qed.

Lemma format_from_drop (x rest : string) :
  format_from vars expand (String.length x) (x +:+ rest)
  = format_from vars expand O rest.
Proof.
  induction x as [|c x IH]; [now rewrite append_nil |].
  rewrite append_cons. cbn [String.length]. rewrite format_from_skip. exact IH.
Qed.

Lemma output_markup_plain (name : string) :
  Py.all_chars field_name_char name = true ->
  get_integer ssize_t_max 0 name = Keyword ->
  output_markup vars expand
    {| f_name := name; f_conversion := None; f_spec := EmptyString;
       f_width := S (String.length name) |}
  = match dict_get vars name with
    | Some v => Formatted v
    | None => FormatKeyError name
    end.
Proof.
  intros Hchars Hkind. unfold output_markup. cbn [f_name f_conversion f_spec].
  assert (Hsplit : split_first name = (name, EmptyString)).
  { clear Hkind. induction name as [|c name IH]; [reflexivity |].
    simpl in Hchars. apply andb_prop in Hchars as [Hc Hname].
    cbn [split_first]. rewrite (IH Hname).
    unfold field_name_char in Hc. cbn [existsb] in Hc.
    destruct (Ascii.eqb c "."); [now rewrite !orb_true_r in Hc |].
    destruct (Ascii.eqb c "["); [now rewrite !orb_true_r in Hc |].
    reflexivity. }
  rewrite Hsplit, Hkind. destruct (dict_get vars name); reflexivity.
Qed.

End Fields.

Lemma build_string_key_error `{FormatLib} (vars : pydict string) (depth : nat) :
  forall s name,
    build_string vars depth s = FormatKeyError name ->
    dict_get vars name = None \/ library_key_error vars name.
Proof.
  induction depth as [|depth IH]; intros s name; [discriminate |].
  cbn [build_string]. apply format_from_key_error. exact IH.
Qed.

Lemma dict_set_keeps {V} (d : pydict V) (k k' : string) (v : V) :
  is_Some (dict_get d k') -> is_Some (dict_get (dict_set d k v) k').
Proof. rewrite dict_get_set. destruct (String.eqb k k'); eauto. Qed.

Lemma add_groups_keeps (groups : list (option string)) :
  forall vars i k,
    is_Some (dict_get vars k) -> is_Some (dict_get (add_groups vars i groups) k).
Proof.
  induction groups as [|g groups IH]; intros vars i k Hk; [exact Hk |].
  simpl. apply IH, dict_set_keeps, Hk.
Qed.

Lemma add_groups_defined (groups : list (option string)) :
  forall vars i j,
    i <= j < i + Z.of_nat (length groups) ->
    is_Some (dict_get (add_groups vars i groups) ("group" +:+ Py.str j)).
Proof.
  induction groups as [|g groups IH]; intros vars i j Hj; [simpl in Hj; lia |].
  cbn [add_groups]. destruct (decide (j = i)) as [-> | Hne].
  - apply add_groups_keeps. rewrite dict_get_set, String.eqb_refl. eauto.
  - apply IH. cbn [length] in Hj. lia.
Qed.

Lemma template_vars_defined (env : environment) (rm : re_match)
    (main_term original_text name : string) :
  template_variable (length (rm_groups rm)) name ->
  is_Some (dict_get (template_vars_of env rm main_term original_text) name).
Proof.
  intros Hname. unfold template_vars_of.
  set (vars := add_groups _ 1 (rm_groups rm)).
  assert (Hvars : name <> "translated" -> is_Some (dict_get vars name)).
  { intros Hnt. destruct Hname as [-> | [-> | [-> | (j & Hj & ->)]]].
    - apply add_groups_keeps. simpl. eauto.
    - apply add_groups_keeps. simpl. eauto.
    - congruence.
    - apply add_groups_defined. lia. }
  assert (Hset : forall v, is_Some (dict_get (dict_set vars "translated" v) name)).
  { intros v. rewrite dict_get_set.
    destruct (String.eqb "translated" name) eqn:E; [eauto |].
    apply Hvars. intros ->. now rewrite String.eqb_refl in E. }
  destruct (translated_term_of env main_term original_text) as [[|c t]|]; apply Hset.
Qed.





(** X10. A template error names a variable that the transform step
    does not define, never [original], [match] or [translated] and never
    [group<j>] for a group [j] of the match, unless the library itself
    raised it from an accessor, a conversion or a format specification
    that it applied to the value of a defined variable.  This holds for
    every template: the name may stand in a field or in the format
    specification of a field. *)
Theorem template_error_names_undefined `{FormatLib} (env : environment) (rm : re_match)
    (main_term original_text template name : string) :
  let template_vars := template_vars_of env rm main_term original_text in
  format template template_vars = FormatKeyError name ->
  (dict_get template_vars name = None
   /\ ~ template_variable (length (rm_groups rm)) name)
  \/ library_key_error template_vars name.
Proof.
  intros template_vars Hfmt. apply build_string_key_error in Hfmt.
  destruct Hfmt as [Hnone | Hlib]; [left | now right].
  split; [exact Hnone |]. intros Hname.
  apply (template_vars_defined env rm main_term original_text) in Hname.
  fold template_vars in Hname. rewrite Hnone in Hname. now destruct Hname.
Qed.

Lemma template_error_names_undefined_witness :
  let vars := template_vars_of nested_template_env
                {| rm_group0 := "Fire"; rm_groups := [] |} "Fire" "Fire" in
  @format string_fields "{original:{foo}}" vars = FormatKeyError "foo"
  /\ ((dict_get vars "foo" = None /\ ~ template_variable 0 "foo")
      \/ @library_key_error string_fields vars "foo").
Proof.
  intros vars.
  assert (Hfmt : @format string_fields "{original:{foo}}" vars = FormatKeyError "foo")
    by (vm_compute; reflexivity).
  split; [exact Hfmt |].
  exact (@template_error_names_undefined string_fields nested_template_env
           {| rm_group0 := "Fire"; rm_groups := [] |} "Fire" "Fire"
           "{original:{foo}}" "foo" Hfmt).
Defined.

Lemma contains_char_false (x : ascii) (s : string) :
  Py.contains (String x EmptyString) s = false -> Py.all_chars (not_char x) s = true.
Proof.
  induction s as [|c s IH]; [reflexivity |].
  rewrite contains_cons. intros [Hhead Hrest]%orb_false_elim.
  simpl. rewrite (IH Hrest), andb_true_r. unfold not_char.
  cbn in Hhead. rewrite Ascii.eqb_sym.
  destruct (Ascii.eqb x c); [discriminate | reflexivity].
Qed.

Lemma plain_name_chars `{FormatLib} (name : string) :
  plain_name name -> Py.all_chars field_name_char name = true.
Proof.
  intros (Hbrace & Hspecial & _ & _). unfold brace_free in Hbrace.
  cbn [existsb] in Hspecial. rewrite orb_false_r in Hspecial.
  apply orb_false_elim in Hspecial as [Hbang Hspecial].
  apply orb_false_elim in Hspecial as [Hcolon Hspecial].
  apply orb_false_elim in Hspecial as [Hdot Hbracket].
  apply contains_char_false in Hbang, Hcolon, Hdot, Hbracket.
  induction name as [|c name IH]; [reflexivity |].
  simpl in *.
  apply andb_prop in Hbrace as [Hb Hbrace], Hbang as [H1 Hbang],
    Hcolon as [H2 Hcolon], Hdot as [H3 Hdot], Hbracket as [H4 Hbracket].
  rewrite IH by assumption. rewrite andb_true_r.
  unfold field_name_char, not_char in *. cbn [existsb].
  apply andb_prop in Hb as [Hopen Hclose].
  destruct (Ascii.eqb c "{"); [discriminate |].
  destruct (Ascii.eqb c "}"); [discriminate |].
  destruct (Ascii.eqb c "!"); [discriminate |].
  destruct (Ascii.eqb c ":"); [discriminate |].
  destruct (Ascii.eqb c "."); [discriminate |].
  destruct (Ascii.eqb c "["); [discriminate |].
  reflexivity.
Qed.

Lemma parse_name_plain (name after : string) :
  Py.all_chars field_name_char name = true ->
  parse_name false (name +:+ String "}" after) = Some (name, "}"%char, after).
Proof.
  induction name as [|c name IH]; intros Hchars.
  - rewrite append_nil. reflexivity.
  - simpl in Hchars. apply andb_prop in Hchars as [Hc Hname].
    rewrite append_cons. cbn [parse_name]. rewrite (IH Hname).
    unfold field_name_char in Hc. cbn [existsb] in Hc.
    destruct (Ascii.eqb c "{"); [discriminate |].
    destruct (Ascii.eqb c "}"); [discriminate |].
    destruct (Ascii.eqb c "!"); [discriminate |].
    destruct (Ascii.eqb c ":"); [discriminate |].
    destruct (Ascii.eqb c "."); [discriminate |].
    destruct (Ascii.eqb c "["); [discriminate |].
    reflexivity.
Qed.

Lemma parse_field_plain (name after : string) :
  Py.all_chars field_name_char name = true ->
  parse_field (name +:+ String "}" after)
  = Some {| f_name := name; f_conversion := None; f_spec := EmptyString;
            f_width := S (String.length name) |}.
Proof.
  intros Hchars. unfold parse_field. rewrite parse_name_plain by exact Hchars.
  reflexivity.
Qed.

Lemma startswith_brace_name (name rest : string) :
  brace_free name -> Py.startswith (name +:+ String "}" rest) "{" = false.
Proof.
  unfold brace_free. destruct name as [|c name]; intros Hname.
  - rewrite append_nil. reflexivity.
  - simpl in Hname. apply andb_prop in Hname as [Hc _].
    apply andb_prop in Hc as [Ho _].
    rewrite append_cons. cbn [Py.startswith].
    rewrite Ascii.eqb_sym. destruct (Ascii.eqb c "{"); [discriminate | reflexivity].
Qed.

(** X11. A template made of literal text around one plain field
    [{name}] gives the text with the value of [name] in the place of the
    field when [name] is defined, and the error naming [name] when it is
    not; a template without braces is returned as it is. *)
Theorem format_single_field `{FormatLib} (vars : pydict string)
    (before name after : string) :
  brace_free before -> plain_name name -> brace_free after ->
  format (before +:+ "{" +:+ name +:+ "}" +:+ after) vars
  = match dict_get vars name with
    | Some v => Formatted (before +:+ v +:+ after)
    | None => FormatKeyError name
    end
  /\ format after vars = Formatted after.
Proof.
  intros Hbefore Hplain Hafter.
  pose proof (plain_name_chars name Hplain) as Hchars.
  destruct Hplain as (Hname & _ & _ & Hkind).
  unfold format. cbn [build_string].
  split; [| now apply format_from_brace_free].
  rewrite format_from_literal by exact Hbefore.
  rewrite append_cons, append_nil, format_from_head. cbn [Ascii.eqb Bool.eqb].
  change ("}" +:+ after) with (String "}" after).
  rewrite startswith_brace_name by exact Hname.
  rewrite parse_field_plain by exact Hchars.
  rewrite output_markup_plain by assumption. cbn [f_width].
  destruct (dict_get vars name) as [v|]; [| reflexivity].
  replace (S (String.length name)) with (String.length (name +:+ "}"))
    by (rewrite length_append; simpl; lia).
  replace (name +:+ String "}" after) with ((name +:+ "}") +:+ after)
    by (rewrite append_assoc; reflexivity).
  rewrite format_from_drop, format_from_brace_free by exact Hafter.
  reflexivity.
Qed.

Lemma format_single_field_witness :
  @format string_fields ("Liv." +:+ "{" +:+ "group1" +:+ "}" +:+ EmptyString)
    [("original", "Lv.5"); ("group1", "5")]
  = Formatted ("Liv." +:+ "5" +:+ EmptyString)
  /\ @format string_fields EmptyString [("original", "Lv.5"); ("group1", "5")]
     = Formatted EmptyString.
Proof.
  apply (@format_single_field string_fields [("original", "Lv.5"); ("group1", "5")]
           "Liv." "group1" EmptyString).
  - reflexivity.
  - repeat split; reflexivity.
  - reflexivity.
Defined.

(** ** The cascade: what every record goes through *)

Section Accounting.
Context `{ReEngine} `{FormatLib}.
Variables (env : environment) (m : record_match).

Ltac accounted_leaf :=
  unfold accounted; cbn;
  repeat match goal with
         | |- _ /\ _ => split
         end;
  try lia;
  first
    [ left; repeat split; try lia; eexists; reflexivity
    | right; repeat split; lia
    | eexists; split; [| left; reflexivity]; reflexivity ].

Lemma replace_default_accounted (original_text out : string) (st st' : run_state) :
  replace_default env m original_text st = Ok (out, st') ->
  accounted 0 false m st st' out.
Proof.
  unfold replace_default.
  destruct (default_translation env original_text) as [translated_text|]; [| discriminate].
  destruct (parentheses_pass (env_dicts env) translated_text) as [[|c t]|];
    intros [= <- <-]; accounted_leaf.
Qed.

Lemma accounted_weaken (ds ds' : Z) (te te' : bool) (st st' : run_state) (out : string) :
  ds <= ds' -> (te = true -> te' = true) ->
  accounted ds te m st st' out -> accounted ds' te' m st st' out.
Proof.
  intros Hds Hte (Hc & Hcount & Hs & ev & Hev & Hlog).
  repeat split; try assumption; try lia. exists ev. split; [assumption |].
  destruct Hlog as [Hlog | [Htrue Hlog]]; [now left | right; auto].
Qed.

Lemma accounted_after_special (te : bool) (st st' : run_state) (out : string) :
  accounted 0 te m (tick_special st) st' out -> accounted 1 te m st st' out.
Proof.
  intros (Hc & Hcount & Hs & ev & Hev & Hlog). cbn in *.
  repeat split; try assumption; try lia. exists ev. split; assumption.
Qed.

Lemma replace_legacy_accounted (original_text out : string) (st st' : run_state) :
  replace_legacy env m original_text st = Ok (out, st') ->
  accounted 1 false m st st' out.
Proof.
  unfold replace_legacy.
  assert (Hdefault : replace_default env m original_text st = Ok (out, st') ->
                     accounted 1 false m st st' out).
  { intros Hrun. eapply accounted_weaken, replace_default_accounted, Hrun; [lia | auto]. }
  destruct (special_cases (env_registry env) !! string_id m) as [case|];
    [| exact Hdefault].
  destruct (decide (lc_type case = Some "no_translation")).
  { intros [= <- <-]. accounted_leaf. }
  destruct (decide (lc_type case = Some "add_translation")); [| exact Hdefault].
  destruct (lc_translations case) as [|kv temp]; [exact Hdefault |].
  destruct (apply_temp_translations (kv :: temp) original_text) as [working_text|];
    [| discriminate].
  destruct (String.eqb working_text original_text).
  - intros Hrun. apply accounted_after_special.
    eapply replace_default_accounted, Hrun.
  - intros [= <- <-]. accounted_leaf.
Qed.

Lemma transform_patterns_result (original_text : string)
    (patterns : list pattern_config) (st st' : run_state) (result : option string) :
  transform_patterns env m original_text patterns st = Ok (result, st') ->
  match result with
  | Some out =>
      (exists body, out = rebuild m body)
      /\ exists ev, is_template_error ev = false /\ st' = say ev (tick_translated st)
  | None => st' = st \/ exists name, st' = say (LogTemplateError (string_id m) name) st
  end.
Proof.
  induction patterns as [|p patterns IH]; cbn [transform_patterns].
  - intros [= <- <-]. now left.
  - destruct (pc_regex p) as [[|r0 r]|]; try exact IH.
    destruct (pc_template p) as [[|t0 t]|]; try exact IH.
    destruct (re_search (String r0 r) original_text) as [[regex_match|]|];
      [| exact IH | discriminate].
    destruct (main_term_of regex_match original_text) as [main_term|]; [| discriminate].
    destruct (format _ _) as [out|name|e]; [| | discriminate].
    + intros [= <- <-]. split; [eauto |]. eexists. split; [| reflexivity]. reflexivity.
    + intros [= <- <-]. right. eauto.
Qed.

Lemma replace_transform_accounted (original_text out : string) (st st' : run_state) :
  replace_transform env m original_text st = Ok (out, st') ->
  accounted 2 true m st st' out.
Proof.
  unfold replace_transform.
  assert (Hlegacy : replace_legacy env m original_text st = Ok (out, st') ->
                    accounted 2 true m st st' out).
  { intros Hrun. eapply accounted_weaken, replace_legacy_accounted, Hrun; [lia | auto]. }
  destruct (global_transform_translations (env_registry env) !! string_id m)
    as [transform_data|]; [| exact Hlegacy].
  destruct (td_patterns transform_data) as [|p patterns]; [exact Hlegacy |].
  destruct (transform_patterns env m original_text (p :: patterns) (tick_special st))
    as [[[result|] st1]|] eqn:Hloop; [| | discriminate];
    apply transform_patterns_result in Hloop.
  - destruct Hloop as [[body ->] (ev & Hev & ->)]. intros [= <- <-].
    unfold accounted; cbn. repeat split; try lia.
    + left. repeat split; try lia. eauto.
    + exists ev. split; [exact Hev | now left].
  - intros Hrun. apply replace_legacy_accounted in Hrun.
    destruct Hrun as (Hc & Hcount & Hs & ev & Hev & Hlog).
    destruct Hlog as [Hlog | [[=] _]].
    destruct Hloop as [-> | [name ->]]; cbn in *.
    + repeat split; try assumption; try lia. exists ev. split; [assumption | now left].
    + repeat split; try assumption; try lia.
      exists ev. split; [assumption |]. right. split; [reflexivity |].
      exists name. rewrite Hlog, <- app_assoc. reflexivity.
Qed.

Lemma cascade_accounted (original_text out : string) (st st' : run_state) :
  cascade env m original_text st = Ok (out, st') ->
  accounted 2 true m st st' out.
Proof.
  unfold cascade.
  destruct (global_override_translations (env_registry env) !! string_id m) as [od|].
  { intros [= <- <-]. accounted_leaf. }
  destruct (decide (string_id m ∈ global_no_translation_ids (env_registry env))).
  { intros [= <- <-]. accounted_leaf. }
  apply replace_transform_accounted.
Qed.

Lemma replace_content_accounted (out : string) (st st' : run_state) :
  replace_content env m st = Ok (out, st') ->
  if Py.truthy (Py.strip (text m))
  then accounted 2 true m (tick_current st) st' out
  else out = group0 m /\ st' = tick_current st.
Proof.
  unfold replace_content.
  destruct (Py.truthy (Py.strip (text m))); cbn [negb].
  - apply cascade_accounted.
  - intros [= <- <-]. split; reflexivity.
Qed.


(** X13. Every record is counted once: [current] goes up by one.  A
    record with text is counted either as translated or as not
    translated, applies at most two special cases and adds to the log
    exactly one event, the one of the step that decides for it, or
    exactly two when a template error of its own comes first; a record
    without text changes no other counter and leaves the log as it
    was. *)
Theorem record_counted_once (out : string) (st st' : run_state) :
  replace_content env m st = Ok (out, st') ->
  current st' = current st + 1
  /\ translated_count st <= translated_count st'
  /\ not_translated_count st <= not_translated_count st'
  /\ (translated_count st' - translated_count st)
     + (not_translated_count st' - not_translated_count st)
     = (if Py.truthy (Py.strip (text m)) then 1 else 0)
  /\ special_cases_applied st <= special_cases_applied st'
     <= special_cases_applied st + (if Py.truthy (Py.strip (text m)) then 2 else 0)
  /\ exists evs,
       run_log st' = run_log st ++ evs
       /\ if Py.truthy (Py.strip (text m)) then record_events m evs else evs = [].
Proof.
  intros Hrun. apply replace_content_accounted in Hrun.
  destruct (Py.truthy (Py.strip (text m))).
  - destruct Hrun as (Hc & Hcount & Hs & ev & Hev & Hlog). cbn in Hc, Hcount, Hs, Hlog.
    repeat split; try lia.
    destruct Hlog as [Hlog | [_ [name Hlog]]]; eexists; (split; [exact Hlog |]);
      exists ev; (split; [exact Hev |]); [now left | right; eauto].
  - destruct Hrun as [-> ->]. cbn. repeat split; try lia.
    exists []. now rewrite app_nil_r.
Qed.

(** X14. Whatever step of the cascade decides, the record keeps its
    opening and closing tags; and a record that is not counted as
    translated is returned exactly as it was matched. *)
Theorem record_tags_kept (out : string) (st st' : run_state) :
  replace_content env m st = Ok (out, st') ->
  (exists body, out = rebuild m body)
  /\ (translated_count st' = translated_count st -> out = group0 m).
Proof.
  intros Hrun. apply replace_content_accounted in Hrun.
  destruct (Py.truthy (Py.strip (text m))).
  - destruct Hrun as (_ & [(Ht & _ & body & ->) | (_ & _ & ->)] & _); cbn in *.
    + split; [eauto | lia].
    + split; [exists (text m); reflexivity | reflexivity].
  - destruct Hrun as [-> ->]. split; [exists (text m); reflexivity | reflexivity].
Qed.

End Accounting.


Lemma record_counted_once_witness :
  let st := initial_state [] in
  let st' := say (LogTranslated "Fire" "Fuoco")
               (say (LogTemplateError "21" "foo")
                  (tick_translated (tick_special (tick_current st)))) in
  @replace_content literal_engine string_fields nested_template_env
    (record_of "21" "Fire") st
  = Ok (rebuild (record_of "21" "Fire") "Fuoco", st')
  /\ current st' = current st + 1
  /\ translated_count st <= translated_count st'
  /\ not_translated_count st <= not_translated_count st'
  /\ (translated_count st' - translated_count st)
     + (not_translated_count st' - not_translated_count st) = 1
  /\ special_cases_applied st <= special_cases_applied st'
     <= special_cases_applied st + 2
  /\ exists evs,
       run_log st' = run_log st ++ evs
       /\ record_events (record_of "21" "Fire") evs.
Proof.
  intros st st'.
  assert (Hrun : @replace_content literal_engine string_fields nested_template_env
                   (record_of "21" "Fire") st
                 = Ok (rebuild (record_of "21" "Fire") "Fuoco", st'))
    by (vm_compute; reflexivity).
  split; [exact Hrun |].
  exact (@record_counted_once literal_engine string_fields nested_template_env
           (record_of "21" "Fire") _ st st' Hrun).
Defined.

Lemma record_tags_kept_witness :
  let st := initial_state [] in
  let st' := say (LogGlobalOverride "5" "greeting" "Hello" "Ciao")
               (tick_special (tick_translated (tick_current st))) in
  let out := rebuild (record_of "5" "Hello") "Ciao" in
  @replace_content literal_engine string_fields greeting_env (record_of "5" "Hello") st
  = Ok (out, st')
  /\ (exists body, out = rebuild (record_of "5" "Hello") body)
  /\ (translated_count st' = translated_count st -> out = group0 (record_of "5" "Hello")).
Proof.
  intros st st' out.
  assert (Hrun : @replace_content literal_engine string_fields greeting_env (record_of "5" "Hello") st
                 = Ok (out, st'))
    by (vm_compute; reflexivity).
  split; [exact Hrun |].
  exact (@record_tags_kept literal_engine string_fields greeting_env (record_of "5" "Hello")
           out st st' Hrun).
Defined.

(** ** The document pass and the run *)

Lemma replace_content_consistent `{ReEngine} `{FormatLib} (env : environment) (m : record_match)
    (out : string) (st st' : run_state) :
  replace_content env m st = Ok (out, st') ->
  counters_consistent st -> counters_consistent st'.
Proof.
  intros Hrun (Ht & Hn & Hs & Hsum & Hsp). apply replace_content_accounted in Hrun.
  destruct (Py.truthy (Py.strip (text m))).
  - destruct Hrun as (Hc & Hcount & Hs' & _). cbn in Hc, Hcount, Hs'.
    unfold counters_consistent. lia.
  - destruct Hrun as [_ ->]. unfold counters_consistent. cbn. lia.
Qed.

Lemma document_sub_from_consistent
    (f : record_match -> run_state -> outcome (string * run_state)) :
  (forall m st out st',
     f m st = Ok (out, st') -> counters_consistent st -> counters_consistent st') ->
  forall s skip st out st',
    document_sub_from f skip s st = Ok (out, st') ->
    counters_consistent st -> counters_consistent st'.
Proof.
  intros Hf. induction s as [|c s IH]; intros skip st out st'.
  - intros [= <- <-]. trivial.
  - cbn [document_sub_from]. destruct skip as [|k]; [| apply IH].
    destruct (record_at (String c s)) as [m|].
    + destruct (f m st) as [[replacement st1]|] eqn:Hm; [| discriminate].
      destruct (document_sub_from f _ s st1) as [[out' st2]|] eqn:Hrest; [| discriminate].
      intros [= <- <-] Hst. eapply IH; [exact Hrest |]. eapply Hf; eassumption.
    + destruct (document_sub_from f O s st) as [[out' st2]|] eqn:Hrest; [| discriminate].
      intros [= <- <-]. eapply IH, Hrest.
Qed.

Lemma apply_add_block_counters (input_file : string) (acc : string * run_state)
    (entry : string * block_info) :
  counters_consistent acc.2 ->
  counters_consistent (apply_add_block input_file acc entry).2.
Proof.
  destruct acc as [xml st], entry as [path info]. unfold apply_add_block.
  destruct (String.eqb _ _); [| trivial].
  destruct (Py.truthy _); [| trivial].
  destruct (Py.rfind _ _); trivial.
Qed.

Lemma apply_add_blocks_counters (input_file : string) (blocks : pydict block_info)
    (acc : string * run_state) :
  counters_consistent acc.2 ->
  counters_consistent (foldl (apply_add_block input_file) acc blocks).2.
Proof.
  revert acc. induction blocks as [|entry blocks IH]; intros acc Hacc; [exact Hacc |].
  cbn [foldl]. apply IH, apply_add_block_counters, Hacc.
Qed.

(** X15. At the end of every run that does not raise, the counters the
    summary prints are consistent: none is negative, the records counted
    as translated and as not translated together are no more than the
    records processed, and the special cases applied are at most two per
    record. *)
Theorem run_counters_consistent `{SetOrder} `{ReEngine} `{FormatLib}
    (input_file xml_content : string)
    (special_cases_file : option (option special_cases_json))
    (translation_files : list (string * option (pydict string)))
    (output : option string) (st : run_state) :
  process_single_file input_file xml_content special_cases_file translation_files
    = Ok (output, st) ->
  counters_consistent st.
Proof.
  unfold process_single_file.
  destruct (load_registry special_cases_file) as [reg lg].
  assert (Hinit : counters_consistent (initial_state lg))
    by (unfold counters_consistent; cbn; lia).
  destruct (no_dictionaries _).
  { intros [= <- <-]. exact Hinit. }
  destruct (build_environment reg _) as [env|]; [| discriminate].
  destruct (document_sub env xml_content (initial_state lg)) as [[translated st1]|] eqn:Hdoc;
    [| discriminate].
  destruct (apply_add_blocks input_file (add_block_data reg) translated st1)
    as [final st2] eqn:Hblocks.
  intros [= <- <-].
  change st2 with (final, st2).2. rewrite <- Hblocks.
  apply apply_add_blocks_counters. cbn [snd].
  eapply document_sub_from_consistent; [| exact Hdoc | exact Hinit].
  intros m st0 out st0'. apply replace_content_consistent.
Qed.

Lemma run_counters_consistent_witness :
  let st := say (LogBlockAdded "input/foo.xml" "Block addition"
                   (String.length block_content))
              (say (LogTranslated "Fire type" "Fuoco type")
                 (tick_translated (tick_current
                    (initial_state [LogLoaded "files for add_block" 1;
                                    LogLoaded "special cases" 0])))) in
  @process_single_file elements_order literal_engine string_fields "input\foo.xml"
    block_document (Some (Some block_special_cases)) fire_files
  = Ok (Some block_final, st)
  /\ counters_consistent st.
Proof.
  intros st.
  assert (Hrun : @process_single_file elements_order literal_engine string_fields "input\foo.xml"
                   block_document (Some (Some block_special_cases)) fire_files
                 = Ok (Some block_final, st)) by (vm_compute; reflexivity).
  split; [exact Hrun |].
  exact (@run_counters_consistent elements_order literal_engine string_fields _ _ _ _ _ _ Hrun).
Defined.

Lemma after_literal_startswith (lit : string) :
  forall s r, after_literal lit s = Some r -> Py.startswith s lit = true.
Proof.
  induction lit as [|l lit IH]; intros s r; [reflexivity |].
  destruct s as [|c s]; cbn [after_literal Py.startswith]; [discriminate |].
  destruct (Ascii.eqb l c); [| discriminate]. intros Hr. cbn. eapply IH, Hr.
Qed.

Lemma record_at_startswith (s : string) (m : record_match) :
  record_at s = Some m -> Py.startswith s "<string" = true.
Proof.
  unfold record_at.
  destruct (after_literal "<string" s) as [s1|] eqn:E; [| discriminate].
  intros _. eapply after_literal_startswith, E.
Qed.

Lemma document_sub_from_no_record
    (f : record_match -> run_state -> outcome (string * run_state))
    (s : string) (st : run_state) :
  Py.contains "<string" s = false -> document_sub_from f O s st = Ok (s, st).
Proof.
  induction s as [|c s IH]; [reflexivity |].
  rewrite contains_cons. intros [Hhead Hrest]%orb_false_elim.
  cbn [document_sub_from].
  destruct (record_at (String c s)) as [m|] eqn:Hm.
  - apply record_at_startswith in Hm. congruence.
  - now rewrite IH.
Qed.

(** X16. A document in which [<string] does not occur holds no record:
    when there are dictionaries and none has an empty key, it is written
    out as it was read, but for the blocks to add, and every counter stays
    zero. *)
Theorem document_without_records `{SetOrder} `{ReEngine} `{FormatLib}
    (input_file xml_content : string)
    (special_cases_file : option (option special_cases_json))
    (translation_files : list (string * option (pydict string))) :
  let reg := (load_registry special_cases_file).1 in
  let lg := (load_registry special_cases_file).2 in
  let d := load_dictionaries translation_files (global_add_translations reg) in
  Py.contains "<string" xml_content = false ->
  no_dictionaries d = false ->
  ~ dictionary_key d EmptyString ->
  let result := apply_add_blocks input_file (add_block_data reg) xml_content
                  (initial_state lg) in
  process_single_file input_file xml_content special_cases_file translation_files
    = Ok (Some result.1, result.2)
  /\ (Py.replace_char "\" "/" input_file ∉ dict_keys (add_block_data reg) ->
      result = (xml_content, initial_state lg)).
Proof.
  intros reg lg d Hdoc Hdict Hkey result. split.
  - unfold process_single_file.
    destruct (load_registry special_cases_file) as [reg' lg'] eqn:Hreg.
    cbn [fst snd] in reg, lg. subst reg lg. fold d. rewrite Hdict.
    unfold build_environment.
    destruct (compile_patterns_terms (sorted_terms d)) as (ps & -> & _).
    { intros Hin. now apply Hkey, term_index_membership. }
    unfold document_sub. rewrite document_sub_from_no_record by exact Hdoc.
    fold result. now destruct result.
  - intros Hother. subst result. unfold apply_add_blocks.
    now apply apply_add_blocks_other.
Qed.

Lemma document_without_records_witness :
  @process_single_file elements_order literal_engine string_fields "input/foo.xml"
    "<resources></resources>" None fire_files
  = Ok (Some "<resources></resources>", initial_state []).
Proof.
  refine (proj1 (@document_without_records elements_order literal_engine string_fields
                   "input/foo.xml" "<resources></resources>" None fire_files _ _ _)).
  - vm_compute. reflexivity.
  - vm_compute. reflexivity.
  - vm_compute. intros [H | [H | [H | [H | H]]]]; inversion H; subst;
      match goal with
      | H' : _ ∈ [] |- _ => inversion H'
      end.
Defined.

(** ** Ranges, from the file to the record *)

(** X17. A range in the no-translation list of the special-cases file
    protects every id between its bounds: a record with text and such an
    id, for which the file has no override, is returned as it was matched
    and counted as not translated, whatever the dictionaries hold. *)
Theorem no_translation_range_protects `{ReEngine} `{FormatLib}
    (data : special_cases_json) (lg : log) (d : dictionaries)
    (patterns : list (term_pattern * string))
    (e : no_translation_entry) (a b k : Z) (m : record_match) (st : run_state) :
  let env := {| env_registry := (load_special_cases data lg).1; env_dicts := d;
                compiled_patterns := patterns |} in
  e ∈ default [] (js_no_translation data) ->
  ne_id e = range_string a b ->
  0 <= a -> a <= k <= b ->
  string_id m = Py.str k ->
  (forall o, o ∈ default [] (js_override_translation data) ->
             string_id m ∉ entry_ids (oe_id o)) ->
  Py.strip (text m) <> EmptyString ->
  replace_content env m st
  = Ok (group0 m,
        say (LogGlobalNoTranslation (string_id m))
          (tick_special (tick_not_translated (tick_current st)))).
Proof.
  intros env He Hid Ha Hk Hm Hov Htext.
  unfold replace_content.
  destruct (Py.strip (text m)) as [|c0 ot] eqn:Hot; [congruence |].
  cbn [Py.truthy negb]. unfold cascade. subst env. cbn [env_registry].
  rewrite registry_fields.
  cbn [global_override_translations global_no_translation_ids].
  rewrite foldl_load_override_lookup, lookup_empty.
  change (foldl _ None ?es) with (last_for oe_id override_payload (string_id m) es).
  rewrite (proj2 (last_for_none oe_id override_payload (string_id m) _) Hov).
  rewrite decide_True; [reflexivity |].
  rewrite foldl_load_no_translation_set, union_empty_l_L, elem_of_list_to_set.
  apply elem_of_concat_iff. exists (entry_ids (ne_id e)). split.
  - rewrite Hid, Hm. now apply range_string_ids.
  - apply list_elem_of_fmap. eauto.
Qed.

Lemma no_translation_range_protects_witness :
  @replace_content literal_engine string_fields
    {| env_registry := (load_special_cases protected_range_data []).1;
       env_dicts := fire_generic_dictionaries;
       compiled_patterns := [] |}
    (record_of "4" "Fire") (initial_state [])
  = Ok (group0 (record_of "4" "Fire"),
        say (LogGlobalNoTranslation "4")
          (tick_special (tick_not_translated (tick_current (initial_state []))))).
Proof.
  refine (@no_translation_range_protects literal_engine string_fields protected_range_data []
            fire_generic_dictionaries []
            {| ne_id := "3-5"; ne_comment := EmptyString |} 3 5 4
            (record_of "4" "Fire") (initial_state []) _ _ _ _ _ _ _).
  - left.
  - vm_compute. reflexivity.
  - lia.
  - lia.
  - vm_compute. reflexivity.
  - intros o Ho. cbn in Ho. now apply elem_of_nil in Ho.
  - vm_compute. discriminate.
Defined.

(** ** The default path *)

Section DefaultPath.
Context `{ReEngine} `{FormatLib}.
Variables (env : environment) (m : record_match).

Lemma replace_content_unregistered (st : run_state) :
  unregistered (env_registry env) (string_id m) ->
  Py.strip (text m) <> EmptyString ->
  replace_content env m st
  = replace_default env m (Py.strip (text m)) (tick_current st).
Proof.
  intros (Hov & Hno & Htr & Hsp) Htext. unfold replace_content.
  destruct (Py.strip (text m)) as [|c0 ot] eqn:Hot; [congruence |].
  cbn [Py.truthy negb]. unfold cascade. rewrite Hov, decide_False by exact Hno.
  unfold replace_transform. rewrite Htr. unfold replace_legacy. now rewrite Hsp.
Qed.

Lemma partial_substitution_no_term (d : dictionaries) (original_text : string)
    (patterns : list (term_pattern * string)) (working_text : string) :
  Forall (fun p => pattern_search p.1 working_text = false) patterns ->
  partial_substitution d original_text patterns working_text = Ok working_text.
Proof.
  induction 1 as [|[p term] patterns Hp _ IH]; [reflexivity |].
  cbn [partial_substitution]. cbn [fst] in Hp. now rewrite Hp.
Qed.

(** X18. A record the registry does not name, whose text is no key of
    the dictionaries and holds no term of the index, is returned as it was
    matched and counted as not translated. *)
Theorem unknown_text_not_translated (st : run_state) :
  let original_text := Py.strip (text m) in
  unregistered (env_registry env) (string_id m) ->
  original_text <> EmptyString ->
  default_to EmptyString
    (get_contextual_translation (env_dicts env) original_text original_text)
    = EmptyString ->
  Forall (fun p => pattern_search p.1 original_text = false) (compiled_patterns env) ->
  replace_content env m st
  = Ok (group0 m,
        say (LogNotTranslated original_text) (tick_not_translated (tick_current st))).
Proof.
  intros original_text Hreg Htext Hwhole Hterms.
  rewrite replace_content_unregistered by assumption. fold original_text.
  unfold replace_default, default_translation.
  rewrite partial_substitution_no_term by exact Hterms.
  rewrite String.eqb_refl.
  destruct (get_contextual_translation _ _ _) as [[|c t]|]; try discriminate Hwhole;
    reflexivity.
Qed.

(** X19. The translation of the whole text comes before the terms of
    the index: when the resolver has a non-empty translation for the text
    of a record the registry does not name, that translation is what is
    put between the tags (without parentheses in it, as it stands), and no
    pattern is tried. *)
Theorem whole_text_translation_wins (st : run_state) (t : string) :
  let original_text := Py.strip (text m) in
  unregistered (env_registry env) (string_id m) ->
  original_text <> EmptyString ->
  get_contextual_translation (env_dicts env) original_text original_text = Some t ->
  t <> EmptyString ->
  Py.contains "(" t = false \/ Py.contains ")" t = false ->
  replace_content env m st
  = Ok (rebuild m t,
        say (LogTranslated original_text t) (tick_translated (tick_current st))).
Proof.
  intros original_text Hreg Htext Hwhole Ht Hparens.
  rewrite replace_content_unregistered by assumption. fold original_text.
  unfold replace_default, default_translation. rewrite Hwhole.
  destruct t as [|c t]; [congruence |].
  unfold parentheses_pass.
  replace (Py.truthy (String c t) && Py.contains "(" (String c t)
           && Py.contains ")" (String c t)) with false; [reflexivity |].
  destruct Hparens as [-> | ->]; [| now rewrite andb_false_r].
  now rewrite andb_false_r.
Qed.

Lemma apply_temp_translations_unused (temp_translations : pydict string)
    (working_text : string) :
  Forall (fun kv => kv.1 <> EmptyString
                    /\ pattern_search (scoped_pattern kv.1) working_text = false)
    temp_translations ->
  apply_temp_translations temp_translations working_text = Ok working_text.
Proof.
  induction 1 as [|[term tr] rest [Hne Hp] _ IH]; [reflexivity |].
  cbn [apply_temp_translations]. cbn [fst] in Hne, Hp.
  destruct term as [|c term]; [congruence |].
  unfold scoped_pattern in Hp. now rewrite Hp.
Qed.

(** X20. A legacy case of type [no_translation] keeps the dictionaries
    away from its record: unless the global registry names the id, the
    record is returned as it was matched, with the reason of the case or
    the default reason in the log. *)
Theorem legacy_no_translation_skips (st : run_state) (case : legacy_case) :
  let original_text := Py.strip (text m) in
  original_text <> EmptyString ->
  global_override_translations (env_registry env) !! string_id m = None ->
  string_id m ∉ global_no_translation_ids (env_registry env) ->
  global_transform_translations (env_registry env) !! string_id m = None ->
  special_cases (env_registry env) !! string_id m = Some case ->
  lc_type case = Some "no_translation" ->
  replace_content env m st
  = Ok (group0 m,
        say (LogSkip (string_id m) (default_to "Special case" (lc_reason case)))
          (tick_special (tick_not_translated (tick_current st)))).
Proof.
  intros original_text Htext Hov Hno Htr Hsp Htype. unfold replace_content.
  fold original_text.
  destruct original_text as [|c0 ot] eqn:Hot; [congruence |].
  cbn [Py.truthy negb]. unfold cascade. rewrite Hov, decide_False by exact Hno.
  unfold replace_transform. rewrite Htr. unfold replace_legacy. rewrite Hsp.
  now rewrite decide_True by exact Htype.
Qed.

(** X21. A legacy case of type [add_translation] none of whose terms
    occurs in the text changes nothing, yet is counted as a special case
    applied: the record goes on to the default path with that counter one
    higher. *)
Theorem unused_record_translations_counted (st : run_state) (case : legacy_case) :
  let original_text := Py.strip (text m) in
  original_text <> EmptyString ->
  global_override_translations (env_registry env) !! string_id m = None ->
  string_id m ∉ global_no_translation_ids (env_registry env) ->
  global_transform_translations (env_registry env) !! string_id m = None ->
  special_cases (env_registry env) !! string_id m = Some case ->
  lc_type case = Some "add_translation" ->
  lc_translations case <> [] ->
  Forall (fun kv => kv.1 <> EmptyString
                    /\ pattern_search (scoped_pattern kv.1) original_text = false)
    (lc_translations case) ->
  replace_content env m st
  = replace_default env m original_text (tick_special (tick_current st)).
Proof.
  intros original_text Htext Hov Hno Htr Hsp Htype Hne Hunused.
  unfold replace_content. fold original_text.
  destruct original_text as [|c0 ot] eqn:Hot; [congruence |].
  cbn [Py.truthy negb]. unfold cascade. rewrite Hov, decide_False by exact Hno.
  unfold replace_transform. rewrite Htr. unfold replace_legacy. rewrite Hsp.
  rewrite decide_False by (rewrite Htype; discriminate).
  rewrite decide_True by exact Htype.
  destruct (lc_translations case) as [|kv temp] eqn:Htemp; [congruence |].
  rewrite apply_temp_translations_unused by exact Hunused.
  now rewrite String.eqb_refl.
Qed.

End DefaultPath.

Lemma unknown_text_not_translated_witness :
  @replace_content literal_engine string_fields broken_template_env (record_of "7" "Water")
    (initial_state [])
  = Ok (group0 (record_of "7" "Water"),
        say (LogNotTranslated "Water")
          (tick_not_translated (tick_current (initial_state [])))).
Proof.
  refine (@unknown_text_not_translated literal_engine string_fields broken_template_env
            (record_of "7" "Water") (initial_state []) _ _ _ _).
  - repeat split; try (vm_compute; reflexivity). apply not_elem_of_empty.
  - vm_compute. discriminate.
  - vm_compute. reflexivity.
  - repeat constructor.
Defined.

Lemma whole_text_translation_wins_witness :
  @replace_content literal_engine string_fields broken_template_env (record_of "7" "Fire")
    (initial_state [])
  = Ok (rebuild (record_of "7" "Fire") "Fuoco",
        say (LogTranslated "Fire" "Fuoco")
          (tick_translated (tick_current (initial_state [])))).
Proof.
  refine (@whole_text_translation_wins literal_engine string_fields broken_template_env
            (record_of "7" "Fire") (initial_state []) "Fuoco" _ _ _ _ _).
  - repeat split; try (vm_compute; reflexivity). apply not_elem_of_empty.
  - vm_compute. discriminate.
  - vm_compute. reflexivity.
  - discriminate.
  - left. vm_compute. reflexivity.
Defined.

Lemma legacy_no_translation_skips_witness :
  let env := {| env_registry :=
                  (load_special_cases
                     {| js_add_translation := None; js_add_block := None;
                        js_override_translation := None;
                        js_transform_translation := None;
                        js_no_translation := None;
                        js_rest := [("9", {| lc_type := Some "no_translation";
                                             lc_reason := None;
                                             lc_translations := [] |})] |} []).1;
                env_dicts := fire_generic_dictionaries;
                compiled_patterns := [] |} in
  @replace_content literal_engine string_fields env (record_of "9" "Fire") (initial_state [])
  = Ok (group0 (record_of "9" "Fire"),
        say (LogSkip "9" "Special case")
          (tick_special (tick_not_translated (tick_current (initial_state []))))).
Proof.
  intros env.
  refine (@legacy_no_translation_skips literal_engine string_fields env (record_of "9" "Fire")
            (initial_state [])
            {| lc_type := Some "no_translation"; lc_reason := None;
               lc_translations := [] |} _ _ _ _ _ _).
  - vm_compute. discriminate.
  - vm_compute. reflexivity.
  - apply not_elem_of_empty.
  - vm_compute. reflexivity.
  - vm_compute. reflexivity.
  - reflexivity.
Defined.

Lemma unused_record_translations_counted_witness :
  @replace_content literal_engine string_fields scoped_env (record_of "8" "Fire") (initial_state [])
  = @replace_default scoped_env (record_of "8" "Fire") "Fire"
      (tick_special (tick_current (initial_state []))).
Proof.
  refine (@unused_record_translations_counted literal_engine string_fields scoped_env
            (record_of "8" "Fire") (initial_state [])
            {| lc_type := Some "add_translation"; lc_reason := None;
               lc_translations := [("Ice", "Ghiaccio")] |} _ _ _ _ _ _ _ _).
  - vm_compute. discriminate.
  - vm_compute. reflexivity.
  - apply not_elem_of_empty.
  - vm_compute. reflexivity.
  - vm_compute. reflexivity.
  - reflexivity.
  - discriminate.
  - repeat constructor. discriminate.
Defined.

(** ** The parenthesis pass *)

Lemma parens_match_at_head (c : ascii) (s : string) :
  parens_match_at (String c s)
  = if Ascii.eqb c "(" then
      match span_until ")" s with
      | (String c' g, String _ _) => Some (String c' g)
      | _ => None
      end
    else None.
Proof. destruct c as [[] [] [] [] [] [] [] []]; reflexivity. Qed.

Lemma span_until_stop (x : ascii) (g rest : string) :
  Py.all_chars (not_char x) g = true ->
  span_until x (g +:+ String x rest) = (g, String x rest).
Proof.
  induction g as [|c g IH]; intros Hg.
  - rewrite append_nil. cbn [span_until]. now rewrite Ascii.eqb_refl.
  - simpl in Hg. apply andb_prop in Hg as [Hc Hg]. unfold not_char in Hc.
    rewrite append_cons. cbn [span_until].
    destruct (Ascii.eqb c x); [discriminate |]. now rewrite IH.
Qed.

Lemma parens_sub_from_drop (f : string -> string) (x rest : string) :
  parens_sub_from f (String.length x) (x +:+ rest) = parens_sub_from f O rest.
Proof.
  induction x as [|c x IH]; [now rewrite append_nil |].
  rewrite append_cons. exact IH.
Qed.

Lemma parens_sub_from_plain (f : string -> string) (pre rest : string) :
  Py.all_chars (not_char "(") pre = true ->
  parens_sub_from f O (pre +:+ rest) = pre +:+ parens_sub_from f O rest.
Proof.
  induction pre as [|c pre IH]; intros Hpre; [now rewrite !append_nil |].
  simpl in Hpre. apply andb_prop in Hpre as [Hc Hpre]. unfold not_char in Hc.
  rewrite !append_cons. cbn [parens_sub_from]. rewrite parens_match_at_head.
  destruct (Ascii.eqb c "("); [discriminate |]. now rewrite IH.
Qed.

Lemma parens_sub_from_group (f : string -> string) (g rest : string) :
  g <> EmptyString -> Py.all_chars (not_char ")") g = true ->
  parens_sub_from f O (String "(" (g +:+ String ")" rest))
  = f g +:+ parens_sub_from f O rest.
Proof.
  intros Hne Hg. cbn [parens_sub_from]. rewrite parens_match_at_head.
  cbn [Ascii.eqb Bool.eqb]. rewrite span_until_stop by exact Hg.
  destruct g as [|c g]; [congruence |]. f_equal.
  replace (S (String.length (String c g)))
    with (String.length (String c g +:+ ")")) by (rewrite length_append; simpl; lia).
  replace (String c g +:+ String ")" rest) with ((String c g +:+ ")") +:+ rest)
    by (rewrite append_assoc; reflexivity).
  apply parens_sub_from_drop.
Qed.

Lemma contains_not_char (x : ascii) (s : string) :
  Py.all_chars (not_char x) s = true -> Py.contains (String x EmptyString) s = false.
Proof.
  induction s as [|c s IH]; [reflexivity |].
  simpl. intros [Hc Hs]%andb_prop. unfold not_char in Hc.
  rewrite Ascii.eqb_sym. destruct (Ascii.eqb c x); [discriminate |]. now apply IH.
Qed.

(** X22. After the translation, a text with one parenthesised group
    has the content of the group looked up in the type dictionary, and
    only there, by its exact spelling: a key of the type dictionary is
    replaced by its translation, any other content is kept, and the text
    around the group is not touched. *)
Theorem parenthesised_type_translated (d : dictionaries) (before g after : string) :
  Py.all_chars (not_char "(") before = true ->
  g <> EmptyString ->
  Py.all_chars (not_char ")") g = true ->
  Py.all_chars (not_char "(") after = true ->
  parentheses_pass d (Some (before +:+ "(" +:+ g +:+ ")" +:+ after))
  = Some (before +:+ "("
          +:+ default_to g (dict_get (type_translations d) g) +:+ ")" +:+ after).
Proof.
  intros Hbefore Hne Hg Hafter. unfold parentheses_pass.
  assert (Htruthy : Py.truthy (before +:+ "(" +:+ g +:+ ")" +:+ after) = true).
  { destruct before; reflexivity. }
  assert (Hopen : Py.contains "(" (before +:+ "(" +:+ g +:+ ")" +:+ after) = true).
  { apply contains_middle. }
  assert (Hclose : Py.contains ")" (before +:+ "(" +:+ g +:+ ")" +:+ after) = true).
  { replace (before +:+ "(" +:+ g +:+ ")" +:+ after)
      with ((before +:+ "(" +:+ g) +:+ String ")" after)
      by (rewrite !append_assoc; reflexivity).
    apply contains_middle. }
  rewrite Htruthy, Hopen, Hclose. cbn [andb]. f_equal.
  unfold parens_sub. rewrite parens_sub_from_plain by exact Hbefore.
  rewrite append_cons, append_nil.
  change (")" +:+ after) with (String ")" after).
  rewrite parens_sub_from_group by assumption.
  replace (parens_sub_from (translate_parentheses_content d) 0 after) with after.
  2:{ rewrite <- (append_empty_r after) at 2.
      rewrite parens_sub_from_plain by exact Hafter.
      now rewrite append_empty_r. }
  f_equal. unfold translate_parentheses_content.
  destruct (dict_get (type_translations d) g); cbn [default_to];
    rewrite !append_assoc; reflexivity.
Qed.

Lemma parenthesised_type_translated_witness :
  parentheses_pass fire_dictionaries
    (Some ("Fuoco " +:+ "(" +:+ "Fire" +:+ ")" +:+ "!"))
  = Some ("Fuoco " +:+ "("
          +:+ default_to "Fire" (dict_get (type_translations fire_dictionaries) "Fire")
          +:+ ")" +:+ "!").
Proof.
  apply (parenthesised_type_translated fire_dictionaries "Fuoco " "Fire" "!").
  - reflexivity.
  - discriminate.
  - reflexivity.
  - reflexivity.
Defined.

(** ** Blocks that are not added *)

Lemma replace_char_gone (x : ascii) (new s : string) :
  Py.all_chars (not_char x) new = true ->
  Py.all_chars (not_char x) (Py.replace_char x new s) = true.
Proof.
  intros Hnew. induction s as [|c s IH]; [reflexivity |].
  cbn [Py.replace_char]. destruct (Ascii.eqb c x) eqn:E.
  - rewrite all_chars_append, Hnew. exact IH.
  - simpl. unfold not_char at 1. rewrite E. exact IH.
Qed.

(** X23. An entry of the blocks to add does nothing when its path is
    written with a backslash (the path of the input file is compared
    after its backslashes became slashes, the key is compared as it is),
    when its path is another file's, or when its content is empty: with
    only such entries the document and the log stay as they were. *)
Theorem blocks_not_added (input_file : string) (blocks : pydict block_info)
    (xml_content : string) (st : run_state) :
  Forall (fun entry : string * block_info =>
            Py.contains "\" entry.1 = true
            \/ entry.1 <> Py.replace_char "\" "/" input_file
            \/ bi_content entry.2 = EmptyString) blocks ->
  apply_add_blocks input_file blocks xml_content st = (xml_content, st).
Proof.
  unfold apply_add_blocks.
  induction 1 as [|[path info] blocks Hentry _ IH]; [reflexivity |].
  cbn [foldl]. rewrite <- IH at 2. f_equal. cbn [fst snd] in Hentry.
  unfold apply_add_block.
  destruct (String.eqb path (Py.replace_char "\" "/" input_file)) eqn:E;
    [| reflexivity].
  apply String.eqb_eq in E.
  destruct Hentry as [Hback | [Hother | Hempty]].
  - rewrite E, contains_not_char in Hback; [discriminate |].
    now apply replace_char_gone.
  - congruence.
  - now rewrite Hempty.
Qed.

Lemma blocks_not_added_witness :
  apply_add_blocks "input\foo.xml"
    [("input\foo.xml", {| bi_content := block_content; bi_reason := "Block addition" |});
     ("input/bar.xml", {| bi_content := block_content; bi_reason := "Block addition" |});
     ("input/foo.xml", {| bi_content := EmptyString; bi_reason := "Block addition" |})]
    block_document (initial_state [])
  = (block_document, initial_state []).
Proof.
  apply blocks_not_added.
  constructor; [left; vm_compute; reflexivity |].
  constructor; [right; left; vm_compute; discriminate |].
  constructor; [right; right; reflexivity | constructor].
Defined.

Lemma registry_last_entry_wins_witness :
  let data :=
    {| js_add_translation := None; js_add_block := None;
       js_override_translation :=
         Some [{| oe_id := "3-5"; oe_translation := "Uno"; oe_reason := EmptyString |};
               {| oe_id := "4"; oe_translation := "Due"; oe_reason := EmptyString |}];
       js_transform_translation := None;
       js_no_translation := None;
       js_rest := [] |} in
  global_override_translations (load_special_cases data []).1 !! "4"
  = last_for oe_id override_payload "4" (default [] (js_override_translation data)).
Proof.
  intros data. exact (proj1 (registry_last_entry_wins data [] "4")).
Defined.
